(** * numpy-cnn: the PyTorch reference script [ref-conv.py]

    A shallow embedding of the training script: the network [Model], the
    training pass [train], the evaluation pass [test] and the driver [main],
    followed by the properties of the control loop.

    Conventions of the embedding.
    - A Python [float] (and a [float32] tensor element) is an exact rational
      [Q]: sums, products and quotients are the mathematical ones, rounding
      is not modelled.
    - A tensor is its shape and its elements in row-major order.  The batch
      dimension of a tensor is a Rocq list of per-example tensors, the layers
      of [Model] act on each example independently.
    - Exceptions are values of [error]; a computation that may raise has type
      [result A].
    - Tensors live on the host: [x.to(device)] does not change a value and is
      the identity.
    - A label is an integer; the loader stacks the labels of a batch into a
      tensor of 64-bit integers, which [int64] says a label fits.
    - The mutable objects of the script (the model's parameters and mode, the
      gradients, the optimizer's learning rate, the scheduler's counter, the
      global random generator, the standard output) are the fields of
      [State], threaded through [train], [test] and [main].
    - The two framework functions whose values need transcendental functions
      or differentiation, the cross-entropy of a batch and the gradient of a
      loss, are parameters of the development. *)

From Stdlib Require Import ZArith QArith Qminmax Qpower Permutation Lia Ascii.
From stdpp Require Import gmap strings list fin_maps pretty.

Set Warnings "-abstract-large-number".
Open Scope string_scope.
Open Scope list_scope.

(** ** Exceptions *)

Inductive error :=
| ZeroDivisionError
| IndexError
| RuntimeError
| ValueError
| FileNotFoundError.

Inductive result (A : Type) :=
| Ok (a : A)
| Error (e : error).
Arguments Ok {A} a.
Arguments Error {A} e.

#[global] Instance result_ret : MRet result := fun A a => Ok a.
#[global] Instance result_bind : MBind result := fun A B f m =>
  match m with Ok a => f a | Error e => Error e end.
#[global] Instance result_fmap : FMap result := fun A B f m =>
  match m with Ok a => Ok (f a) | Error e => Error e end.

Definition is_Ok {A} (r : result A) : Prop := exists a, r = Ok a.

(** [mapM f l]: apply [f] to the elements from left to right, stop at the
    first exception. *)
Fixpoint mapM {A B} (f : A -> result B) (l : list A) : result (list B) :=
  match l with
  | [] => Ok []
  | a :: l' => b ← f a; bs ← mapM f l'; Ok (b :: bs)
  end.

(** [foldM f l s]: a [for] loop over [l] with loop state [s]. *)
Fixpoint foldM {A S} (f : S -> A -> result S) (l : list A) (s : S) : result S :=
  match l with
  | [] => Ok s
  | a :: l' => s' ← f s a; foldM f l' s'
  end.

(** ** Tensors *)

Record Tensor := { shape : list nat; data : list Q }.

Definition numel (s : list nat) : nat := foldr Nat.mul 1%nat s.
Definition get (l : list Q) (i : nat) : Q := nth i l 0%Q.
Definition sumQ (l : list Q) : Q := foldr Qplus 0%Q l.
Definition maxQ (l : list Q) : Q :=
  match l with
  | [] => 0%Q
  | a :: l' => fold_left Qmax l' a
  end.
Definition zeros (s : list nat) : Tensor :=
  {| shape := s; data := repeat 0%Q (numel s) |}.

(** ** Layers ([torch.nn])

    A layer object owns its parameters.  [Conv2d] has stride 1 and no
    padding (the defaults), its kernel size and channel counts are the
    dimensions of [weight]; [Linear]'s feature counts are the dimensions of
    its [weight]. *)

Inductive Module :=
| Conv2d (weight bias : Tensor)
| ReLU
| MaxPool2d (kernel_size : nat)
| Flatten
| Linear (weight bias : Tensor).

Abbreviation Sequential := (list Module).

(** Shape check and output shape of one layer on one example.
    Convolution: inputs H x W x C, filters R x S x C x M, and
    E = (H + 2P - R)/T + 1, F = (W + 2P - S)/T + 1 with P = 0, T = 1. *)
Definition layer_shape (l : Module) (s : list nat) : result (list nat) :=
  match l with
  | Conv2d w b =>
      match shape w, shape b, s with
      | [m; c; kr; ks], [m'], [c'; h; wd] =>
          if (m =? m')%nat && (c =? c')%nat
             && (1 <=? kr)%nat && (kr <=? h)%nat && (1 <=? ks)%nat && (ks <=? wd)%nat
          then Ok [m; h - kr + 1; wd - ks + 1]%nat
          else Error RuntimeError
      | _, _, _ => Error RuntimeError
      end
  | ReLU => Ok s
  | MaxPool2d k =>
      match s with
      | [c; h; wd] =>
          if (1 <=? k)%nat && (k <=? h)%nat && (k <=? wd)%nat
          then Ok [c; h / k; wd / k]%nat
          else Error RuntimeError
      | _ => Error RuntimeError
      end
  | Flatten => Ok [numel s]
  | Linear w b =>
      match shape w, shape b, rev s with
      | [nout; nin], [nout'], nin' :: pre =>
          if (nout =? nout')%nat && (nin =? nin')%nat
          then Ok (rev (nout :: pre))
          else Error RuntimeError
      | _, _, _ => Error RuntimeError
      end
  end.

Definition conv2d_data (c h wd m kr ks : nat) (w b x : list Q) : list Q :=
  f ← seq 0 m; i ← seq 0 (h - kr + 1); j ← seq 0 (wd - ks + 1);
  [ (get b f + sumQ (ch ← seq 0 c; r ← seq 0 kr; s ← seq 0 ks;
       [ get w (((f * c + ch) * kr + r) * ks + s)
         * get x ((ch * h + (i + r)) * wd + (j + s)) ]))%Q ].

Definition relu (x : Q) : Q := Qmax 0 x.

Definition max_pool2d_data (c h wd k : nat) (x : list Q) : list Q :=
  ch ← seq 0 c; i ← seq 0 (h / k); j ← seq 0 (wd / k);
  [ maxQ (r ← seq 0 k; s ← seq 0 k;
       [ get x ((ch * h + (i * k + r)) * wd + (j * k + s)) ]) ].

Definition linear_data (nout nin rows : nat) (w b x : list Q) : list Q :=
  n ← seq 0 rows; o ← seq 0 nout;
  [ (get b o + sumQ (i ← seq 0 nin; [ get w (o * nin + i) * get x (n * nin + i) ]))%Q ].

(** The elements of the output of one layer (meaningful when [layer_shape]
    accepts the input). *)
Definition layer_data (l : Module) (x : Tensor) : list Q :=
  match l with
  | Conv2d w b =>
      match shape w, shape x with
      | [m; c; kr; ks], [_; h; wd] =>
          conv2d_data c h wd m kr ks (data w) (data b) (data x)
      | _, _ => []
      end
  | ReLU => relu <$> data x
  | MaxPool2d k =>
      match shape x with
      | [c; h; wd] => max_pool2d_data c h wd k (data x)
      | _ => []
      end
  | Flatten => data x
  | Linear w b =>
      match shape w, rev (shape x) with
      | [nout; nin], _ :: pre =>
          linear_data nout nin (numel pre) (data w) (data b) (data x)
      | _, _ => []
      end
  end.

Definition layer_forward (l : Module) (x : Tensor) : result Tensor :=
  s ← layer_shape l (shape x);
  Ok {| shape := s; data := layer_data l x |}.

(** [nn.Sequential.forward]: feed the output of each layer to the next. *)
Fixpoint forward (model : Sequential) (x : Tensor) : result Tensor :=
  match model with
  | [] => Ok x
  | l :: rest => y ← layer_forward l x; forward rest y
  end.

(** The shapes only: what [forward] accepts and the shape it returns. *)
Fixpoint infer (model : Sequential) (s : list nat) : result (list nat) :=
  match model with
  | [] => Ok s
  | l :: rest => s' ← layer_shape l s; infer rest s'
  end.

(** The model called on a batch. *)
Definition call (model : Sequential) (batch : list Tensor) : result (list Tensor) :=
  mapM (forward model) batch.

(** [model.parameters()]: the parameter tensors in registration order. *)
Definition module_parameters (l : Module) : list Tensor :=
  match l with
  | Conv2d w b | Linear w b => [w; b]
  | ReLU | MaxPool2d _ | Flatten => []
  end.

Definition parameters (model : Sequential) : list Tensor :=
  l ← model; module_parameters l.

(** Write the tensors [ps] into the parameters of the model, in
    registration order; a parameter for which [ps] has run out keeps its
    value. *)
Fixpoint set_parameters (model : Sequential) (ps : list Tensor) : Sequential :=
  match model with
  | [] => []
  | Conv2d w b :: rest =>
      match ps with
      | [] => model
      | [w'] => Conv2d w' b :: rest
      | w' :: b' :: ps' => Conv2d w' b' :: set_parameters rest ps'
      end
  | Linear w b :: rest =>
      match ps with
      | [] => model
      | [w'] => Linear w' b :: rest
      | w' :: b' :: ps' => Linear w' b' :: set_parameters rest ps'
      end
  | l :: rest => l :: set_parameters rest ps
  end.

(** ** The network of the script *)

Definition nn_Conv2d (in_channels out_channels kernel_size : nat)
    (w b : list Q) : Module :=
  Conv2d {| shape := [out_channels; in_channels; kernel_size; kernel_size]; data := w |}
         {| shape := [out_channels]; data := b |}.

Definition nn_Linear (in_features out_features : nat) (w b : list Q) : Module :=
  Linear {| shape := [out_features; in_features]; data := w |}
         {| shape := [out_features]; data := b |}.

(** [Model = torch.nn.Sequential(...)].  The constructors draw the initial
    values of the eight parameter tensors; [init i] is the row-major content
    of the [i]-th one. *)
Definition Model (init : nat -> list Q) : Sequential :=
  [ nn_Conv2d 1 32 3 (init 0%nat) (init 1%nat);
    ReLU;
    nn_Conv2d 32 64 3 (init 2%nat) (init 3%nat);
    ReLU;
    MaxPool2d 2;
    Flatten;
    nn_Linear 9216 128 (init 4%nat) (init 5%nat);
    ReLU;
    nn_Linear 128 10 (init 6%nat) (init 7%nat) ].

(** ** Scores, predictions and the concrete loss functions *)

(** The rows of a batch of model outputs, as an [N x C] matrix; an output
    that is not one-dimensional does not fit the targets of the script. *)
Definition scores (output : list Tensor) : result (list (list Q)) :=
  mapM (fun y => match shape y with
                 | [_] => Ok (data y)
                 | _ => Error RuntimeError
                 end) output.

(** A class index is accepted when it is a class of the row or the
    [ignore_index] -100 of the framework's classification losses. *)
Definition class_ok (row : list Q) (t : Z) : bool :=
  (t =? -100)%Z || ((0 <=? t)%Z && (t <? Z.of_nat (length row))%Z).

Definition nll_row (row : list Q) (t : Z) : result Q :=
  if (t =? -100)%Z then Ok 0%Q
  else if (0 <=? t)%Z && (t <? Z.of_nat (length row))%Z
       then Ok (- get row (Z.to_nat t))%Q
       else Error IndexError.

(** [F.nll_loss(output, target, reduction='sum').item()] *)
Definition nll_loss_sum (output : list (list Q)) (target : list Z) : result Q :=
  sumQ <$> mapM (fun '(row, t) => nll_row row t) (zip output target).

(** Index of the first maximal element of a row. *)
Fixpoint argmax_from (best : Q) (besti i : nat) (row : list Q) : nat :=
  match row with
  | [] => besti
  | x :: row' =>
      if Qle_bool x best then argmax_from best besti (S i) row'
      else argmax_from x i (S i) row'
  end.

Definition argmax (row : list Q) : result Z :=
  match row with
  | [] => Error IndexError
  | x :: row' => Ok (Z.of_nat (argmax_from x 0 1 row'))
  end.

(** [pred.eq(target.view_as(pred)).sum().item()] *)
Definition count_eq (pred target : list Z) : Z :=
  Z.of_nat (length (filter (fun '(p, t) => p = t) (zip pred target))).

(** [(np.arange(10) == y[:, None]).astype(np.float32)] *)
Definition arange (n : nat) : list Z := Z.of_nat <$> seq 0 n.

Definition one_hot_row (y : Z) : list Q :=
  (fun i => if (i =? y)%Z then 1%Q else 0%Q) <$> arange 10.

Definition one_hot (y : list Z) : list (list Q) := one_hot_row <$> y.

(** Broadcasting of a row of scores against a row of the target: equal
    lengths, or a single score stretched over the target. *)
Definition broadcast_row (row t : list Q) : result (list (Q * Q)) :=
  if (length row =? length t)%nat then Ok (zip row t)
  else match row with
       | [x] => Ok ((fun y => (x, y)) <$> t)
       | _ => Error RuntimeError
       end.

Definition squared_error (p : Q * Q) : Q := ((p.1 - p.2) * (p.1 - p.2))%Q.

(** [nn.MSELoss()(output, target).item()]: the mean of the squared
    differences over all elements.  (A batch of a [DataLoader] is never
    empty.) *)
Definition mse_loss (output target : list (list Q)) : result Q :=
  rows ← mapM (fun '(row, t) => broadcast_row row t) (zip output target);
  let sq := squared_error <$> concat rows in
  Ok (sumQ sq / inject_Z (Z.of_nat (length sq)))%Q.

(** ** Run configuration: the command-line flags *)

Record Flags := {
  data_dir : string;
  train_batch_size : Z;
  test_batch_size : Z;
  loss_fn : string;
  epochs : Z;
  lr : Q;
  log_interval : Z;
  start_checkpoint : option string;
  save_model : bool;
  save_checkpoint : string;
  loss_fig : string
}.

(** The defaults of the argument parser. *)
Definition default_flags : Flags := {|
  data_dir := "downloads";
  train_batch_size := 128;
  test_batch_size := 10000;
  loss_fn := "CE";
  epochs := 10;
  lr := 0.10;
  log_interval := 100;
  start_checkpoint := None;
  save_model := false;
  save_checkpoint := "downloads/mnist_cnn.pth";
  loss_fig := "downloads/loss_curve.png"
|}.

(** ** What the script writes and the calls it makes

    [PrintTrain], [PrintTest] and [PrintTime] are the three [print]
    statements with the values they format; [TrainPass], [OptimizerStep],
    [TestPass] and [SchedulerStep] record the entry into [train], each
    [optimizer.step()], the entry into [test] and each [scheduler.step()]. *)

Inductive event :=
| TrainPass (epoch : Z)
| OptimizerStep (epoch : Z) (batch_idx : nat) (loss : Q)
| PrintTrain (epoch : Z) (seen total : Z) (percent loss : Q)
| TestPass
| PrintTest (test_loss : Q) (correct total : Z) (percent : Q)
| SchedulerStep
| PrintTime (seconds : Q).

(** ** The mutable state of a run *)

Record State := {
  model : Sequential;        (* the layers with their parameters *)
  training : bool;           (* model.training *)
  grad : list Tensor;        (* p.grad for p in model.parameters(); [] = unset *)
  grad_enabled : bool;       (* torch.is_grad_enabled() *)
  optimizer_lr : Q;          (* optimizer.param_groups[0]['lr'] *)
  last_epoch : Z;            (* scheduler.last_epoch *)
  rng : nat -> nat;          (* the draws of the global random generator *)
  rng_pos : nat;             (* how many draws were consumed *)
  trace : list event         (* standard output and calls, oldest first *)
}.

Definition set_model (m : Sequential) (st : State) : State :=
  {| model := m; training := training st; grad := grad st;
     grad_enabled := grad_enabled st; optimizer_lr := optimizer_lr st;
     last_epoch := last_epoch st; rng := rng st; rng_pos := rng_pos st;
     trace := trace st |}.

Definition set_training (b : bool) (st : State) : State :=
  {| model := model st; training := b; grad := grad st;
     grad_enabled := grad_enabled st; optimizer_lr := optimizer_lr st;
     last_epoch := last_epoch st; rng := rng st; rng_pos := rng_pos st;
     trace := trace st |}.

Definition set_grad (g : list Tensor) (st : State) : State :=
  {| model := model st; training := training st; grad := g;
     grad_enabled := grad_enabled st; optimizer_lr := optimizer_lr st;
     last_epoch := last_epoch st; rng := rng st; rng_pos := rng_pos st;
     trace := trace st |}.

Definition set_grad_enabled (b : bool) (st : State) : State :=
  {| model := model st; training := training st; grad := grad st;
     grad_enabled := b; optimizer_lr := optimizer_lr st;
     last_epoch := last_epoch st; rng := rng st; rng_pos := rng_pos st;
     trace := trace st |}.

Definition set_scheduler (rate : Q) (n : Z) (st : State) : State :=
  {| model := model st; training := training st; grad := grad st;
     grad_enabled := grad_enabled st; optimizer_lr := rate;
     last_epoch := n; rng := rng st; rng_pos := rng_pos st;
     trace := trace st |}.

Definition set_rng_pos (n : nat) (st : State) : State :=
  {| model := model st; training := training st; grad := grad st;
     grad_enabled := grad_enabled st; optimizer_lr := optimizer_lr st;
     last_epoch := last_epoch st; rng := rng st; rng_pos := n;
     trace := trace st |}.

Definition emit (e : event) (st : State) : State :=
  {| model := model st; training := training st; grad := grad st;
     grad_enabled := grad_enabled st; optimizer_lr := optimizer_lr st;
     last_epoch := last_epoch st; rng := rng st; rng_pos := rng_pos st;
     trace := trace st ++ [e] |}.

(** ** The data loader ([torch.utils.data.DataLoader]) *)

Record DataLoader := {
  dataset : list (Tensor * Z);
  batch_size : nat;
  shuffle : bool
}.

(** The constructor rejects a batch size that is not positive and, with
    [shuffle=True], an empty data set (the random sampler wants a positive
    number of samples). *)
Definition new_DataLoader (ds : list (Tensor * Z)) (bs : Z) (sh : bool)
    : result DataLoader :=
  if (bs <=? 0)%Z then Error ValueError
  else if sh && bool_decide (ds = []) then Error ValueError
  else Ok {| dataset := ds; batch_size := Z.to_nat bs; shuffle := sh |}.

(** [len(loader)]: the number of batches, the last one may be short. *)
Definition len_loader (loader : DataLoader) : nat :=
  ((length (dataset loader) + batch_size loader - 1) / batch_size loader)%nat.

(** A random permutation: each draw selects one of the remaining elements. *)
Fixpoint permute {A} (fuel : nat) (g : nat -> nat) (pos : nat) (l : list A)
    : list A :=
  match fuel with
  | O => []
  | S fuel' =>
      let i := (g pos mod length l)%nat in
      match l !! i with
      | Some x => x :: permute fuel' g (S pos) (delete i l)
      | None => []
      end
  end.

Fixpoint chunks_aux {A} (fuel n : nat) (l : list A) : list (list A) :=
  match fuel with
  | O => []
  | S fuel' =>
      match l with
      | [] => []
      | _ => take n l :: chunks_aux fuel' n (drop n l)
      end
  end.

(** Consecutive groups of [n] elements, the last one may be short. *)
Definition chunks {A} (n : nat) (l : list A) : list (list A) :=
  chunks_aux (length l) n l.

(** One pass over the loader: the sampler draws a fresh permutation when
    [shuffle] is set, the examples are grouped in that order. *)
Definition sample (loader : DataLoader) (st : State)
    : list (list (Tensor * Z)) * State :=
  let n := length (dataset loader) in
  if shuffle loader
  then (chunks (batch_size loader) (permute n (rng st) (rng_pos st) (dataset loader)),
        set_rng_pos (rng_pos st + n) st)
  else (chunks (batch_size loader) (dataset loader), st).

Record Batch := { batch_data : list Tensor; batch_target : list Z }.

(** Stacking the examples of a batch needs images of one shape. *)
Definition collate (items : list (Tensor * Z)) : result Batch :=
  match items with
  | [] => Error RuntimeError
  | (x, _) :: _ =>
      if bool_decide (Forall (fun it => shape it.1 = shape x) items)
      then Ok {| batch_data := items.*1; batch_target := items.*2 |}
      else Error RuntimeError
  end.

(** [enumerate] *)
Definition enumerate {A} (l : list A) : list (nat * A) := zip (seq 0 (length l)) l.

(** ** Optimizer ([optim.SGD], no momentum) and scheduler ([StepLR]) *)

Definition sgd_update (rate : Q) (p g : Tensor) : Tensor :=
  {| shape := shape p;
     data := imap (fun i x => (x - rate * get (data g) i)%Q) (data p) |}.

Fixpoint sgd_updates (rate : Q) (ps gs : list Tensor) : list Tensor :=
  match ps, gs with
  | p :: ps', g :: gs' => sgd_update rate p g :: sgd_updates rate ps' gs'
  | _, _ => ps
  end.

Definition tensor_add (a b : Tensor) : Tensor :=
  {| shape := shape a;
     data := imap (fun i x => (x + get (data b) i)%Q) (data a) |}.

(** [optimizer.zero_grad()] *)
Definition zero_grad (st : State) : State := set_grad [] st.

(** Gradients add up in [p.grad] until they are cleared. *)
Definition accumulate (old new : list Tensor) : list Tensor :=
  match old with
  | [] => new
  | _ => zip_with tensor_add old new
  end.

(** [optimizer.step()]: p <- p - lr * p.grad *)
Definition optimizer_step (st : State) : State :=
  set_model (set_parameters (model st)
               (sgd_updates (optimizer_lr st) (parameters (model st)) (grad st))) st.

Definition step_size : Z := 1.
Definition gamma : Q := 0.7.

(** [scheduler.step()] of [StepLR(optimizer, step_size=1, gamma=0.7)] *)
Definition scheduler_step (st : State) : State :=
  let n := (last_epoch st + 1)%Z in
  let rate :=
    if (n =? 0)%Z || negb (n mod step_size =? 0)%Z then optimizer_lr st
    else (optimizer_lr st * gamma)%Q in
  emit SchedulerStep (set_scheduler rate n st).

(** ** Checkpoints: [state_dict], [load_state_dict], [torch.save], [torch.load] *)

(** [model.named_parameters()]: a layer of a [Sequential] is named by its
    position, its tensors are [weight] and [bias]. *)
Definition weight_name (i : nat) : string := pretty i +:+ ".weight".
Definition bias_name (i : nat) : string := pretty i +:+ ".bias".

Definition named_module_parameters (i : nat) (l : Module) : list (string * Tensor) :=
  match l with
  | Conv2d w b | Linear w b => [ (weight_name i, w); (bias_name i, b) ]
  | ReLU | MaxPool2d _ | Flatten => []
  end.

Fixpoint named_parameters_from (i : nat) (model : Sequential)
    : list (string * Tensor) :=
  match model with
  | [] => []
  | l :: rest => named_module_parameters i l ++ named_parameters_from (S i) rest
  end.

Definition named_parameters (model : Sequential) : list (string * Tensor) :=
  named_parameters_from 0 model.

(** [model.state_dict()]: the mapping from parameter name to value. *)
Definition state_dict (model : Sequential) : gmap string Tensor :=
  list_to_map (named_parameters model).

(** The value a checkpoint gives to a parameter, when it has one of the
    parameter's shape. *)
Definition restored (ckpt : gmap string Tensor) (name : string) (p : Tensor)
    : option Tensor :=
  match ckpt !! name with
  | Some t => if bool_decide (shape t = shape p) then Some t else None
  | None => None
  end.

Definition load_module (ckpt : gmap string Tensor) (i : nat) (l : Module)
    : option Module :=
  match l with
  | Conv2d w b =>
      w' ← restored ckpt (weight_name i) w;
      b' ← restored ckpt (bias_name i) b;
      Some (Conv2d w' b')
  | Linear w b =>
      w' ← restored ckpt (weight_name i) w;
      b' ← restored ckpt (bias_name i) b;
      Some (Linear w' b')
  | ReLU | MaxPool2d _ | Flatten => Some l
  end.

Fixpoint load_modules (ckpt : gmap string Tensor) (i : nat) (model : Sequential)
    : option Sequential :=
  match model with
  | [] => Some []
  | l :: rest =>
      l' ← load_module ckpt i l;
      rest' ← load_modules ckpt (S i) rest;
      Some (l' :: rest')
  end.

(** [model.load_state_dict(ckpt)] (strict): every parameter of the model is
    in the checkpoint with its shape, and the checkpoint has no other key. *)
Definition load_state_dict (model : Sequential) (ckpt : gmap string Tensor)
    : result Sequential :=
  if bool_decide (dom ckpt ⊆ dom (state_dict model))
  then match load_modules ckpt 0 model with
       | Some model' => Ok model'
       | None => Error RuntimeError
       end
  else Error RuntimeError.

(** The checkpoint files of the file system, by path. *)
Abbreviation Files := (gmap string (gmap string Tensor)).

(** [torch.save(obj, path)], where the directory of [path] exists. *)
Definition torch_save (obj : gmap string Tensor) (path : string) (fs : Files) : Files :=
  <[path := obj]> fs.

Definition torch_load (fs : Files) (path : string) : result (gmap string Tensor) :=
  match fs !! path with
  | Some obj => Ok obj
  | None => Error FileNotFoundError
  end.

(** ** The environment of a run

    What the script reads and does not compute: the two splits of the MNIST
    data set after the transforms, the initial values the layer constructors
    draw, the state of the global random generator when [main] starts, the
    checkpoint files and the two clock readings. *)

Record Env := {
  mnist_train : list (Tensor * Z);
  mnist_test : list (Tensor * Z);
  init_values : nat -> list Q;
  seed : nat -> nat;
  files : Files;
  clock : nat -> Q
}.

(** What is left when [main] returns. *)
Record Run := {
  final : State;
  loss_values : list Q;
  files_after : Files
}.

(** [range(1, n + 1)] *)
Definition range1 (n : Z) : list Z :=
  (fun i => (1 + Z.of_nat i)%Z) <$> seq 0 (Z.to_nat n).

(** The state when the epoch loop starts: the model in training mode, no
    gradient yet, the optimizer [optim.SGD(model.parameters(), lr=lr)], and
    the scheduler [StepLR(optimizer, step_size=1, gamma=0.7)], whose
    constructor leaves [last_epoch] at 0 and the rate as it is. *)
Definition initial_state (net : Sequential) (rate : Q) (g : nat -> nat) : State :=
  {| model := net; training := true; grad := [];
     grad_enabled := true; optimizer_lr := rate;
     last_epoch := 0; rng := g; rng_pos := 0; trace := [] |}.

Section Script.

(** The value of [nn.CrossEntropyLoss()] on an [N x C] matrix of scores and
    [N] accepted class indices (mean of the negated log-softmax at the
    target class). *)
Variable cross_entropy : list (list Q) -> list Z -> Q.

(** The loss function selected for a batch, with the targets it is applied
    to: integer class indices, or a matrix of floats. *)
Inductive Criterion :=
| CrossEntropyLoss (target : list Z)
| MSELoss (target : list (list Q)).

(** The gradient of the criterion's value at the model's output on [data],
    one tensor per parameter in the order of [parameters]. *)
Variable gradient : Criterion -> Sequential -> list Tensor -> list Tensor.

(** The parsed flags, a global of the script. *)
Variable FLAGS : Flags.

(** [loss_fn(output, target)] *)
Definition criterion_value (c : Criterion) (output : list Tensor) : result Q :=
  out ← scores output;
  match c with
  | CrossEntropyLoss target =>
      if bool_decide (Forall2 (fun row t => class_ok row t = true) out target)
      then Ok (cross_entropy out target)
      else Error IndexError
  | MSELoss target => mse_loss out target
  end.

(** The [if loss == 'CE': ... else: ...] of the training loop. *)
Definition select_loss (loss : string) (target : list Z) : Criterion :=
  if String.eqb loss "CE" then
    CrossEntropyLoss target
  else
    let y_one_hot := one_hot target in
    MSELoss y_one_hot.

(** [loss_.backward()] *)
Definition backward (c : Criterion) (data : list Tensor) (st : State) : State :=
  set_grad (accumulate (grad st) (gradient c (model st) data)) st.

(** The model after the update of one batch: the parameters moved against
    the gradient of the selected loss. *)
Definition updated (loss : string) (st : State) (items : list (Tensor * Z))
    : Sequential :=
  set_parameters (model st)
    (sgd_updates (optimizer_lr st) (parameters (model st))
       (gradient (select_loss loss (items.*2)) (model st) (items.*1))).

(** The body of the loop of [train] for one batch. *)
Definition train_batch (train_loader : DataLoader) (loss : string) (epoch : Z)
    (acc : State * list Q) (it : nat * list (Tensor * Z))
    : result (State * list Q) :=
  let '(st, tmp_loss) := acc in
  let '(batch_idx, items) := it in
  b ← collate items;
  let data := batch_data b in
  let target := batch_target b in
  let st := zero_grad st in
  output ← call (model st) data;
  let c := select_loss loss target in
  loss_ ← criterion_value c output;
  let st := backward c data st in
  let st := emit (OptimizerStep epoch batch_idx loss_) (optimizer_step st) in
  if (log_interval FLAGS =? 0)%Z then Error ZeroDivisionError
  else if (Z.of_nat batch_idx mod log_interval FLAGS =? 0)%Z then
    Ok (emit (PrintTrain epoch
                (Z.of_nat batch_idx * Z.of_nat (length data))
                (Z.of_nat (length (dataset train_loader)))
                (100 * inject_Z (Z.of_nat batch_idx)
                 / inject_Z (Z.of_nat (len_loader train_loader)))%Q
                loss_) st,
        tmp_loss ++ [loss_])
  else Ok (st, tmp_loss).

Definition train (st : State) (train_loader : DataLoader) (loss : string)
    (epoch : Z) : result (State * list Q) :=
  let st := set_training true (emit (TrainPass epoch) st) in
  let '(batches, st) := sample train_loader st in
  foldM (train_batch train_loader loss epoch) (enumerate batches) (st, []).

(** The body of the loop of [test] for one batch. *)
Definition test_batch (st : State) (acc : Q * Z) (items : list (Tensor * Z))
    : result (Q * Z) :=
  let '(test_loss, correct) := acc in
  b ← collate items;
  output ← call (model st) (batch_data b);
  out ← scores output;
  l ← nll_loss_sum out (batch_target b);
  pred ← mapM argmax out;
  Ok ((test_loss + l)%Q, (correct + count_eq pred (batch_target b))%Z).

Definition test (st : State) (test_loader : DataLoader) : result State :=
  let st := set_training false (emit TestPass st) in
  let prev := grad_enabled st in
  let st := set_grad_enabled false st in
  let '(batches, st) := sample test_loader st in
  '(test_loss, correct) ← foldM (test_batch st) batches (0%Q, 0%Z);
  let st := set_grad_enabled prev st in
  let n := Z.of_nat (length (dataset test_loader)) in
  if (n =? 0)%Z then Error ZeroDivisionError
  else
    let test_loss := (test_loss / inject_Z n)%Q in
    Ok (emit (PrintTest test_loss correct n
                (100 * inject_Z correct / inject_Z n)%Q) st).

(** The body of the epoch loop of [main]. *)
Definition epoch_body (train_loader test_loader : DataLoader) (loss : string)
    (acc : State * list Q) (epoch : Z) : result (State * list Q) :=
  let '(st, loss_values) := acc in
  '(st, l) ← train st train_loader loss epoch;
  let loss_values := loss_values ++ l in
  st ← test st test_loader;
  let st := scheduler_step st in
  Ok (st, loss_values).

(** [main].  The plot of the loss curve between the second clock reading
    and the last [print] is not part of the embedding: it writes an image
    file at [loss_fig], over what that path held.  [files_after] is the
    checkpoint files as [torch.save] leaves them, before the plot. *)
Definition main (env : Env) : result Run :=
  train_loader ← new_DataLoader (mnist_train env) (train_batch_size FLAGS) true;
  test_loader ← new_DataLoader (mnist_test env) (test_batch_size FLAGS) true;
  let net := Model (init_values env) in
  (* optim.SGD checks its learning rate *)
  _ ← (if Qle_bool 0 (lr FLAGS) then Ok () else Error ValueError);
  let loss := loss_fn FLAGS in
  net ← match start_checkpoint FLAGS with
        | Some path =>
            if String.eqb path "" then Ok net
            else ckpt ← torch_load (files env) path; load_state_dict net ckpt
        | None => Ok net
        end;
  let time0 := clock env 0%nat in
  let st := initial_state net (lr FLAGS) (seed env) in
  '(st, loss_values) ←
     foldM (epoch_body train_loader test_loader loss) (range1 (epochs FLAGS)) (st, []);
  let fs := if save_model FLAGS
            then torch_save (state_dict (model st)) (save_checkpoint FLAGS) (files env)
            else files env in
  let time1 := clock env 1%nat in
  let st := emit (PrintTime (time1 - time0)%Q) st in
  Ok {| final := st; loss_values := loss_values; files_after := fs |}.

End Script.

(** ** Parameter names

    The part of a parameter name before the first dot: the position of the
    layer. *)
Fixpoint before_dot (s : string) : string :=
  match s with
  | EmptyString => EmptyString
  | String c s' => if Ascii.eqb c "."%char then EmptyString else String c (before_dot s')
  end.

(** The checkpoint [sd] holds the tensors of layer [l] under the names of
    position [i]. *)
Definition held (sd : gmap string Tensor) (i : nat) (l : Module) : Prop :=
  match l with
  | Conv2d w b | Linear w b =>
      sd !! weight_name i = Some w /\ sd !! bias_name i = Some b
  | ReLU | MaxPool2d _ | Flatten => True
  end.

(** ** Topology and well-formed data *)

(** Two layers of the same kind: the same constructor, the same
    hyper-parameters and parameters of the same shapes. *)
Definition same_kind (l l' : Module) : Prop :=
  match l, l' with
  | Conv2d w b, Conv2d w' b' | Linear w b, Linear w' b' =>
      shape w = shape w' /\ shape b = shape b'
  | ReLU, ReLU | Flatten, Flatten => True
  | MaxPool2d k, MaxPool2d k' => k = k'
  | _, _ => False
  end.

(** Two models of identical topology. *)
Definition same_topology (m m' : Sequential) : Prop := Forall2 same_kind m m'.

(** A tensor has as many elements as its shape says. *)
Definition valid (t : Tensor) : Prop := length (data t) = numel (shape t).

(** An example with an input of shape [s] and a digit as label. *)
Definition fits (s : list nat) (ex : Tensor * Z) : Prop :=
  shape ex.1 = s /\ valid ex.1 /\ (0 <= ex.2 <= 9)%Z.

(** An example the network of the script accepts: a 1 x 28 x 28 image and
    a digit as label. *)
Definition mnist_example (ex : Tensor * Z) : bool :=
  bool_decide (shape ex.1 = [1; 28; 28]%nat)
  && (length (data ex.1) =? 784)%nat
  && (0 <=? ex.2)%Z && (ex.2 <=? 9)%Z.

(** A configuration and an environment on which the run completes: positive
    batch sizes, a learning rate that is not negative, a logging interval
    that is not 0, no checkpoint to restore, data sets that are not empty,
    and MNIST examples. *)
Definition runnable (FLAGS : Flags) (env : Env) : bool :=
  (0 <? train_batch_size FLAGS)%Z && (0 <? test_batch_size FLAGS)%Z
  && Qle_bool 0 (lr FLAGS)
  && negb (log_interval FLAGS =? 0)%Z
  && bool_decide (start_checkpoint FLAGS = None)
  && negb (bool_decide (mnist_train env = []))
  && negb (bool_decide (mnist_test env = []))
  && forallb mnist_example (mnist_train env)
  && forallb mnist_example (mnist_test env).

(** ** The evaluation metrics, example by example *)

#[global] Instance error_eq_dec : EqDecision error.
Proof. solve_decision. Defined.

#[global] Instance result_eq_dec {A} `{EqDecision A} : EqDecision (result A).
Proof. solve_decision. Defined.

(** The row of class scores the model gives to one example. *)
Definition example_scores (m : Sequential) (x : Tensor) : result (list Q) :=
  y ← forward m x;
  match shape y with
  | [_] => Ok (data y)
  | _ => Error RuntimeError
  end.

(** The predicted class of an example: the index of the maximum score. *)
Definition predicted (m : Sequential) (x : Tensor) : result Z :=
  row ← example_scores m x; argmax row.

(** The negative-log-likelihood loss of one example. *)
Definition example_nll (m : Sequential) (ex : Tensor * Z) : result Q :=
  row ← example_scores m ex.1; nll_row row ex.2.

Definition value_or_zero (r : result Q) : Q :=
  match r with Ok v => v | Error _ => 0%Q end.

(** The number of examples whose predicted class is their label. *)
Definition correct_count (m : Sequential) (ds : list (Tensor * Z)) : Z :=
  Z.of_nat (length (filter (fun ex => predicted m ex.1 = Ok ex.2) ds)).

(** The sum of the per-example losses. *)
Definition summed_nll (m : Sequential) (ds : list (Tensor * Z)) : Q :=
  sumQ ((fun ex => value_or_zero (example_nll m ex)) <$> ds).

(** ** The events of a training pass *)

(** Whether the batch with index [i] is logged: [batch_idx % log_interval == 0]. *)
Definition logged (interval : Z) (i : nat) : bool :=
  (Z.of_nat i mod interval =? 0)%Z.

(** What one batch adds to the trace: its optimizer step and, when the batch
    is logged, the progress record.  [total] is the size of the training
    set, [nb] the number of batches, [n] the size of the batch and [l] its
    loss. *)
Definition batch_events (interval epoch : Z) (total nb : nat)
    (s : nat * nat * Q) : list event :=
  let '(i, n, l) := s in
  OptimizerStep epoch i l ::
  if logged interval i
  then [PrintTrain epoch (Z.of_nat i * Z.of_nat n) (Z.of_nat total)
          (100 * inject_Z (Z.of_nat i) / inject_Z (Z.of_nat nb))%Q l]
  else [].

(** The elements of [l] at the logged positions, counting from [k]. *)
Definition logged_from {A} (interval : Z) (k : nat) (l : list A) : list A :=
  (filter (fun p => logged interval p.1 = true) (zip (seq k (length l)) l)).*2.

(** The loss values of the progress records of a trace. *)
Definition printed_losses (tr : list event) : list Q :=
  e ← tr; match e with PrintTrain _ _ _ _ l => [l] | _ => [] end.

(** ** The passes of a run *)

(** The events that mark a training pass, an evaluation pass and a step of
    the scheduler. *)
Definition is_pass (e : event) : bool :=
  match e with
  | TrainPass _ | TestPass | SchedulerStep => true
  | OptimizerStep _ _ _ | PrintTrain _ _ _ _ _ | PrintTest _ _ _ _
  | PrintTime _ => false
  end.

Definition passes (tr : list event) : list event :=
  filter (fun e => is_pass e = true) tr.

(** What one epoch of [main] contributes to [passes]. *)
Definition epoch_passes (epoch : Z) : list event :=
  [TrainPass epoch; TestPass; SchedulerStep].





(** The score the model gives to the label of an example (0 when the model
    rejects the example). *)
Definition label_score (m : Sequential) (ex : Tensor * Z) : Q :=
  match example_scores m ex.1 with
  | Ok row => get row (Z.to_nat ex.2)
  | Error _ => 0%Q
  end.

(** ** The losses of the optimizer steps of a trace *)

Definition step_losses (tr : list event) : list Q :=
  e ← tr; match e with OptimizerStep _ _ l => [l] | _ => [] end.

(** ** The progress record of a logged batch *)

(** What a progress record of epoch [epoch] may show for a training set of
    [N] examples in [nb] batches of size [B]. *)
Definition progress_ok (epoch : Z) (N nb B : nat) (e : event) : Prop :=
  match e with
  | PrintTrain epoch' seen total percent _ =>
      epoch' = epoch /\ total = Z.of_nat N /\
      exists i : nat, (i < nb)%nat /\
        seen = (Z.of_nat i * Z.of_nat (B `min` (N - i * B)))%Z /\
        percent = (100 * inject_Z (Z.of_nat i) / inject_Z (Z.of_nat nb))%Q /\
        (0 <= seen < Z.of_nat N)%Z /\ (0 <= percent)%Q /\ (percent < 100)%Q
  | _ => True
  end.

(** ** The loss curve *)

(** The abscissae of the loss curve:
    [epoch_values = np.arange(1, len(loss_values) + 1, dtype=np.float)],
    [epoch_values *= FLAGS.train_batch_size * FLAGS.log_interval] and
    [epoch_values /= len(train_loader.dataset)].  (For an empty training set
    NumPy divides by zero and gives inf, which no rational stands for: the
    definition is meant for a training set that is not empty.) *)
Definition epoch_values (FLAGS : Flags) (train_loader : DataLoader)
    (loss_values : list Q) : list Q :=
  let epoch_values :=
    (fun k => inject_Z (Z.of_nat k)) <$> seq 1 (length loss_values) in
  let epoch_values :=
    (fun x => x * inject_Z (train_batch_size FLAGS * log_interval FLAGS))%Q
      <$> epoch_values in
  (fun x => x / inject_Z (Z.of_nat (length (dataset train_loader))))%Q
    <$> epoch_values.

(** The points of [plt.plot(epoch_values, loss_values)]. *)
Definition loss_curve (FLAGS : Flags) (train_loader : DataLoader)
    (loss_values : list Q) : list (Q * Q) :=
  zip (epoch_values FLAGS train_loader loss_values) loss_values.

(** ** The data set ([datasets.MNIST] with its transform)

    A grey-scale image as the data set stores it: [height] rows of [width]
    pixels, each an integer from 0 to 255. *)
Record Image := { height : nat; width : nat; pixels : list Z }.

(** [transforms.ToTensor()]: a 1 x H x W tensor, the pixels divided by 255. *)
Definition ToTensor (img : Image) : Tensor :=
  {| shape := [1; height img; width img]%nat;
     data := (fun p => inject_Z p / 255)%Q <$> pixels img |}.

(** [transforms.Normalize((mean,), (std,))] *)
Definition Normalize (mean std : Q) (t : Tensor) : Tensor :=
  {| shape := shape t; data := (fun x => (x - mean) / std)%Q <$> data t |}.

(** [transforms.Compose([transforms.ToTensor(),
                         transforms.Normalize((0.1307,), (0.3081,))])] *)
Definition transform (img : Image) : Tensor :=
  Normalize 0.1307 0.3081 (ToTensor img).

(** The examples of a split of [datasets.MNIST(..., transform=transform)]. *)
Definition MNIST (raw : list (Image * Z)) : list (Tensor * Z) :=
  (fun ex => (transform ex.1, ex.2)) <$> raw.

(** An image of the MNIST format with a digit as label. *)
Definition mnist_raw (ex : Image * Z) : Prop :=
  height ex.1 = 28%nat /\ width ex.1 = 28%nat /\ length (pixels ex.1) = 784%nat /\
  (0 <= ex.2 <= 9)%Z.

(** A label that fits the tensor of 64-bit integers into which the loader
    stacks the labels of a batch. *)
Definition int64 (z : Z) : Prop := (- 2 ^ 63 <= z < 2 ^ 63)%Z.

(** ** Concrete data for the examples *)

(** A black 28 x 28 image. *)
Definition zero_image : Tensor := zeros [1; 28; 28]%nat.

(** Values for the parameters of [Model]: everything is 0 except the bias
    of the last layer, which favours class 0. *)
Definition biased_init (i : nat) : list Q :=
  match i with
  | 0%nat => repeat 0%Q (32 * 1 * 3 * 3)
  | 1%nat => repeat 0%Q 32
  | 2%nat => repeat 0%Q (64 * 32 * 3 * 3)
  | 3%nat => repeat 0%Q 64
  | 4%nat => repeat 0%Q (128 * 9216)
  | 5%nat => repeat 0%Q 128
  | 6%nat => repeat 0%Q (10 * 128)
  | 7%nat => 1%Q :: repeat 0%Q 9
  | _ => []
  end.

(** The state of a run whose model holds these values, for instance
    restored from a checkpoint. *)
Definition biased_state : State :=
  initial_state (Model biased_init) 0.10 (fun n => n).

(** A test set of one black image labelled 0, with the default test batch
    size. *)
Definition one_image_loader : DataLoader :=
  {| dataset := [(zero_image, 0%Z)]; batch_size := 10000; shuffle := true |}.

(** Instances of the two parameters of the development, to run the
    script on concrete data: the maximum score in place of the log-sum-exp
    of the scores in the cross-entropy, and a gradient whose partial
    derivatives are all 1. *)
Definition hard_cross_entropy (out : list (list Q)) (target : list Z) : Q :=
  (sumQ ((fun p => maxQ p.1 - get p.1 (Z.to_nat p.2))%Q <$> zip out target)
   / inject_Z (Z.of_nat (length out)))%Q.

Definition unit_gradient (c : Criterion) (m : Sequential) (batch : list Tensor)
    : list Tensor :=
  (fun p => {| shape := shape p; data := (fun _ => 1%Q) <$> data p |})
    <$> parameters m.

(** A small environment: three training images, one test image, the
    parameters of [biased_init], no checkpoint file. *)
Definition small_env : Env :=
  {| mnist_train := [(zero_image, 3%Z); (zero_image, 7%Z); (zero_image, 1%Z)];
     mnist_test := [(zero_image, 0%Z)];
     init_values := biased_init;
     seed := fun n => n;
     files := ∅;
     clock := fun n => inject_Z (Z.of_nat n) |}.

(** The default flags with two epochs and batches of two images. *)
Definition two_epochs : Flags :=
  {| data_dir := "downloads"; train_batch_size := 2; test_batch_size := 10000;
     loss_fn := "CE"; epochs := 2; lr := 0.10; log_interval := 100;
     start_checkpoint := None; save_model := false;
     save_checkpoint := "downloads/mnist_cnn.pth";
     loss_fig := "downloads/loss_curve.png" |}.

(** The same with a loss name that is neither "CE" nor "MSE". *)
Definition unknown_loss : Flags :=
  {| data_dir := "downloads"; train_batch_size := 2; test_batch_size := 10000;
     loss_fn := "NLL"; epochs := 2; lr := 0.10; log_interval := 100;
     start_checkpoint := None; save_model := false;
     save_checkpoint := "downloads/mnist_cnn.pth";
     loss_fig := "downloads/loss_curve.png" |}.

(** A model small enough to run: two input features, ten classes. *)
Definition tiny_model : Sequential :=
  [ Flatten; nn_Linear 2 10 (repeat 0%Q 20) (0%Q :: 1%Q :: repeat 0%Q 8) ].

Definition tiny_example (a b : Q) (label : Z) : Tensor * Z :=
  ({| shape := [1; 1; 2]%nat; data := [a; b] |}, label).

Definition tiny_loader : DataLoader :=
  {| dataset := [tiny_example 1 2 1; tiny_example 3 4 0; tiny_example 3 5 3];
     batch_size := 2; shuffle := true |}.

Definition tiny_state : State := initial_state tiny_model 0.10 (fun n => n).

(** Other values for the parameters of [Model], as a second construction
    of the network would draw them. *)
Definition fresh_init (i : nat) : list Q :=
  match i with
  | 0%nat => repeat 0.01%Q (32 * 1 * 3 * 3)
  | 1%nat => repeat 0.01%Q 32
  | 2%nat => repeat 0.01%Q (64 * 32 * 3 * 3)
  | 3%nat => repeat 0.01%Q 64
  | 4%nat => repeat 0.01%Q (128 * 9216)
  | 5%nat => repeat 0.01%Q 128
  | 6%nat => repeat 0.01%Q (10 * 128)
  | 7%nat => repeat 0.01%Q 10
  | _ => []
  end.

(** The tiny model with another state of the random generator. *)
Definition tiny_state_reseeded : State :=
  initial_state tiny_model 0.10 (fun _ => 1%nat).



(** The flags of [two_epochs] with [--log_interval 0]. *)
Definition zero_interval : Flags :=
  {| data_dir := "downloads"; train_batch_size := 2; test_batch_size := 10000;
     loss_fn := "CE"; epochs := 2; lr := 0.10; log_interval := 0;
     start_checkpoint := None; save_model := false;
     save_checkpoint := "downloads/mnist_cnn.pth";
     loss_fig := "downloads/loss_curve.png" |}.

(** A black image as the data set stores it, and an environment that reads
    its examples from such images. *)
Definition black_image : Image :=
  {| height := 28; width := 28; pixels := repeat 0%Z 784 |}.

Definition raw_env : Env :=
  {| mnist_train := MNIST [(black_image, 3%Z); (black_image, 7%Z)];
     mnist_test := MNIST [(black_image, 0%Z)];
     init_values := biased_init;
     seed := fun n => n;
     files := ∅;
     clock := fun n => inject_Z (Z.of_nat n) |}.

(** The training loader of [main] on [small_env] with [two_epochs]. *)
Definition small_train_loader : DataLoader :=
  {| dataset := mnist_train small_env; batch_size := 2; shuffle := true |}.

(** Gradients left over from an earlier step. *)
Definition stale_gradients : list Tensor :=
  [ {| shape := [10; 2]%nat; data := repeat 5%Q 20 |};
    {| shape := [10]%nat; data := repeat 5%Q 10 |} ].

(** The flags of [two_epochs] with a start checkpoint that does not exist,
    and with a training batch size of 0. *)
Definition missing_checkpoint : Flags :=
  {| data_dir := "downloads"; train_batch_size := 2; test_batch_size := 10000;
     loss_fn := "CE"; epochs := 2; lr := 0.10; log_interval := 100;
     start_checkpoint := Some "mnist_cnn.pth"; save_model := false;
     save_checkpoint := "downloads/mnist_cnn.pth";
     loss_fig := "downloads/loss_curve.png" |}.

Definition zero_batch_size : Flags :=
  {| data_dir := "downloads"; train_batch_size := 0; test_batch_size := 10000;
     loss_fn := "CE"; epochs := 2; lr := 0.10; log_interval := 100;
     start_checkpoint := None; save_model := false;
     save_checkpoint := "downloads/mnist_cnn.pth";
     loss_fig := "downloads/loss_curve.png" |}.

(** A loader over an empty data set. *)
Definition empty_loader : DataLoader :=
  {| dataset := []; batch_size := 10000; shuffle := false |}.

(** The small environment without its training images. *)
Definition empty_env : Env :=
  {| mnist_train := [];
     mnist_test := mnist_test small_env;
     init_values := init_values small_env;
     seed := seed small_env;
     files := files small_env;
     clock := clock small_env |}.

(** An environment with a training set of the size of MNIST's: 60000 black
    images. *)
Definition full_size_env : Env :=
  {| mnist_train := repeat (zero_image, 0%Z) 60000;
     mnist_test := [(zero_image, 0%Z)];
     init_values := biased_init;
     seed := fun n => n;
     files := ∅;
     clock := fun n => inject_Z (Z.of_nat n) |}.

(** The training loader of [main] on it with the default flags. *)
Definition full_size_loader : DataLoader :=
  {| dataset := mnist_train full_size_env; batch_size := 128; shuffle := true |}.

(** * Properties *)

(** ** The exception monad *)

Lemma bind_Ok {A B} (m : result A) (f : A -> result B) (b : B) :
  m ≫= f = Ok b -> exists a, m = Ok a /\ f a = Ok b.
Proof. destruct m as [a|e]; [eauto | discriminate]. Qed.

Lemma fmap_Ok {A B} (m : result A) (f : A -> B) (b : B) :
  f <$> m = Ok b -> exists a, m = Ok a /\ b = f a.
Proof. destruct m as [a|e]; [| discriminate]. intros [= <-]. eauto. Qed.

Ltac inv_result :=
  repeat match goal with
    | H : _ ≫= _ = Ok _ |- _ =>
        let a := fresh "a" in
        let Ha := fresh "Ha" in
        apply bind_Ok in H as (a & Ha & H)
    | H : _ <$> _ = Ok _ |- _ =>
        let a := fresh "a" in
        let Ha := fresh "Ha" in
        apply fmap_Ok in H as (a & Ha & H)
    | H : Ok _ = Ok _ |- _ => injection H as H
    | H : Error _ = Ok _ |- _ => discriminate H
    end.

Lemma mapM_Ok_Forall2 {A B} (f : A -> result B) (l : list A) (bs : list B) :
  mapM f l = Ok bs <-> Forall2 (fun a b => f a = Ok b) l bs.
Proof.
  revert bs. induction l as [|a l IH]; intros bs; simpl.
  - split; [intros [= <-]; constructor | by inversion 1].
  - split.
    + intros H. inv_result. subst bs. constructor; [done|]. by apply IH.
    + inversion 1 as [|? b ? bs' Hb Hbs]; subst. rewrite Hb. simpl.
      apply IH in Hbs. rewrite Hbs. done.
Qed.

Lemma mapM_Ok_length {A B} (f : A -> result B) (l : list A) (bs : list B) :
  mapM f l = Ok bs -> length bs = length l.
Proof. intros H%mapM_Ok_Forall2. symmetry. by eapply Forall2_length. Qed.

Lemma mapM_total {A B} (f : A -> result B) (l : list A) :
  Forall (fun a => is_Ok (f a)) l -> is_Ok (mapM f l).
Proof.
  induction 1 as [|a l [b Hb] _ [bs Hbs]]; simpl.
  - by eexists.
  - rewrite Hb. simpl. rewrite Hbs. by eexists.
Qed.

Lemma mapM_app {A B} (f : A -> result B) (l1 l2 : list A) :
  mapM f (l1 ++ l2) = (b1 ← mapM f l1; b2 ← mapM f l2; Ok (b1 ++ b2)).
Proof.
  induction l1 as [|a l1 IH]; simpl.
  - by destruct (mapM f l2).
  - destruct (f a) as [b|e]; simpl; [|done]. rewrite IH.
    destruct (mapM f l1); simpl; [|done]. by destruct (mapM f l2).
Qed.


(** A loop whose body keeps an invariant keeps it. *)
Lemma foldM_invariant {A S} (P : S -> Prop) (f : S -> A -> result S)
    (l : list A) (s s' : S) :
  (forall s a s', In a l -> P s -> f s a = Ok s' -> P s') ->
  P s -> foldM f l s = Ok s' -> P s'.
Proof.
  revert s. induction l as [|a l IH]; intros s Hf Hs H; simpl in H.
  - by injection H as <-.
  - inv_result. eapply IH; [| |exact H].
    + intros ???? ; apply Hf. by right.
    + eapply Hf; [by left | exact Hs | done].
Qed.

(** ** Frame properties of the state updates *)

Lemma sample_state (loader : DataLoader) (st : State) :
  (sample loader st).2 =
    set_rng_pos (if shuffle loader then rng_pos st + length (dataset loader)
                 else rng_pos st) st.
Proof. unfold sample. destruct (shuffle loader), st; reflexivity. Qed.

(** ** Sums of rationals *)

Lemma sumQ_app (l1 l2 : list Q) : (sumQ (l1 ++ l2) == sumQ l1 + sumQ l2)%Q.
Proof.
  induction l1 as [|x l1 IH]; simpl.
  - by rewrite Qplus_0_l.
  - rewrite IH. by rewrite Qplus_assoc.
Qed.

Lemma sumQ_Permutation (l1 l2 : list Q) : l1 ≡ₚ l2 -> (sumQ l1 == sumQ l2)%Q.
Proof.
  induction 1 as [|x l1 l2 _ IH|x y l|l1 l2 l3 _ IH1 _ IH2]; simpl.
  - reflexivity.
  - by rewrite IH.
  - rewrite !Qplus_assoc. by rewrite (Qplus_comm y x).
  - by rewrite IH1.
Qed.

Lemma sumQ_nonneg (l : list Q) : Forall (fun x => (0 <= x)%Q) l -> (0 <= sumQ l)%Q.
Proof.
  induction 1 as [|x l Hx _ IH]; simpl; [apply Qle_refl|].
  rewrite <- (Qplus_0_l 0). by apply Qplus_le_compat.
Qed.

(** ** The sampler and the batches *)

(** The loaders the constructor accepts. *)
Lemma new_DataLoader_Ok (ds : list (Tensor * Z)) (bs : Z) (sh : bool)
    (loader : DataLoader) :
  new_DataLoader ds bs sh = Ok loader ->
  (0 < bs)%Z /\ (sh = true -> ds <> []) /\
  loader = {| dataset := ds; batch_size := Z.to_nat bs; shuffle := sh |}.
Proof.
  unfold new_DataLoader. destruct (Z.leb_spec bs 0); [done|].
  destruct sh; cbn [andb]; [case_bool_decide; [done|]|]; intros [= <-]; done.
Qed.

Lemma new_DataLoader_Error (ds : list (Tensor * Z)) (bs : Z) (sh : bool)
    (e : error) :
  new_DataLoader ds bs sh = Error e -> e = ValueError.
Proof. unfold new_DataLoader. repeat case_match; congruence. Qed.

Lemma new_DataLoader_nonempty (ds : list (Tensor * Z)) (bs : Z) (sh : bool) :
  (0 < bs)%Z -> ds <> [] ->
  new_DataLoader ds bs sh
  = Ok {| dataset := ds; batch_size := Z.to_nat bs; shuffle := sh |}.
Proof.
  intros Hbs Hds. unfold new_DataLoader.
  rewrite (proj2 (Z.leb_gt _ _)) by done.
  rewrite bool_decide_eq_false_2 by done. by rewrite andb_false_r.
Qed.

Lemma permute_Permutation {A} (g : nat -> nat) (l : list A) (pos : nat) :
  permute (length l) g pos l ≡ₚ l.
Proof.
  remember (length l) as n eqn:Hn. revert l pos Hn.
  induction n as [|n IH]; intros l pos Hn; simpl.
  - destruct l; [done | discriminate].
  - assert (Hlt : (g pos mod length l < length l)%nat)
      by (apply Nat.mod_upper_bound; lia).
    destruct (lookup_lt_is_Some_2 l _ Hlt) as [x Hx]. rewrite Hx.
    etrans; [|symmetry; apply (delete_Permutation l _ x Hx)]. constructor.
    apply IH. rewrite length_delete; [lia | eauto].
Qed.

Lemma chunks_aux_nil {A} (fuel n : nat) : chunks_aux fuel n (@nil A) = [].
Proof. by destruct fuel. Qed.

Lemma concat_chunks_aux {A} (fuel n : nat) (l : list A) :
  (0 < n)%nat -> (length l <= fuel)%nat -> concat (chunks_aux fuel n l) = l.
Proof.
  intros Hn. revert l. induction fuel as [|fuel IH]; intros l Hl; simpl.
  - destruct l; [done | simpl in Hl; lia].
  - destruct l as [|a l]; [done|].
    cbn [concat]. rewrite IH.
    + apply take_drop.
    + rewrite length_drop. simpl in *. lia.
Qed.

Lemma concat_chunks {A} (n : nat) (l : list A) :
  (0 < n)%nat -> concat (chunks n l) = l.
Proof. intros. by apply concat_chunks_aux. Qed.

Lemma length_chunks_aux {A} (fuel n : nat) (l : list A) :
  (0 < n)%nat -> (length l <= fuel)%nat ->
  length (chunks_aux fuel n l) = ((length l + n - 1) / n)%nat.
Proof.
  intros Hn. revert l. induction fuel as [|fuel IH]; intros l Hl; simpl.
  - destruct l; [| simpl in Hl; lia]. simpl. symmetry.
    apply Nat.div_small. lia.
  - destruct l as [|a l].
    + simpl. symmetry. apply Nat.div_small. lia.
    + cbn [length]. rewrite IH by (rewrite length_drop; simpl in *; lia).
      rewrite length_drop. cbn [length].
      destruct (decide (S (length l) <= n)%nat) as [Hle|Hgt].
      * replace (S (length l) - n)%nat with 0%nat by lia.
        rewrite (Nat.div_small (0 + n - 1)) by lia.
        apply (Nat.div_unique _ _ 1 (length l)); lia.
      * replace (S (length l) + n - 1)%nat
          with ((S (length l) - n + n - 1) + 1 * n)%nat by lia.
        rewrite Nat.div_add by lia. lia.
Qed.

(** (N + B - 1) / B is the ceiling of N / B: the least number of groups of
    B that hold N elements. *)
Lemma ceiling_div (n b : nat) :
  (0 < b)%nat ->
  (n <= (n + b - 1) / b * b)%nat /\ ((n + b - 1) / b * b < n + b)%nat.
Proof.
  intros Hb. pose proof (Nat.div_mod (n + b - 1) b) as Hdm.
  pose proof (Nat.mod_upper_bound (n + b - 1) b) as Hlt. lia.
Qed.

(** The number of batches of a pass is the ceiling of N / B. *)
Lemma length_chunks {A} (n : nat) (l : list A) :
  (0 < n)%nat -> length (chunks n l) = ((length l + n - 1) / n)%nat.
Proof. intros. by apply length_chunks_aux. Qed.

Lemma chunks_aux_nonempty {A} (fuel n : nat) (l : list A) :
  (0 < n)%nat -> Forall (fun c => c <> []) (chunks_aux fuel n l).
Proof.
  intros Hn. revert l. induction fuel as [|fuel IH]; intros l; simpl; [done|].
  destruct l as [|a l]; [done|]. constructor; [|apply IH].
  destruct n; [lia | done].
Qed.

(** With a batch size of 0 every group is empty. *)
Lemma chunks_aux_zero {A} (fuel : nat) (l : list A) :
  Forall (fun c => c = []) (chunks_aux fuel 0 l).
Proof.
  revert l. induction fuel as [|fuel IH]; intros l; simpl; [done|].
  destruct l as [|a l]; [done|]. constructor; [done | apply IH].
Qed.

Lemma sample_batches (loader : DataLoader) (st : State) :
  exists l, l ≡ₚ dataset loader /\
    (sample loader st).1 = chunks (batch_size loader) l.
Proof.
  unfold sample. destruct (shuffle loader); simpl.
  - eexists. split; [apply permute_Permutation | done].
  - by eexists.
Qed.

(** ** The evaluation pass *)

Lemma collate_Ok (items : list (Tensor * Z)) (b : Batch) :
  collate items = Ok b ->
  items <> [] /\ batch_data b = items.*1 /\ batch_target b = items.*2.
Proof.
  unfold collate. destruct items as [|[x t] items]; [done|].
  case_bool_decide; [|done]. intros [= <-]. done.
Qed.

Lemma batch_metrics (m : Sequential) (items : list (Tensor * Z))
    (output : list Tensor) (out : list (list Q)) (ls : list Q) (pred : list Z) :
  call m (items.*1) = Ok output ->
  scores output = Ok out ->
  mapM (fun '(row, t) => nll_row row t) (zip out (items.*2)) = Ok ls ->
  mapM argmax out = Ok pred ->
  ls = (fun ex => value_or_zero (example_nll m ex)) <$> items /\
  count_eq pred (items.*2) = correct_count m items.
Proof.
  unfold call, scores, count_eq, correct_count.
  revert output out ls pred.
  induction items as [|[x t] items IH]; intros output out ls pred; simpl.
  - intros [= <-]. simpl. intros [= <-]. simpl. intros [= <-] [= <-]. done.
  - intros H1 H2 H3 H4. inv_result. subst output. simpl in H2. inv_result.
    subst out. simpl in H3, H4. inv_result. subst ls pred.
    destruct (IH _ _ _ _ Ha0 Ha2 Ha4 Ha6) as [-> Hc]. clear IH.
    apply Nat2Z.inj in Hc.
    assert (Hrow : example_scores m x = Ok a1).
    { unfold example_scores. rewrite Ha. simpl. done. }
    assert (Hn : example_nll m (x, t) = Ok a3).
    { unfold example_nll. simpl. rewrite Hrow. done. }
    assert (Hp : predicted m x = Ok a5).
    { unfold predicted. rewrite Hrow. done. }
    split.
    + rewrite Hn. done.
    + f_equal. cbn [zip zip_with]. destruct (decide (a5 = t)) as [->|Hne].
      * rewrite (filter_cons_True _ (t, t)) by done.
        rewrite (filter_cons_True _ (x, t)) by (cbn [fst snd]; by rewrite Hp).
        cbn [length]. f_equal. exact Hc.
      * rewrite (filter_cons_False _ (a5, t)) by done.
        rewrite (filter_cons_False _ (x, t))
          by (cbn [fst snd]; rewrite Hp; congruence).
        exact Hc.
Qed.

Lemma correct_count_app (m : Sequential) (l1 l2 : list (Tensor * Z)) :
  correct_count m (l1 ++ l2) = (correct_count m l1 + correct_count m l2)%Z.
Proof. unfold correct_count. rewrite filter_app, length_app. lia. Qed.

Lemma correct_count_Permutation (m : Sequential) (l1 l2 : list (Tensor * Z)) :
  l1 ≡ₚ l2 -> correct_count m l1 = correct_count m l2.
Proof. intros H. unfold correct_count. by rewrite H. Qed.

Lemma correct_count_bounds (m : Sequential) (l : list (Tensor * Z)) :
  (0 <= correct_count m l <= Z.of_nat (length l))%Z.
Proof.
  unfold correct_count. split; [lia|].
  apply inj_le, length_filter.
Qed.

Lemma summed_nll_app (m : Sequential) (l1 l2 : list (Tensor * Z)) :
  (summed_nll m (l1 ++ l2) == summed_nll m l1 + summed_nll m l2)%Q.
Proof. unfold summed_nll. rewrite fmap_app. apply sumQ_app. Qed.

Lemma summed_nll_Permutation (m : Sequential) (l1 l2 : list (Tensor * Z)) :
  l1 ≡ₚ l2 -> (summed_nll m l1 == summed_nll m l2)%Q.
Proof. intros H. unfold summed_nll. apply sumQ_Permutation. by rewrite H. Qed.

Lemma test_batch_Ok (st : State) (a a' : Q) (c c' : Z) (items : list (Tensor * Z)) :
  test_batch st (a, c) items = Ok (a', c') ->
  items <> [] /\
  a' = (a + summed_nll (model st) items)%Q /\
  c' = (c + correct_count (model st) items)%Z.
Proof.
  unfold test_batch. intros H. inv_result.
  destruct (collate_Ok _ _ Ha) as (Hne & Hd & Ht). rewrite Hd in Ha0.
  rewrite Ht in Ha2, H0. unfold nll_loss_sum in Ha2. inv_result.
  destruct (batch_metrics _ _ _ _ _ _ Ha0 Ha1 Ha4 Ha3) as [-> Hc].
  rewrite Hc in H0. subst. done.
Qed.

Lemma test_loop (st : State) (batches : list (list (Tensor * Z)))
    (a a' : Q) (c c' : Z) :
  foldM (test_batch st) batches (a, c) = Ok (a', c') ->
  Forall (fun items => items <> []) batches /\
  (a' == a + summed_nll (model st) (concat batches))%Q /\
  c' = (c + correct_count (model st) (concat batches))%Z.
Proof.
  revert a c. induction batches as [|items batches IH]; intros a c; cbn [foldM concat].
  - intros [= <- <-]. split; [done|]. split; [|unfold correct_count; simpl; lia].
    unfold summed_nll. simpl. by rewrite Qplus_0_r.
  - intros H. inv_result. destruct a0 as [tl cc].
    apply test_batch_Ok in Ha as (Hne & -> & ->).
    apply IH in H as (Hall & Ha' & ->).
    split; [by constructor|]. split.
    + rewrite Ha', summed_nll_app. by rewrite Qplus_assoc.
    + rewrite correct_count_app. lia.
Qed.

(** A pass that completes has a positive batch size, or no batch at all. *)
Lemma nonempty_chunks {A} (n : nat) (l : list A) :
  Forall (fun items => items <> []) (chunks n l) -> l <> [] -> (0 < n)%nat.
Proof.
  intros Hall Hl. destruct n; [|lia]. exfalso.
  destruct l as [|a l]; [done|]. unfold chunks in Hall. simpl in Hall.
  by inversion Hall.
Qed.

(** What a completed evaluation pass did: the batches it visited are a
    rearrangement of the test set, and its two accumulators hold the summed
    loss and the number of correct predictions over the whole set. *)
Lemma test_Ok (st st' : State) (test_loader : DataLoader) :
  test st test_loader = Ok st' ->
  let n := Z.of_nat (length (dataset test_loader)) in
  exists test_loss correct,
    (0 < n)%Z /\ (0 < batch_size test_loader)%nat /\
    (test_loss == summed_nll (model st) (dataset test_loader))%Q /\
    correct = correct_count (model st) (dataset test_loader) /\
    st' = emit (PrintTest (test_loss / inject_Z n)%Q correct n
                  (100 * inject_Z correct / inject_Z n)%Q)
            (set_grad_enabled (grad_enabled st)
               (sample test_loader
                  (set_grad_enabled false
                     (set_training false (emit TestPass st)))).2).
Proof.
  intros H n. unfold test in H.
  set (st0 := set_grad_enabled false (set_training false (emit TestPass st))) in *.
  destruct (sample_batches test_loader st0) as (l & Hperm & Hb).
  pose proof (sample_state test_loader st0) as Hs.
  destruct (sample test_loader st0) as [batches st1]. simpl in Hb, Hs. subst batches.
  inv_result. destruct a as [test_loss correct].
  fold n in H. destruct (n =? 0)%Z eqn:Hn; inv_result.
  apply Z.eqb_neq in Hn.
  apply test_loop in Ha as (Hne & Hloss & Hcorrect).
  assert (Hl : l <> []).
  { intros ->. apply Permutation_nil_l in Hperm. subst n.
    rewrite <- Hperm in Hn. done. }
  pose proof (nonempty_chunks _ _ Hne Hl) as HB.
  rewrite concat_chunks in Hloss, Hcorrect by done.
  assert (Hm : model st1 = model st) by (subst st1; done).
  rewrite Hm in Hloss, Hcorrect.
  exists test_loss, correct. split; [lia|]. split; [done|]. split.
  - rewrite Hloss, Qplus_0_l. by apply summed_nll_Permutation.
  - split; [|by subst st'].
    rewrite Hcorrect. rewrite (correct_count_Permutation _ _ _ Hperm). lia.
Qed.

(** C2. For every evaluation pass that completes, the report printed by
    [test] carries the number of test examples whose predicted class (the
    index of the maximum score of the model's output) is the label, the
    number of test examples, their quotient, between 0 and 1, as the
    accuracy (printed as a percentage), and as mean loss the sum of the
    per-example negative-log-likelihood losses divided by the number of
    test examples. *)
Theorem test_reports_accuracy_and_mean_loss (st st' : State) (test_loader : DataLoader) :
  test st test_loader = Ok st' ->
  let total := Z.of_nat (length (dataset test_loader)) in
  let correct := correct_count (model st) (dataset test_loader) in
  exists mean_loss percent,
    trace st' = trace st ++ [TestPass; PrintTest mean_loss correct total percent] /\
    (0 < total)%Z /\ (0 <= correct <= total)%Z /\
    (percent == 100 * (inject_Z correct / inject_Z total))%Q /\
    (mean_loss == summed_nll (model st) (dataset test_loader) / inject_Z total)%Q.
Proof.
  intros H total correct.
  destruct (test_Ok _ _ _ H) as (tl & c & Hn & _ & Hloss & -> & ->).
  eexists _, _. split; [|split; [done|split; [|split]]].
  - rewrite sample_state. simpl. by rewrite <- app_assoc.
  - apply correct_count_bounds.
  - unfold Qdiv. by rewrite Qmult_assoc.
  - by rewrite Hloss.
Qed.

(** C9. Evaluation never modifies the model's parameter set: an evaluation
    pass that completes leaves the model with every parameter value as it
    was before the pass.  The gradients and the optimizer are untouched as
    well, the pass adds no optimizer step to the trace, only its report,
    and gradient tracking, switched off for the pass, is back to what it
    was; only the mode of the model is left at evaluation. *)
Theorem test_preserves_parameters (st st' : State) (test_loader : DataLoader) :
  test st test_loader = Ok st' ->
  model st' = model st /\
  parameters (model st') = parameters (model st) /\
  grad st' = grad st /\
  grad_enabled st' = grad_enabled st /\
  optimizer_lr st' = optimizer_lr st /\
  last_epoch st' = last_epoch st /\
  training st' = false /\
  exists test_loss correct total percent,
    trace st' = trace st ++ [TestPass; PrintTest test_loss correct total percent].
Proof.
  intros H. destruct (test_Ok _ _ _ H) as (tl & c & _ & _ & _ & _ & ->).
  rewrite sample_state. cbn. repeat (split; [done|]).
  eexists _, _, _, _. by rewrite <- app_assoc.
Qed.

(** ** Shapes, topology and well-formed tensors *)

Lemma layer_shape_same_kind (l l' : Module) (s : list nat) :
  same_kind l l' -> layer_shape l s = layer_shape l' s.
Proof.
  destruct l, l'; simpl; try done.
  - intros [-> ->]. done.
  - intros ->. done.
  - intros [-> ->]. done.
Qed.

Lemma infer_same_topology (m m' : Sequential) (s : list nat) :
  same_topology m m' -> infer m s = infer m' s.
Proof.
  intros H. revert s. induction H as [|l l' m m' Hl _ IH]; intros s; simpl; [done|].
  rewrite (layer_shape_same_kind _ _ _ Hl). destruct (layer_shape l' s); simpl; auto.
Qed.

#[global] Instance same_kind_equiv : Equivalence same_kind.
Proof.
  split.
  - intros []; simpl; done.
  - intros [] []; simpl; try done; intros []; done.
  - intros [] [] []; simpl; try done; try (intros [] []; split; congruence);
      congruence.
Qed.

#[global] Instance same_topology_equiv : Equivalence same_topology.
Proof.
  split.
  - intros m. induction m; constructor; [reflexivity | done].
  - induction 1; constructor; [by symmetry | done].
  - intros x y z H. revert z.
    induction H as [|a b x y Hab _ IH]; intros z Hz; inversion Hz; subst;
      constructor; [by etrans | by apply IH].
Qed.

(** [forward] succeeds exactly when the shapes fit, with the shape [infer]
    computes. *)
Lemma forward_infer (m : Sequential) (x : Tensor) (s : list nat) :
  infer m (shape x) = Ok s -> exists y, forward m x = Ok y /\ shape y = s.
Proof.
  revert x. induction m as [|l m IH]; intros x; simpl.
  - intros [= <-]. eauto.
  - intros H. inv_result. unfold layer_forward. rewrite Ha. simpl.
    apply (IH {| shape := a; data := layer_data l x |}). done.
Qed.

Lemma forward_Ok_infer (m : Sequential) (x y : Tensor) :
  forward m x = Ok y -> infer m (shape x) = Ok (shape y).
Proof.
  revert x. induction m as [|l m IH]; intros x; simpl.
  - by intros [= <-].
  - intros H. inv_result. unfold layer_forward in Ha. inv_result. subst a.
    rewrite Ha0. simpl. by apply IH in H.
Qed.

Lemma length_bind_const {A B} (f : A -> list B) (l : list A) (c : nat) :
  (forall a, length (f a) = c) -> length (l ≫= f) = (length l * c)%nat.
Proof.
  intros Hf. induction l as [|a l IH]; [done|].
  rewrite bind_cons, length_app, IH, Hf. simpl. lia.
Qed.

Lemma numel_app (s1 s2 : list nat) : numel (s1 ++ s2) = (numel s1 * numel s2)%nat.
Proof.
  induction s1 as [|a s1 IH]; simpl; [lia|]. unfold numel in *. simpl.
  rewrite IH. lia.
Qed.

Lemma numel_rev (s : list nat) : numel (rev s) = numel s.
Proof.
  induction s as [|a s IH]; [done|]. simpl. rewrite numel_app, IH.
  unfold numel. simpl. lia.
Qed.

Lemma layer_forward_valid (l : Module) (x y : Tensor) :
  valid x -> layer_forward l x = Ok y -> valid y.
Proof.
  unfold valid, layer_forward. intros Hx H. inv_result. subst y. simpl.
  destruct l as [w b| |k| |w b]; simpl in *.
  - destruct (shape w) as [|m [|c [|kr [|ks [|]]]]]; try done.
    destruct (shape b) as [|m' [|]]; try done.
    destruct (shape x) as [|c' [|h [|wd [|]]]]; try done.
    destruct (_ && _); inv_result. subst a. unfold conv2d_data.
    rewrite (length_bind_const _ _ ((h - kr + 1) * ((wd - ks + 1) * 1))).
    { rewrite length_seq. unfold numel. simpl. lia. }
    intros f. rewrite (length_bind_const _ _ ((wd - ks + 1) * 1)).
    { by rewrite length_seq. }
    intros i. rewrite (length_bind_const _ _ 1); [by rewrite length_seq|done].
  - inv_result. subst a. by rewrite length_fmap.
  - destruct (shape x) as [|c [|h [|wd [|]]]]; try done.
    destruct (_ && _); inv_result. subst a. unfold max_pool2d_data.
    rewrite (length_bind_const _ _ ((h / k) * ((wd / k) * 1))).
    { rewrite length_seq. unfold numel. simpl. lia. }
    intros f. rewrite (length_bind_const _ _ ((wd / k) * 1)).
    { by rewrite length_seq. }
    intros i. rewrite (length_bind_const _ _ 1); [by rewrite length_seq|done].
  - inv_result. subst a. rewrite Hx. unfold numel. simpl. lia.
  - destruct (shape w) as [|nout [|nin [|]]]; try done.
    destruct (shape b) as [|nout' [|]]; try done.
    destruct (rev (shape x)) as [|nin' pre]; try done.
    destruct (_ && _); inv_result. subst a. unfold linear_data.
    rewrite (length_bind_const _ _ (nout * 1)).
    { rewrite length_seq. change (rev (nout :: pre)) with (rev pre ++ [nout]).
      rewrite numel_app, numel_rev. unfold numel. simpl. lia. }
    intros n. rewrite (length_bind_const _ _ 1); [by rewrite length_seq|done].
Qed.

Lemma forward_valid (m : Sequential) (x y : Tensor) :
  valid x -> forward m x = Ok y -> valid y.
Proof.
  revert x. induction m as [|l m IH]; intros x Hx; simpl.
  - by intros [= <-].
  - intros H. inv_result. eapply IH; [|done]. by eapply layer_forward_valid.
Qed.

(** The optimizer changes the values of the parameters, not the topology. *)
Lemma set_parameters_same_topology (rate : Q) (m : Sequential) (gs : list Tensor) :
  same_topology m (set_parameters m (sgd_updates rate (parameters m) gs)).
Proof.
  revert gs. induction m as [|l m IH]; intros gs; [constructor|].
  assert (Hnil : forall m', same_topology m' (set_parameters m' (parameters m'))).
  { clear. induction m' as [|l m' IH]; [constructor|].
    destruct l; simpl; constructor; done. }
  destruct l as [w b| |k| |w b]; simpl.
  - destruct gs as [|g1 [|g2 gs]]; simpl.
    + constructor; [done|]. apply Hnil.
    + constructor; [done|]. apply Hnil.
    + constructor; [done|]. apply IH.
  - constructor; [done|]. apply IH.
  - constructor; [done|]. apply IH.
  - constructor; [done|]. apply IH.
  - destruct gs as [|g1 [|g2 gs]]; simpl.
    + constructor; [done|]. apply Hnil.
    + constructor; [done|]. apply Hnil.
    + constructor; [done|]. apply IH.
Qed.

(** ** The training pass *)

Section TrainingPass.

Context (cross_entropy : list (list Q) -> list Z -> Q).
Context (gradient : Criterion -> Sequential -> list Tensor -> list Tensor).
Context (FLAGS : Flags).

Local Abbreviation train_batch' := (train_batch cross_entropy gradient FLAGS).
Local Abbreviation train' := (train cross_entropy gradient FLAGS).
Local Abbreviation criterion_value' := (criterion_value cross_entropy).
Local Abbreviation updated' := (updated gradient).

Lemma train_batch_Ok (loader : DataLoader) (loss : string) (epoch : Z)
    (st st' : State) (tmp tmp' : list Q) (i : nat) (items : list (Tensor * Z)) :
  train_batch' loader loss epoch (st, tmp) (i, items) = Ok (st', tmp') ->
  exists (output : list Tensor) (l : Q),
    log_interval FLAGS <> 0%Z /\ items <> [] /\
    call (model st) (items.*1) = Ok output /\
    criterion_value' (select_loss loss (items.*2)) output = Ok l /\
    trace st' = trace st ++
      batch_events (log_interval FLAGS) epoch (length (dataset loader))
        (len_loader loader) (i, length items, l) /\
    tmp' = tmp ++ (if logged (log_interval FLAGS) i then [l] else []) /\
    model st' = updated' loss st items /\
    optimizer_lr st' = optimizer_lr st /\
    last_epoch st' = last_epoch st /\
    rng st' = rng st /\ rng_pos st' = rng_pos st /\
    grad_enabled st' = grad_enabled st /\ training st' = training st.
Proof.
  unfold train_batch. intros H. inv_result.
  destruct (collate_Ok _ _ Ha) as (Hne & Hd & Ht). rewrite Hd, Ht in *.
  destruct (log_interval FLAGS =? 0)%Z eqn:HL; [done|]. apply Z.eqb_neq in HL.
  exists a0, a1. unfold batch_events, logged, updated.
  destruct (Z.of_nat i mod log_interval FLAGS =? 0)%Z;
    injection H as <- <-; simpl; rewrite ?length_fmap, <- ?app_assoc, ?app_nil_r; done.
Qed.

Lemma logged_from_cons {A} (interval : Z) (k : nat) (x : A) (l : list A) :
  logged_from interval k (x :: l) =
    (if logged interval k then [x] else []) ++ logged_from interval (S k) l.
Proof.
  unfold logged_from. cbn [length seq zip zip_with].
  rewrite filter_cons. cbn [fst]. destruct (logged interval k).
  - rewrite decide_True by done. done.
  - rewrite decide_False by done. done.
Qed.

Lemma train_loop (loader : DataLoader) (loss : string) (epoch : Z)
    (bs : list (list (Tensor * Z))) (k : nat) (st st' : State) (tmp tmp' : list Q) :
  foldM (train_batch' loader loss epoch) (zip (seq k (length bs)) bs) (st, tmp)
    = Ok (st', tmp') ->
  exists losses : list Q,
    length losses = length bs /\
    Forall (fun items => items <> []) bs /\
    (bs <> [] -> log_interval FLAGS <> 0%Z) /\
    trace st' = trace st ++
      mbind (batch_events (log_interval FLAGS) epoch (length (dataset loader))
               (len_loader loader))
        (zip (zip (seq k (length bs)) (length <$> bs)) losses) /\
    tmp' = tmp ++ logged_from (log_interval FLAGS) k losses /\
    optimizer_lr st' = optimizer_lr st /\
    last_epoch st' = last_epoch st /\
    rng st' = rng st /\ rng_pos st' = rng_pos st /\
    grad_enabled st' = grad_enabled st /\ training st' = training st /\
    same_topology (model st) (model st').
Proof.
  revert k st tmp. induction bs as [|items bs IH]; intros k st tmp.
  - cbn [length seq zip zip_with foldM]. intros [= <- <-]. exists [].
    unfold logged_from. simpl. rewrite !app_nil_r. done.
  - cbn [length seq zip zip_with foldM]. intros H. inv_result.
    destruct a as [st1 tmp1].
    apply train_batch_Ok in Ha
      as (output & l & HL & Hne & _ & _ & Htr & -> & Hm & Hlr & Hle & Hr & Hp & Hg & Ht).
    apply IH in H
      as (losses & Hlen & Hall & _ & Htr' & -> & Hlr' & Hle' & Hr' & Hp' & Hg' & Ht' & Hm').
    exists (l :: losses). cbn [length]. rewrite Hlen. split; [done|].
    split; [by constructor|]. split; [done|]. split.
    + rewrite Htr', Htr. rewrite fmap_cons. cbn [zip zip_with seq].
      rewrite bind_cons. by rewrite <- app_assoc.
    + rewrite logged_from_cons, app_assoc. split; [done|]. split; [congruence|].
      split; [congruence|]. split; [congruence|]. split; [congruence|].
      split; [congruence|]. split; [congruence|].
      etrans; [|exact Hm']. rewrite Hm. apply set_parameters_same_topology.
Qed.

Lemma length_chunks_nonempty {A} (n : nat) (l : list A) :
  Forall (fun items => items <> []) (chunks n l) ->
  length (chunks n l) = ((length l + n - 1) / n)%nat.
Proof.
  intros Hall. destruct l as [|a l].
  - simpl. destruct n; [done|]. symmetry. apply Nat.div_small. lia.
  - apply length_chunks. by eapply nonempty_chunks.
Qed.

Lemma logged_zero (interval : Z) : logged interval 0 = true.
Proof. unfold logged. by rewrite Zmod_0_l. Qed.

Lemma logged_below (interval : Z) (i : nat) :
  (0 < i)%nat -> (Z.of_nat i < interval)%Z -> logged interval i = false.
Proof.
  intros Hi Hlt. unfold logged. rewrite Z.mod_small by lia.
  apply Z.eqb_neq. lia.
Qed.

Lemma logged_from_below {A} (interval : Z) (k : nat) (l : list A) :
  (0 < k)%nat -> (Z.of_nat (k + length l) <= interval)%Z ->
  logged_from interval k l = [].
Proof.
  revert k. induction l as [|x l IH]; intros k Hk Hle; [done|].
  rewrite logged_from_cons, logged_below; [|done|simpl in Hle; lia].
  apply IH; [lia | simpl in Hle; lia].
Qed.

(** With an interval above the number of batches only batch 0 is logged. *)
Lemma logged_from_first {A} (interval : Z) (l : list A) :
  (Z.of_nat (length l) < interval)%Z -> logged_from interval 0 l = take 1 l.
Proof.
  intros Hlt. destruct l as [|x l]; [done|].
  rewrite logged_from_cons, logged_zero, logged_from_below; [by destruct l|lia|].
  simpl in *. lia.
Qed.

(** What a completed training pass did. *)
Lemma train_Ok (st st' : State) (loader : DataLoader) (loss : string)
    (epoch : Z) (tmp_loss : list Q) :
  train' st loader loss epoch = Ok (st', tmp_loss) ->
  let nb := len_loader loader in
  exists (sizes : list nat) (losses : list Q),
    length sizes = nb /\ length losses = nb /\
    trace st' = trace st ++ TrainPass epoch ::
      mbind (batch_events (log_interval FLAGS) epoch (length (dataset loader)) nb)
        (zip (zip (seq 0 nb) sizes) losses) /\
    tmp_loss = logged_from (log_interval FLAGS) 0 losses /\
    optimizer_lr st' = optimizer_lr st /\
    last_epoch st' = last_epoch st /\
    rng st' = rng st /\
    grad_enabled st' = grad_enabled st /\
    same_topology (model st) (model st').
Proof.
  intros H nb. unfold train in H.
  set (st0 := set_training true (emit (TrainPass epoch) st)) in *.
  destruct (sample_batches loader st0) as (l & Hperm & Hb).
  pose proof (sample_state loader st0) as Hs.
  destruct (sample loader st0) as [batches st1]. simpl in Hb, Hs.
  unfold enumerate in H.
  apply train_loop in H
    as (losses & Hlen & Hall & _ & Htr & -> & Hlr & Hle & Hr & _ & Hg & _ & Hm).
  assert (Hnb : length batches = nb).
  { subst batches. rewrite (length_chunks_nonempty _ _ Hall).
    unfold nb, len_loader. by rewrite (Permutation_length Hperm). }
  exists (length <$> batches), losses. rewrite length_fmap, Hlen, Hnb.
  split; [done|]. split; [done|]. split.
  - rewrite Htr, Hnb, Hs. cbn [trace set_rng_pos st0 set_training emit].
    by rewrite <- app_assoc.
  - split; [done|]. subst st1. simpl in *. done.
Qed.

(** C5. Within every epoch that completes, the trace of the training pass
    is, batch after batch, the optimizer step of the batch followed by a
    progress record exactly when the zero-based index of the batch is a
    multiple of [log_interval]; the returned loss sequence holds the losses
    of exactly these batches and of no other.  The pass makes
    ceil(N / B) optimizer steps for a training set of N examples and batch
    size B, and when [log_interval] is greater than the number of batches
    the only batch logged is the one with index 0. *)
Theorem train_logs_every_log_interval (st st' : State) (loader : DataLoader)
    (loss : string) (epoch : Z) (tmp_loss : list Q) :
  train' st loader loss epoch = Ok (st', tmp_loss) ->
  let N := length (dataset loader) in
  let B := batch_size loader in
  let nb := ((N + B - 1) / B)%nat in
  exists (sizes : list nat) (losses : list Q),
    length sizes = nb /\ length losses = nb /\
    trace st' = trace st ++ TrainPass epoch ::
      mbind (batch_events (log_interval FLAGS) epoch N nb)
        (zip (zip (seq 0 nb) sizes) losses) /\
    tmp_loss = logged_from (log_interval FLAGS) 0 losses /\
    ((Z.of_nat nb < log_interval FLAGS)%Z ->
       tmp_loss = take 1 losses /\
       forall i, (0 < i < nb)%nat -> logged (log_interval FLAGS) i = false).
Proof.
  intros H N B nb.
  destruct (train_Ok _ _ _ _ _ _ H) as (sizes & losses & Hs & Hl & Htr & -> & _).
  exists sizes, losses. fold N B nb in Hs, Hl, Htr |- *.
  split; [done|]. split; [done|]. split; [done|]. split; [done|].
  intros Hlt. split.
  - apply logged_from_first. by rewrite Hl.
  - intros i Hi. apply logged_below; lia.
Qed.

End TrainingPass.

(** ** The epoch loop of [main] *)

Lemma passes_app (t1 t2 : list event) : passes (t1 ++ t2) = passes t1 ++ passes t2.
Proof. apply filter_app. Qed.

Lemma passes_cons (e : event) (t : list event) :
  passes (e :: t) = (if is_pass e then [e] else []) ++ passes t.
Proof.
  unfold passes. rewrite filter_cons. destruct (is_pass e).
  - by rewrite decide_True.
  - by rewrite decide_False.
Qed.

Lemma passes_batch_events (interval epoch : Z) (total nb : nat)
    (l : list (nat * nat * Q)) :
  passes (mbind (batch_events interval epoch total nb) l) = [].
Proof.
  induction l as [|[[i n] x] l IH]; [done|].
  rewrite bind_cons, passes_app, IH. cbn [batch_events].
  by destruct (logged interval i).
Qed.

(** What an evaluation pass leaves of the state, for the epoch loop. *)
Lemma test_state (st st' : State) (test_loader : DataLoader) :
  test st test_loader = Ok st' ->
  model st' = model st /\
  optimizer_lr st' = optimizer_lr st /\
  last_epoch st' = last_epoch st /\
  rng st' = rng st /\
  passes (trace st') = passes (trace st) ++ [TestPass].
Proof.
  intros H. destruct (test_Ok _ _ _ H) as (tl & c & _ & _ & _ & _ & ->).
  rewrite sample_state. cbn [model optimizer_lr last_epoch rng trace emit
    set_grad_enabled set_rng_pos set_training].
  repeat (split; [done|]). rewrite !passes_app, !passes_cons. cbn.
  by rewrite app_nil_r.
Qed.

Lemma scheduler_step_lr (st : State) :
  (0 <= last_epoch st)%Z ->
  optimizer_lr (scheduler_step st) = (optimizer_lr st * gamma)%Q /\
  last_epoch (scheduler_step st) = (last_epoch st + 1)%Z /\
  trace (scheduler_step st) = trace st ++ [SchedulerStep] /\
  model (scheduler_step st) = model st.
Proof.
  intros H. unfold scheduler_step, step_size. cbn.
  rewrite Z.mod_1_r. destruct (last_epoch st + 1 =? 0)%Z eqn:E; [lia|done].
Qed.

Lemma Qpower_iter (x g : Q) (k : nat) :
  ~ (g == 0)%Q ->
  (Nat.iter k (fun r => r * g) x == x * g ^ Z.of_nat k)%Q.
Proof.
  intros Hg. induction k as [|k IH].
  - simpl. by rewrite Qmult_1_r.
  - rewrite Nat2Z.inj_succ, <- Z.add_1_r, Qpower_plus by done.
    rewrite Nat.iter_succ, IH. simpl (g ^ 1)%Q. by rewrite Qmult_assoc.
Qed.



Section EpochLoop.

Context (cross_entropy : list (list Q) -> list Z -> Q).
Context (gradient : Criterion -> Sequential -> list Tensor -> list Tensor).
Context (FLAGS : Flags).

Local Abbreviation train' := (train cross_entropy gradient FLAGS).
Local Abbreviation epoch_body' := (epoch_body cross_entropy gradient FLAGS).
Local Abbreviation main' := (main cross_entropy gradient FLAGS).

Lemma epoch_body_Ok (train_loader test_loader : DataLoader) (loss : string)
    (st st' : State) (lv lv' : list Q) (epoch : Z) :
  epoch_body' train_loader test_loader loss (st, lv) epoch = Ok (st', lv') ->
  (0 <= last_epoch st)%Z ->
  exists (st1 st2 : State) (tmp_loss : list Q),
    train' st train_loader loss epoch = Ok (st1, tmp_loss) /\
    test st1 test_loader = Ok st2 /\
    st' = scheduler_step st2 /\
    lv' = lv ++ tmp_loss /\
    passes (trace st') = passes (trace st) ++ epoch_passes epoch /\
    optimizer_lr st' = (optimizer_lr st * gamma)%Q /\
    last_epoch st' = (last_epoch st + 1)%Z /\
    rng st' = rng st /\
    same_topology (model st) (model st').
Proof.
  unfold epoch_body. intros H Hle. inv_result. destruct a as [st1 tmp_loss].
  inv_result. subst st' lv'. exists st1, a, tmp_loss.
  destruct (train_Ok _ _ _ _ _ _ _ _ _ Ha)
    as (sizes & losses & _ & _ & Htr & _ & Hlr & Hlast & Hrng & _ & Hm).
  destruct (test_state _ _ _ Ha0) as (Hm2 & Hlr2 & Hlast2 & Hrng2 & Htr2).
  destruct (scheduler_step_lr a) as (Hl3 & Hle3 & Htr3 & Hm3); [lia|].
  split; [done|]. split; [done|]. split; [done|]. split; [done|]. split.
  - rewrite Htr3, passes_app, Htr2, Htr. rewrite !passes_app, !passes_cons.
    rewrite passes_batch_events. cbn. by rewrite <- !app_assoc.
  - rewrite Hl3, Hle3, Hlr2, Hlast2, Hlr, Hlast. split; [done|]. split; [done|].
    split; [cbn; by rewrite Hrng2|]. by rewrite Hm3, Hm2.
Qed.


Lemma epoch_loop_Ok (train_loader test_loader : DataLoader) (loss : string)
    (es : list Z) (st st' : State) (lv lv' : list Q) :
  foldM (epoch_body' train_loader test_loader loss) es (st, lv) = Ok (st', lv') ->
  (0 <= last_epoch st)%Z ->
  passes (trace st') = passes (trace st) ++ mbind epoch_passes es /\
  optimizer_lr st' = Nat.iter (length es) (fun r => r * gamma)%Q (optimizer_lr st) /\
  last_epoch st' = (last_epoch st + Z.of_nat (length es))%Z /\
  rng st' = rng st /\
  same_topology (model st) (model st').
Proof.
  revert st lv. induction es as [|e es IH]; intros st lv; cbn [foldM].
  - intros [= <- <-] _. cbn. rewrite app_nil_r. split; [done|]. split; [done|].
    split; [lia|done].
  - intros H Hle. inv_result. destruct a as [st1 lv1].
    apply epoch_body_Ok in Ha
      as (_ & _ & _ & _ & _ & _ & _ & Hp & Hlr & Hlast & Hrng & Hm); [|done].
    apply IH in H as (Hp' & Hlr' & Hlast' & Hrng' & Hm'); [|lia].
    rewrite Hp', Hp, Hlr', Hlr, Hlast', Hlast, Hrng', Hrng.
    rewrite bind_cons, <- app_assoc. cbn [length]. rewrite Nat.iter_succ_r.
    split; [done|]. split; [done|]. split; [lia|]. split; [done|]. by etrans.
Qed.

(** What a completed run did. *)
Lemma main_Ok (env : Env) (r : Run) :
  main' env = Ok r ->
  exists (train_loader test_loader : DataLoader) (net : Sequential) (st : State),
    new_DataLoader (mnist_train env) (train_batch_size FLAGS) true = Ok train_loader /\
    new_DataLoader (mnist_test env) (test_batch_size FLAGS) true = Ok test_loader /\
    foldM (epoch_body' train_loader test_loader (loss_fn FLAGS))
      (range1 (epochs FLAGS)) (initial_state net (lr FLAGS) (seed env), [])
      = Ok (st, loss_values r) /\
    final r = emit (PrintTime (clock env 1%nat - clock env 0%nat)%Q) st /\
    (start_checkpoint FLAGS = None -> net = Model (init_values env)) /\
    files_after r =
      if save_model FLAGS
      then torch_save (state_dict (model st)) (save_checkpoint FLAGS) (files env)
      else files env.
Proof.
  unfold main. intros H. inv_result. destruct a3 as [st lv]. inv_result.
  subst r. exists a, a0, a2, st. repeat (split; [done|]). split; [|done].
  intros Hc. rewrite Hc in Ha2. by injection Ha2.
Qed.

Lemma length_range1 (n : Z) : length (range1 n) = Z.to_nat n.
Proof. unfold range1. by rewrite length_fmap, length_seq. Qed.

Lemma gamma_nonzero : ~ (gamma == 0)%Q.
Proof. done. Qed.

(** C3. For every run with initial learning rate [lr], after the [epochs]
    completed epochs of the run the learning rate of the optimizer is
    lr * 0.7 ^ epochs: the scheduler is stepped once per epoch and each
    step multiplies the rate by 0.7, whatever the pass measured.  The rate
    is first given as the product the script computes, one factor per
    epoch, then in closed form (rates are exact rationals). *)
Theorem learning_rate_after_epochs (env : Env) (r : Run) :
  (0 <= epochs FLAGS)%Z ->
  main' env = Ok r ->
  optimizer_lr (final r)
    = Nat.iter (Z.to_nat (epochs FLAGS)) (fun rate => rate * 0.7)%Q (lr FLAGS) /\
  (optimizer_lr (final r) == lr FLAGS * 0.7 ^ epochs FLAGS)%Q /\
  last_epoch (final r) = epochs FLAGS.
Proof.
  intros Hk H.
  destruct (main_Ok _ _ H) as (tl & tel & net & st & _ & _ & Hloop & -> & _).
  apply epoch_loop_Ok in Hloop as (_ & Hlr & Hlast & _); [|done].
  cbn [final optimizer_lr last_epoch emit]. rewrite Hlr, Hlast.
  rewrite length_range1, Z2Nat.id by done. split; [done|]. split; [|done].
  rewrite <- (Z2Nat.id (epochs FLAGS)) at 2 by done.
  apply (Qpower_iter _ gamma), gamma_nonzero.
Qed.


End EpochLoop.

(** ** The passes complete on well-formed data *)

Lemma foldM_total {A S} (P : S -> Prop) (R : A -> Prop) (f : S -> A -> result S)
    (l : list A) (s : S) :
  Forall R l -> P s ->
  (forall s a, R a -> P s -> exists s', f s a = Ok s' /\ P s') ->
  exists s', foldM f l s = Ok s' /\ P s'.
Proof.
  intros Hl Hs Hf. revert s Hs.
  induction Hl as [|a l Ha _ IH]; intros s Hs; simpl; [eauto|].
  destruct (Hf s a Ha Hs) as (s1 & -> & Hs1). simpl. by apply IH.
Qed.

Lemma chunks_Forall {A} (P : A -> Prop) (n : nat) (l : list A) :
  (0 < n)%nat -> Forall P l ->
  Forall (fun items => items <> [] /\ Forall P items) (chunks n l).
Proof.
  intros Hn Hl. apply Forall_and. split.
  - by apply chunks_aux_nonempty.
  - apply Forall_concat. by rewrite concat_chunks.
Qed.

(** The model accepts every example of a fitting batch and gives it ten
    scores. *)
Lemma call_total (m : Sequential) (s : list nat) (items : list (Tensor * Z)) :
  infer m s = Ok [10%nat] -> Forall (fits s) items ->
  exists output out,
    call m (items.*1) = Ok output /\ scores output = Ok out /\
    Forall2 (fun row t => length row = 10%nat /\ (0 <= t <= 9)%Z) out (items.*2).
Proof.
  intros Hm. unfold call, scores. induction 1 as [|[x t] items (Hs & Hv & Ht) _ IH].
  - exists [], []. done.
  - destruct IH as (output & out & Hc & Hsc & Hall). cbn [fst snd] in *. subst s.
    destruct (forward_infer _ _ _ Hm) as (y & Hy & Hsh).
    pose proof (forward_valid _ _ _ Hv Hy) as Hvy.
    exists (y :: output), (data y :: out). rewrite !fmap_cons. cbn [mapM fst snd].
    rewrite Hy, Hc. cbn. rewrite Hsh, Hsc. cbn.
    split; [done|]. split; [done|]. constructor; [|done].
    split; [|done]. unfold valid in Hvy. rewrite Hvy, Hsh. done.
Qed.

Lemma collate_total (s : list nat) (items : list (Tensor * Z)) :
  items <> [] -> Forall (fits s) items ->
  collate items =
    Ok {| batch_data := items.*1; batch_target := items.*2 |}.
Proof.
  intros Hne Hall. unfold collate. destruct items as [|[x t] items]; [done|].
  rewrite bool_decide_true; [done|].
  eapply Forall_impl; [exact Hall|]. intros ex (-> & _).
  apply Forall_inv in Hall as (<- & _). done.
Qed.

Lemma length_one_hot_row (y : Z) : length (one_hot_row y) = 10%nat.
Proof. done. Qed.

Lemma broadcast_row_same (row t : list Q) :
  length row = length t -> broadcast_row row t = Ok (zip row t).
Proof. intros H. unfold broadcast_row. by rewrite H, Nat.eqb_refl. Qed.

Lemma Forall2_zip {A B} (P : A -> B -> Prop) (l : list A) (k : list B) :
  Forall2 P l k -> Forall (fun p => P p.1 p.2) (zip l k).
Proof. induction 1; constructor; done. Qed.

Lemma mse_loss_total (out : list (list Q)) (target : list Z) :
  Forall2 (fun row t => length row = 10%nat /\ (0 <= t <= 9)%Z) out target ->
  is_Ok (mse_loss out (one_hot target)).
Proof.
  intros H. unfold mse_loss.
  assert (Hr : is_Ok (mapM (fun '(row, t) => broadcast_row row t)
                        (zip out (one_hot target)))).
  { apply mapM_total.
    assert (H' : Forall2 (fun row t => length row = length t) out (one_hot target)).
    { unfold one_hot. apply Forall2_fmap_r.
      eapply Forall2_impl; [exact H|]. by intros row t [-> _]. }
    eapply Forall_impl; [apply (Forall2_zip _ _ _ H')|].
    intros [row t] Hlen. rewrite broadcast_row_same by done. by eexists. }
  destruct Hr as [rows ->]. by eexists.
Qed.

Lemma nll_row_total (row : list Q) (t : Z) :
  length row = 10%nat -> (0 <= t <= 9)%Z -> is_Ok (nll_row row t).
Proof.
  intros Hrow Ht. unfold nll_row. rewrite Hrow.
  destruct (t =? -100)%Z eqn:E1; [lia|].
  destruct ((0 <=? t)%Z && (t <? Z.of_nat 10)%Z) eqn:E2; [by eexists|].
  apply andb_false_iff in E2 as [E2%Z.leb_gt|E2%Z.ltb_ge]; lia.
Qed.

Lemma nll_loss_sum_total (out : list (list Q)) (target : list Z) :
  Forall2 (fun row t => length row = 10%nat /\ (0 <= t <= 9)%Z) out target ->
  is_Ok (nll_loss_sum out target).
Proof.
  intros H. unfold nll_loss_sum.
  assert (Hr : is_Ok (mapM (fun '(row, t) => nll_row row t) (zip out target))).
  { apply mapM_total. eapply Forall_impl; [apply (Forall2_zip _ _ _ H)|].
    intros [row t] [Hrow Ht]. by apply nll_row_total. }
  destruct Hr as [ls ->]. by eexists.
Qed.

Lemma argmax_total (out : list (list Q)) (target : list Z) :
  Forall2 (fun row t => length row = 10%nat /\ (0 <= t <= 9)%Z) out target ->
  is_Ok (mapM argmax out).
Proof.
  intros H. apply mapM_total.
  induction H as [|row t out target [Hrow _] _ IH]; constructor; [|done].
  destruct row; [done|]. by eexists.
Qed.

Lemma Forall_zip_snd {A B} (P : B -> Prop) (l : list A) (k : list B) :
  Forall P k -> Forall (fun p => P p.2) (zip l k).
Proof.
  intros H. revert l. induction H as [|b k Hb _ IH]; intros [|a l]; simpl;
    constructor; auto.
Qed.

Lemma model_infer : forall init, infer (Model init) [1; 28; 28]%nat = Ok [10%nat].
Proof. intros init. vm_compute. reflexivity. Qed.

Lemma mnist_example_fits (ex : Tensor * Z) :
  mnist_example ex = true -> fits [1; 28; 28]%nat ex.
Proof.
  unfold mnist_example, fits, valid. intros H.
  apply andb_true_iff in H as [H H4]. apply andb_true_iff in H as [H H3].
  apply andb_true_iff in H as [H1 H2]. apply bool_decide_eq_true in H1.
  apply Nat.eqb_eq in H2. rewrite H1, H2. split; [done|]. split; [done|]. lia.
Qed.

Lemma runnable_spec (FLAGS : Flags) (env : Env) :
  runnable FLAGS env = true ->
  (0 < train_batch_size FLAGS)%Z /\ (0 < test_batch_size FLAGS)%Z /\
  Qle_bool 0 (lr FLAGS) = true /\ log_interval FLAGS <> 0%Z /\
  start_checkpoint FLAGS = None /\
  (mnist_train env <> [] /\ mnist_test env <> []) /\
  Forall (fits [1; 28; 28]%nat) (mnist_train env) /\
  Forall (fits [1; 28; 28]%nat) (mnist_test env).
Proof.
  unfold runnable. rewrite !andb_true_iff.
  intros ((((((((H1 & H2) & H3) & H4) & H5) & H0) & H6) & H7) & H8).
  apply Z.ltb_lt in H1, H2. apply negb_true_iff, Z.eqb_neq in H4.
  apply bool_decide_eq_true in H5. apply negb_true_iff, bool_decide_eq_false in H6.
  apply negb_true_iff, bool_decide_eq_false in H0.
  rewrite forallb_forall in H7, H8.
  repeat split; try done.
  - apply List.Forall_forall. intros ex Hex. by apply mnist_example_fits, H7.
  - apply List.Forall_forall. intros ex Hex. by apply mnist_example_fits, H8.
Qed.

Section Totality.

Context (cross_entropy : list (list Q) -> list Z -> Q).
Context (gradient : Criterion -> Sequential -> list Tensor -> list Tensor).
Context (FLAGS : Flags).

Local Abbreviation train_batch' := (train_batch cross_entropy gradient FLAGS).
Local Abbreviation train' := (train cross_entropy gradient FLAGS).
Local Abbreviation criterion_value' := (criterion_value cross_entropy).
Local Abbreviation epoch_body' := (epoch_body cross_entropy gradient FLAGS).
Local Abbreviation main' := (main cross_entropy gradient FLAGS).

Lemma criterion_total (loss : string) (output : list Tensor)
    (out : list (list Q)) (target : list Z) :
  scores output = Ok out ->
  Forall2 (fun row t => length row = 10%nat /\ (0 <= t <= 9)%Z) out target ->
  is_Ok (criterion_value' (select_loss loss target) output).
Proof.
  intros Hsc H. unfold criterion_value, select_loss. rewrite Hsc. cbn.
  destruct (String.eqb loss "CE").
  - rewrite bool_decide_true; [by eexists|].
    eapply Forall2_impl; [exact H|]. intros row t [Hrow Ht].
    unfold class_ok. rewrite Hrow. apply orb_true_iff. right.
    apply andb_true_iff. split; [apply Z.leb_le | apply Z.ltb_lt]; lia.
  - by apply mse_loss_total.
Qed.

Lemma train_batch_total (loader : DataLoader) (loss : string) (epoch : Z)
    (s : list nat) (st : State) (tmp : list Q) (i : nat)
    (items : list (Tensor * Z)) :
  log_interval FLAGS <> 0%Z ->
  infer (model st) s = Ok [10%nat] ->
  items <> [] -> Forall (fits s) items ->
  exists st' tmp',
    train_batch' loader loss epoch (st, tmp) (i, items) = Ok (st', tmp') /\
    infer (model st') s = Ok [10%nat].
Proof.
  intros HL Hm Hne Hall. unfold train_batch.
  rewrite (collate_total s) by done. cbn [mbind result_bind batch_data batch_target].
  change (model (zero_grad st)) with (model st).
  destruct (call_total _ _ _ Hm Hall) as (output & out & -> & Hsc & H2).
  cbn [mbind result_bind].
  destruct (criterion_total loss _ _ _ Hsc H2) as [l ->]. cbn [mbind result_bind].
  apply Z.eqb_neq in HL. rewrite HL.
  assert (Hinf : forall g, infer
            (set_parameters (model st)
               (sgd_updates (optimizer_lr st) (parameters (model st)) g)) s
            = Ok [10%nat]).
  { intros g. rewrite <- Hm. symmetry. apply infer_same_topology.
    apply set_parameters_same_topology. }
  destruct (Z.of_nat i mod log_interval FLAGS =? 0)%Z; eexists _, _;
    (split; [reflexivity|]); cbn; apply Hinf.
Qed.

Lemma train_total (st : State) (loader : DataLoader) (loss : string)
    (epoch : Z) (s : list nat) :
  log_interval FLAGS <> 0%Z ->
  (0 < batch_size loader)%nat ->
  infer (model st) s = Ok [10%nat] ->
  Forall (fits s) (dataset loader) ->
  exists st' tmp_loss,
    train' st loader loss epoch = Ok (st', tmp_loss) /\
    infer (model st') s = Ok [10%nat].
Proof.
  intros HL HB Hm Hds. unfold train.
  set (st0 := set_training true (emit (TrainPass epoch) st)).
  destruct (sample_batches loader st0) as (l & Hperm & Hb).
  pose proof (sample_state loader st0) as Hs.
  destruct (sample loader st0) as [batches st1]. simpl in Hb, Hs.
  rewrite <- Hperm in Hds.
  pose proof (chunks_Forall _ _ _ HB Hds) as Hch. rewrite <- Hb in Hch.
  destruct (foldM_total
    (fun acc : State * list Q => infer (model acc.1) s = Ok [10%nat])
    (fun it : nat * list (Tensor * Z) => it.2 <> [] /\ Forall (fits s) it.2)
    (train_batch' loader loss epoch) (enumerate batches) (st1, []))
    as ([st' tmp] & Hf & Hinv).
  - unfold enumerate.
    apply (Forall_zip_snd (fun items => items <> [] /\ Forall (fits s) items)), Hch.
  - subst st1. exact Hm.
  - intros [st2 tmp2] [i items] [Hne Hall] Hinv.
    destruct (train_batch_total loader loss epoch s st2 tmp2 i items)
      as (st3 & tmp3 & H3 & Hinv3); try done.
    by exists (st3, tmp3).
  - by exists st', tmp.
Qed.

Lemma test_batch_total (s : list nat) (st : State) (acc : Q * Z)
    (items : list (Tensor * Z)) :
  infer (model st) s = Ok [10%nat] ->
  items <> [] -> Forall (fits s) items ->
  is_Ok (test_batch st acc items).
Proof.
  intros Hm Hne Hall. unfold test_batch. destruct acc as [a c].
  rewrite (collate_total s) by done. cbn [mbind result_bind batch_data batch_target].
  destruct (call_total _ _ _ Hm Hall) as (output & out & Hc & Hsc & H2).
  rewrite Hc. cbn [mbind result_bind]. rewrite Hsc. cbn [mbind result_bind].
  destruct (nll_loss_sum_total _ _ H2) as [l ->]. cbn [mbind result_bind].
  destruct (argmax_total _ _ H2) as [pred ->]. by eexists.
Qed.

Lemma test_total (st : State) (loader : DataLoader) (s : list nat) :
  (0 < batch_size loader)%nat ->
  dataset loader <> [] ->
  infer (model st) s = Ok [10%nat] ->
  Forall (fits s) (dataset loader) ->
  is_Ok (test st loader).
Proof.
  intros HB Hne Hm Hds. unfold test.
  set (st0 := set_grad_enabled false (set_training false (emit TestPass st))).
  destruct (sample_batches loader st0) as (l & Hperm & Hb).
  pose proof (sample_state loader st0) as Hs.
  destruct (sample loader st0) as [batches st1]. simpl in Hb, Hs.
  rewrite <- Hperm in Hds.
  pose proof (chunks_Forall _ _ _ HB Hds) as Hch. rewrite <- Hb in Hch.
  destruct (foldM_total (fun _ => True)
    (fun items : list (Tensor * Z) => items <> [] /\ Forall (fits s) items)
    (test_batch st1) batches (0%Q, 0%Z)) as ([tl c] & -> & _); [done|done| |].
  - intros acc items [Hi Hall] _.
    destruct (test_batch_total s st1 acc items) as [acc' ->]; try done.
    + subst st1. exact Hm.
    + by exists acc'.
  - cbn [mbind result_bind].
    destruct (Z.of_nat (length (dataset loader)) =? 0)%Z eqn:E; [|by eexists].
    apply Z.eqb_eq in E. destruct (dataset loader); [done | simpl in E; lia].
Qed.


Lemma epoch_body_total (train_loader test_loader : DataLoader) (loss : string)
    (st : State) (lv : list Q) (epoch : Z) (s : list nat) :
  log_interval FLAGS <> 0%Z ->
  (0 < batch_size train_loader)%nat -> (0 < batch_size test_loader)%nat ->
  dataset test_loader <> [] ->
  Forall (fits s) (dataset train_loader) ->
  Forall (fits s) (dataset test_loader) ->
  infer (model st) s = Ok [10%nat] ->
  exists st' lv',
    epoch_body' train_loader test_loader loss (st, lv) epoch = Ok (st', lv') /\
    infer (model st') s = Ok [10%nat].
Proof.
  intros HL HB1 HB2 Hne H1 H2 Hm. unfold epoch_body.
  destruct (train_total st train_loader loss epoch s)
    as (st1 & tmp & -> & Hm1); try done.
  cbn [mbind result_bind].
  destruct (test_total st1 test_loader s) as [st2 Ht]; try done.
  rewrite Ht. cbn [mbind result_bind]. eexists _, _. split; [reflexivity|].
  apply test_state in Ht as (Hmod & _).
  destruct st2. cbn in *. by subst.
Qed.

(** A runnable configuration on a runnable environment completes. *)
Lemma main_total (env : Env) : runnable FLAGS env = true -> is_Ok (main' env).
Proof.
  intros H.
  apply runnable_spec in H as (H1 & H2 & H3 & HL & H4 & [H0 H5] & H6 & H7).
  unfold main. rewrite !new_DataLoader_nonempty by done.
  cbn [mbind result_bind].
  rewrite H3.
  cbn [mbind result_bind]. rewrite H4. cbn [mbind result_bind].
  destruct (foldM_total
    (fun acc : State * list Q => infer (model acc.1) [1; 28; 28]%nat = Ok [10%nat])
    (fun _ : Z => True)
    (epoch_body'
       {| dataset := mnist_train env;
          batch_size := Z.to_nat (train_batch_size FLAGS); shuffle := true |}
       {| dataset := mnist_test env;
          batch_size := Z.to_nat (test_batch_size FLAGS); shuffle := true |}
       (loss_fn FLAGS))
    (range1 (epochs FLAGS))
    (initial_state (Model (init_values env)) (lr FLAGS) (seed env), []))
    as ([st lv] & -> & _).
  - by apply Forall_true.
  - apply model_infer.
  - intros [st lv] e _ Hinv.
    destruct (epoch_body_total
      {| dataset := mnist_train env;
         batch_size := Z.to_nat (train_batch_size FLAGS); shuffle := true |}
      {| dataset := mnist_test env;
         batch_size := Z.to_nat (test_batch_size FLAGS); shuffle := true |}
      (loss_fn FLAGS) st lv e [1; 28; 28]%nat)
      as (st' & lv' & Hb & Hinv'); cbn [dataset batch_size]; try done; try lia.
    by exists (st', lv').
  - by eexists.
Qed.

End Totality.

(** ** Loss selection and the one-hot encoding *)

Lemma arange_lookup (n i : nat) : (i < n)%nat -> arange n !! i = Some (Z.of_nat i).
Proof.
  intros Hi. unfold arange. rewrite list_lookup_fmap, lookup_seq_lt by done. done.
Qed.

Lemma one_hot_row_lookup (y : Z) (i : nat) :
  (i < 10)%nat ->
  one_hot_row y !! i = Some (if decide (Z.of_nat i = y) then 1%Q else 0%Q).
Proof.
  intros Hi. unfold one_hot_row. rewrite list_lookup_fmap, arange_lookup by done.
  simpl. destruct (Z.eqb_spec (Z.of_nat i) y).
  - by rewrite decide_True.
  - by rewrite decide_False.
Qed.

Lemma one_hot_row_out_of_range (y : Z) :
  (y < 0 \/ 9 < y)%Z -> one_hot_row y = repeat 0%Q 10.
Proof.
  intros Hy. unfold one_hot_row, arange. cbn [seq fmap list_fmap].
  repeat match goal with
    | |- context [(?a =? y)%Z] =>
        rewrite (proj2 (Z.eqb_neq a y)) by lia
    end.
  done.
Qed.

(** C10. In the MSE branch (every loss name other than "CE") the targets
    of a batch become a matrix with one row of exactly 10 entries per
    label: the row of a label L with 0 <= L <= 9 has a 1 at position L and
    0 elsewhere, the row of any other label is all zeros, and the encoding
    raises no error. *)
Theorem one_hot_ten_classes (loss : string) (target : list Z) (n : nat) (L : Z) :
  loss <> "CE" ->
  target !! n = Some L ->
  exists (rows : list (list Q)) (row : list Q),
    select_loss loss target = MSELoss rows /\
    length rows = length target /\
    rows !! n = Some row /\
    length row = 10%nat /\
    (forall i, (i < 10)%nat ->
       row !! i = Some (if decide (Z.of_nat i = L) then 1%Q else 0%Q)) /\
    ((0 <= L <= 9)%Z -> row !! Z.to_nat L = Some 1%Q) /\
    ((L < 0 \/ 9 < L)%Z -> row = repeat 0%Q 10).
Proof.
  intros Hloss HL. exists (one_hot target), (one_hot_row L).
  unfold select_loss. rewrite (proj2 (String.eqb_neq _ _)) by done.
  split; [done|]. unfold one_hot. rewrite length_fmap, list_lookup_fmap, HL.
  split; [done|]. split; [done|]. split; [done|].
  split; [apply one_hot_row_lookup|]. split; [|apply one_hot_row_out_of_range].
  intros HR. rewrite one_hot_row_lookup by lia. rewrite decide_True by lia. done.
Qed.

Section LossSelection.

Context (cross_entropy : list (list Q) -> list Z -> Q).
Context (gradient : Criterion -> Sequential -> list Tensor -> list Tensor).
Context (FLAGS : Flags).

Local Abbreviation train_batch' := (train_batch cross_entropy gradient FLAGS).
Local Abbreviation updated' := (updated gradient).

(** C1 (as the script behaves).  In every training step that completes,
    the loss is selected by the name alone: for "CE" the targets stay
    integer class indices and the loss is the cross-entropy of the scores;
    for every other name, "MSE" or not, the targets are converted to
    one-hot rows immediately before the loss computation and the loss is
    the mean squared error; the parameters move against the gradient of
    the loss so selected.  No name is rejected. *)
Theorem loss_selection (loader : DataLoader) (loss : string) (epoch : Z)
    (st st' : State) (tmp tmp' : list Q) (i : nat) (items : list (Tensor * Z)) :
  train_batch' loader loss epoch (st, tmp) (i, items) = Ok (st', tmp') ->
  exists (output : list Tensor) (out : list (list Q)) (l : Q),
    call (model st) (items.*1) = Ok output /\
    scores output = Ok out /\
    In (OptimizerStep epoch i l) (trace st') /\
    model st' = updated' loss st items /\
    (loss = "CE" ->
       select_loss loss (items.*2) = CrossEntropyLoss (items.*2) /\
       l = cross_entropy out (items.*2)) /\
    (loss <> "CE" ->
       select_loss loss (items.*2) = MSELoss (one_hot (items.*2)) /\
       select_loss loss (items.*2) = select_loss "MSE" (items.*2) /\
       mse_loss out (one_hot (items.*2)) = Ok l).
Proof.
  intros H.
  destruct (train_batch_Ok _ _ _ _ _ _ _ _ _ _ _ _ H)
    as (output & l & _ & _ & Hcall & Hcrit & Htr & _ & Hm & _).
  unfold criterion_value in Hcrit. inv_result.
  exists output, a, l. split; [done|]. split; [done|]. split.
  { rewrite Htr. apply in_or_app. right. by left. }
  split; [done|]. unfold select_loss in *. split.
  - intros ->. rewrite String.eqb_refl in *. split; [done|].
    by case_bool_decide; inv_result.
  - intros Hne. apply String.eqb_neq in Hne. rewrite Hne in *. done.
Qed.

End LossSelection.

(** The losses of the MSE branch are not negative. *)
Lemma squared_error_nonneg (p : Q * Q) : (0 <= squared_error p)%Q.
Proof.
  unfold squared_error. destruct (p.1 - p.2)%Q as [n d].
  unfold Qle, Qmult. simpl. nia.
Qed.

Lemma mse_loss_nonneg (out target : list (list Q)) (l : Q) :
  mse_loss out target = Ok l -> (0 <= l)%Q.
Proof.
  unfold mse_loss. intros H. inv_result. subst l. unfold Qdiv.
  apply Qmult_le_0_compat.
  - apply sumQ_nonneg, Forall_fmap, Forall_true. intros p. apply squared_error_nonneg.
  - apply Qinv_le_0_compat. unfold Qle. simpl. lia.
Qed.

(** ** A model whose evaluation loss is negative *)

Lemma forward_app (m1 m2 : Sequential) (x : Tensor) :
  forward (m1 ++ m2) x = (y ← forward m1 x; forward m2 y).
Proof.
  revert x. induction m1 as [|l m1 IH]; intros x; simpl.
  - by destruct (forward m2 x).
  - destruct (layer_forward l x); simpl; [apply IH | done].
Qed.

Lemma bind_singleton_fmap {A B} (f : A -> B) (l : list A) :
  l ≫= (fun a => [f a]) = f <$> l.
Proof. induction l as [|a l IH]; [done|]. by rewrite bind_cons, IH. Qed.

Lemma sumQ_zero (l : list Q) : Forall (fun q => (q == 0)%Q) l -> (sumQ l == 0)%Q.
Proof.
  induction 1 as [|q l Hq _ IH]; simpl; [reflexivity|].
  rewrite Hq, IH. reflexivity.
Qed.

(** A linear layer with zero weights outputs its bias. *)
Lemma linear_data_zero_weight (nout nin : nat) (w b xs : list Q) (o : nat) :
  (o < nout)%nat -> (forall i, get w i = 0%Q) ->
  (get (linear_data nout nin 1 w b xs) o == get b o)%Q.
Proof.
  intros Ho Hw. unfold linear_data. cbn [seq]. rewrite bind_singleton.
  rewrite bind_singleton_fmap. unfold get at 1.
  rewrite (nth_lookup_Some _ _ _
    (get b o + sumQ (seq 0 nin ≫= (fun i => [get w (o * nin + i) * get xs (0 * nin + i)])))%Q).
  - rewrite sumQ_zero; [by rewrite Qplus_0_r|].
    rewrite bind_singleton_fmap. apply Forall_fmap, Forall_true. intros i.
    simpl. rewrite Hw. apply Qmult_0_l.
  - rewrite list_lookup_fmap, lookup_seq_lt by done. done.
Qed.

(** Whatever the other layers compute, a last layer with zero weights makes
    [Model] output its bias. *)
Lemma model_zero_last_weight (init : nat -> list Q) (x : Tensor) :
  shape x = [1; 28; 28]%nat -> valid x ->
  (forall i, get (init 6%nat) i = 0%Q) ->
  exists y, forward (Model init) x = Ok y /\ shape y = [10%nat] /\
    length (data y) = 10%nat /\
    forall o, (o < 10)%nat -> (get (data y) o == get (init 7%nat) o)%Q.
Proof.
  intros Hx Hv Hw.
  destruct (forward_infer (Model init) x [10%nat]) as (y & Hy & Hsh).
  { rewrite Hx. apply model_infer. }
  exists y. split; [done|]. split; [done|].
  pose proof (forward_valid _ _ _ Hv Hy) as Hvy. unfold valid in Hvy.
  rewrite Hsh in Hvy. split; [done|].
  change (Model init) with
    ([ nn_Conv2d 1 32 3 (init 0%nat) (init 1%nat); ReLU;
       nn_Conv2d 32 64 3 (init 2%nat) (init 3%nat); ReLU; MaxPool2d 2; Flatten;
       nn_Linear 9216 128 (init 4%nat) (init 5%nat); ReLU ]
     ++ [ nn_Linear 128 10 (init 6%nat) (init 7%nat) ]) in Hy.
  rewrite forward_app in Hy. inv_result.
  apply forward_Ok_infer in Ha. rewrite Hx in Ha.
  assert (Hh : shape a = [128%nat]).
  { vm_compute in Ha. by injection Ha. }
  cbn [forward] in Hy. unfold layer_forward in Hy.
  apply bind_Ok in Hy as (y' & Hy' & [= <-]).
  apply bind_Ok in Hy' as (s' & _ & [= <-]).
  cbn [data layer_data nn_Linear shape]. rewrite Hh.
  cbn [rev app numel foldr]. intros o Ho.
  by apply linear_data_zero_weight.
Qed.

Lemma get_repeat_zero (n i : nat) : get (repeat 0%Q n) i = 0%Q.
Proof. unfold get. revert i. induction n as [|n IH]; intros [|i]; simpl; auto. Qed.

(** C6 (the evaluation part fails).  On [Model] with the parameters of
    [biased_state] and a test set of one image labelled 0, the evaluation
    pass completes and the mean loss it reports is negative. *)
Theorem evaluation_loss_negative :
  exists st' mean_loss correct total percent,
    test biased_state one_image_loader = Ok st' /\
    trace st' = [TestPass; PrintTest mean_loss correct total percent] /\
    (mean_loss == -1)%Q /\ (mean_loss < 0)%Q.
Proof.
  assert (Hfit : fits [1; 28; 28]%nat (zero_image, 0%Z)).
  { split; [done|]. split; [|done]. unfold valid, zero_image, zeros. cbn [fst data shape].
    by rewrite repeat_length. }
  destruct (test_total biased_state one_image_loader [1; 28; 28]%nat) as [st' Ht].
  { cbn. lia. }
  { done. }
  { apply model_infer. }
  { by constructor. }
  destruct (test_Ok _ _ _ Ht) as (tl & c & _ & _ & Hloss & _ & Hst).
  destruct Hfit as (Hsh & Hv & _).
  destruct (model_zero_last_weight biased_init zero_image Hsh Hv)
    as (y & Hy & Hshy & Hlen & Hget).
  { intros i. apply get_repeat_zero. }
  assert (Hmean : (tl / inject_Z (Z.of_nat (length (dataset one_image_loader))) == -1)%Q).
  { rewrite Hloss. unfold summed_nll, example_nll, example_scores.
    cbn [dataset one_image_loader fmap list_fmap fst snd model biased_state initial_state].
    rewrite Hy. cbn [mbind result_bind]. rewrite Hshy. cbn [mbind result_bind].
    unfold nll_row. rewrite Hlen.
    change ((0 =? -100)%Z) with false.
    change ((0 <=? 0)%Z && (0 <? Z.of_nat 10)%Z) with true.
    change (Z.to_nat 0) with 0%nat. cbn [value_or_zero sumQ foldr length].
    rewrite (Hget 0%nat) by lia. reflexivity. }
  eexists st', _, _, _, _. split; [done|]. split.
  - rewrite Hst, sample_state. cbn. reflexivity.
  - split; [exact Hmean|]. rewrite Hmean. done.
Qed.

(** ** Checkpoints *)

Lemma before_dot_app (d rest : string) :
  before_dot d = d -> before_dot (d +:+ String "."%char rest) = d.
Proof.
  induction d as [|c d IH]; simpl; [done|].
  destruct (Ascii.eqb c "."%char); [done|]. intros [= H]. by rewrite IH.
Qed.

Lemma before_dot_pretty_N_go (x : N) (s : string) :
  before_dot s = s -> before_dot (pretty_N_go x s) = pretty_N_go x s.
Proof.
  revert s. induction (N.lt_wf_0 x) as [x _ IH]; intros s Hs.
  assert (x = 0 \/ 0 < x)%N as [->|Hx] by lia.
  - by rewrite pretty_N_go_0.
  - rewrite pretty_N_go_step by done. apply IH; [by apply N.div_lt|].
    simpl. rewrite Hs. unfold pretty_N_char. by repeat case_match.
Qed.

Lemma before_dot_pretty (i : nat) : before_dot (pretty i) = pretty i.
Proof.
  unfold pretty, pretty_nat, pretty, pretty_N. case_decide; [done|].
  by apply before_dot_pretty_N_go.
Qed.

(** Parameter names are distinct: the position and the field can be read
    back from the name. *)
Lemma name_inj (i j : nat) (f1 f2 : string) :
  pretty i +:+ String "."%char f1 = pretty j +:+ String "."%char f2 -> i = j /\ f1 = f2.
Proof.
  intros H. assert (Hij : pretty i = pretty j).
  { rewrite <- (before_dot_app (pretty i) f1), <- (before_dot_app (pretty j) f2)
      by apply before_dot_pretty. by rewrite H. }
  apply (inj pretty) in Hij. subst j. split; [done|].
  apply (inj (String.app (pretty i))) in H. by injection H.
Qed.

Lemma weight_name_inj (i j : nat) : weight_name i = weight_name j -> i = j.
Proof. intros H. by apply name_inj in H as [-> _]. Qed.

Lemma bias_name_inj (i j : nat) : bias_name i = bias_name j -> i = j.
Proof. intros H. by apply name_inj in H as [-> _]. Qed.

Lemma weight_name_ne_bias_name (i j : nat) : weight_name i <> bias_name j.
Proof. intros H. by apply name_inj in H as [_ H]. Qed.

Lemma lookup_named_parameters_from_other (k i : nat) (m : Sequential) :
  (i < k)%nat ->
  (list_to_map (named_parameters_from k m) : gmap string Tensor) !! weight_name i = None /\
  (list_to_map (named_parameters_from k m) : gmap string Tensor) !! bias_name i = None.
Proof.
  revert k. induction m as [|l m IH]; intros k Hik; [done|].
  cbn [named_parameters_from]. rewrite list_to_map_app, !lookup_union_r.
  - apply IH. lia.
  - destruct l; simpl; try done;
      rewrite !lookup_insert_ne; try done;
      first [ intros H%bias_name_inj; lia | by intros H%weight_name_ne_bias_name ].
  - destruct l; simpl; try done;
      rewrite !lookup_insert_ne; try done;
      first [ intros H%weight_name_inj; lia
            | intros H; symmetry in H; by apply weight_name_ne_bias_name in H ].
Qed.

Lemma lookup_module_other (k i : nat) (l : Module) :
  i <> k ->
  (list_to_map (named_module_parameters k l) : gmap string Tensor) !! weight_name i = None /\
  (list_to_map (named_module_parameters k l) : gmap string Tensor) !! bias_name i = None.
Proof.
  intros Hik. destruct l; simpl; try done; rewrite !lookup_insert_ne; try done.
  all: intros H;
    first [ apply weight_name_inj in H; congruence
          | apply bias_name_inj in H; congruence
          | by apply weight_name_ne_bias_name in H
          | symmetry in H; by apply weight_name_ne_bias_name in H ].
Qed.

(** The state dictionary holds every parameter under its name. *)
Lemma named_parameters_from_held (k : nat) (m : Sequential) (j : nat) (l : Module) :
  m !! j = Some l ->
  held (list_to_map (named_parameters_from k m)) (k + j) l.
Proof.
  revert k j. induction m as [|l0 m IH]; intros k j Hj; [done|].
  cbn [named_parameters_from]. rewrite list_to_map_app.
  destruct j as [|j].
  - injection Hj as ->. rewrite Nat.add_0_r.
    destruct l; simpl; try done; split.
    + apply lookup_union_Some_l. apply lookup_insert_eq.
    + apply lookup_union_Some_l. rewrite lookup_insert_ne, lookup_insert_eq; [done|].
      apply weight_name_ne_bias_name.
    + apply lookup_union_Some_l. apply lookup_insert_eq.
    + apply lookup_union_Some_l. rewrite lookup_insert_ne, lookup_insert_eq; [done|].
      apply weight_name_ne_bias_name.
  - cbn in Hj. specialize (IH (S k) j Hj).
    replace (S k + j)%nat with (k + S j)%nat in IH by lia.
    destruct (lookup_module_other k (k + S j) l0) as [Hw Hb]; [lia|].
    destruct l; simpl in *; try done; destruct IH as [IHw IHb]; split;
      rewrite lookup_union_r; done.
Qed.

Lemma same_topology_names (k : nat) (m m' : Sequential) :
  same_topology m m' ->
  (named_parameters_from k m).*1 = (named_parameters_from k m').*1.
Proof.
  intros H. revert k. induction H as [|l l' m m' Hl _ IH]; intros k; [done|].
  cbn [named_parameters_from]. rewrite !fmap_app, IH. f_equal.
  destruct l, l'; simpl in *; done.
Qed.

Lemma load_modules_held (sd : gmap string Tensor) (k : nat) (m fresh : Sequential) :
  same_topology m fresh ->
  (forall j l, m !! j = Some l -> held sd (k + j) l) ->
  load_modules sd k fresh = Some m.
Proof.
  intros H. revert k. induction H as [|l l' m m' Hl _ IH]; intros k Hheld; [done|].
  cbn [load_modules].
  assert (Hl' : load_module sd k l' = Some l).
  { specialize (Hheld 0%nat l eq_refl). rewrite Nat.add_0_r in Hheld.
    destruct l, l'; simpl in *; try done.
    - destruct Hl as [Hw Hb], Hheld as [Hw' Hb']. unfold restored.
      rewrite Hw', Hb', !bool_decide_true by done. done.
    - by subst.
    - destruct Hl as [Hw Hb], Hheld as [Hw' Hb']. unfold restored.
      rewrite Hw', Hb', !bool_decide_true by done. done. }
  rewrite Hl'. cbn. rewrite IH; [done|].
  intros j l0 Hj. replace (S k + j)%nat with (k + S j)%nat by lia.
  by apply Hheld.
Qed.

(** Loading the state dictionary of a model into a model of identical
    topology gives the first model back. *)
Lemma load_state_dict_state_dict (m fresh : Sequential) :
  same_topology m fresh -> load_state_dict fresh (state_dict m) = Ok m.
Proof.
  intros H. unfold load_state_dict, state_dict, named_parameters.
  rewrite bool_decide_true.
  - rewrite (load_modules_held _ 0 m fresh H); [done|].
    intros j l Hj. by apply (named_parameters_from_held 0).
  - rewrite !dom_list_to_map_L. by rewrite (same_topology_names 0 m fresh H).
Qed.

(** C7. Saving the parameter set of a model to a checkpoint and restoring
    that checkpoint into a freshly constructed model of identical topology
    succeeds and yields a model that gives, on every input batch, the
    outputs and hence the predictions of the saved one. *)
Theorem checkpoint_round_trip (m fresh : Sequential) (path : string)
    (fs : Files) (batch : list Tensor) :
  same_topology m fresh ->
  exists loaded,
    (ckpt ← torch_load (torch_save (state_dict m) path fs) path;
     load_state_dict fresh ckpt) = Ok loaded /\
    parameters loaded = parameters m /\
    call loaded batch = call m batch /\
    mapM (predicted loaded) batch = mapM (predicted m) batch.
Proof.
  intros H. exists m. unfold torch_load, torch_save.
  rewrite lookup_insert_eq. cbn [mbind result_bind].
  by rewrite load_state_dict_state_dict.
Qed.

Lemma Model_same_topology (init1 init2 : nat -> list Q) :
  same_topology (Model init1) (Model init2).
Proof. repeat constructor. Qed.

Section SaveAndRestore.

Context (cross_entropy : list (list Q) -> list Z -> Q).
Context (gradient : Criterion -> Sequential -> list Tensor -> list Tensor).

Local Abbreviation main' := (main cross_entropy gradient).

(** The two ends of the round trip in [main]: a run that saves its model,
    then a run started from that checkpoint with a newly constructed
    [Model] and no epoch of training, ends with the model of the first. *)
Lemma saved_checkpoint_restores (FLAGS1 FLAGS2 : Flags) (env1 env2 : Env)
    (r1 : Run) :
  main' FLAGS1 env1 = Ok r1 ->
  start_checkpoint FLAGS1 = None ->
  save_model FLAGS1 = true ->
  save_checkpoint FLAGS1 <> "" ->
  files env2 = files_after r1 ->
  start_checkpoint FLAGS2 = Some (save_checkpoint FLAGS1) ->
  (epochs FLAGS2 <= 0)%Z ->
  (0 < train_batch_size FLAGS2)%Z -> (0 < test_batch_size FLAGS2)%Z ->
  mnist_train env2 <> [] -> mnist_test env2 <> [] ->
  Qle_bool 0 (lr FLAGS2) = true ->
  exists r2, main' FLAGS2 env2 = Ok r2 /\ model (final r2) = model (final r1).
Proof.
  intros H1 Hstart Hsave Hpath Hfiles Hstart2 He Htb Teb Htr2 Hte2 Hlr.
  destruct (main_Ok _ _ _ _ _ H1)
    as (tl & tel & net & st & _ & _ & Hloop & Hfinal & Hnet & Hfs).
  rewrite (Hnet Hstart) in Hloop. rewrite Hsave in Hfs.
  apply epoch_loop_Ok in Hloop as (_ & _ & _ & _ & Htop); [|done].
  cbn [model initial_state] in Htop.
  unfold main. rewrite !new_DataLoader_nonempty by done.
  cbn [mbind result_bind].
  rewrite Hlr. cbn [mbind result_bind]. rewrite Hstart2.
  rewrite (proj2 (String.eqb_neq _ _)) by done.
  rewrite Hfiles, Hfs. unfold torch_load, torch_save. rewrite lookup_insert_eq.
  cbn [mbind result_bind]. rewrite load_state_dict_state_dict.
  - cbn [mbind result_bind]. unfold range1.
    replace (Z.to_nat (epochs FLAGS2)) with 0%nat by lia.
    cbn [seq fmap list_fmap foldM mbind result_bind].
    eexists. split; [reflexivity|]. rewrite Hfinal. done.
  - etrans; [symmetry; exact Htop|]. apply Model_same_topology.
Qed.

End SaveAndRestore.

(** * Further properties of the script *)

(** ** The shapes the network accepts *)

Lemma forward_Error_infer (m : Sequential) (x : Tensor) (e : error) :
  forward m x = Error e -> infer m (shape x) = Error e.
Proof.
  revert x. induction m as [|l m IH]; intros x; simpl; [discriminate|].
  unfold layer_forward. destruct (layer_shape l (shape x)) as [s|e']; simpl; [|by intros [= ->]].
  intros H. by apply IH in H.
Qed.

Lemma infer_Model (init : nat -> list Q) (s : list nat) :
  infer (Model init) s =
    match s with
    | [c; h; wd] =>
        if (c =? 1)%nat && ((h - 4) / 2 * ((wd - 4) / 2) =? 144)%nat
        then Ok [10%nat] else Error RuntimeError
    | _ => Error RuntimeError
    end.
Proof.
  destruct s as [|c [|h [|wd [|z s]]]]; try reflexivity.
  unfold Model, nn_Conv2d, nn_Linear.
  cbn [infer layer_shape shape mbind result_bind].
  change 9216%nat with (64 * 144)%nat.
  repeat (cbn [mbind result_bind andb rev app numel foldr];
          match goal with
          | |- context [(?a <=? ?b)%nat] => destruct (Nat.leb_spec a b)
          | |- context [(?a =? ?b)%nat] => destruct (Nat.eqb_spec a b)
          end); cbn [mbind result_bind andb rev app numel foldr]; try reflexivity; try lia.
  all: exfalso.
  all: repeat match goal with
         | H : context [(?x - 3 + 1 - 3 + 1)%nat] |- _ =>
             replace (x - 3 + 1 - 3 + 1)%nat with (x - 4)%nat in * by lia
         end.
  all: try nia.
  all: try (assert ((h - 4) `div` 2 = 0)%nat as Hz by (apply Nat.div_small; lia);
            rewrite Hz in *; lia).
  all: assert ((wd - 4) `div` 2 = 0)%nat as Hz by (apply Nat.div_small; lia);
    rewrite Hz in *; lia.
Qed.


(** X1. [Model] accepts an input exactly when it has one channel and a
    height h and a width w with ((h - 4) / 2) * ((w - 4) / 2) = 144, the
    9216 / 64 positions the first linear layer expects after the two 3 x 3
    convolutions and the 2 x 2 pooling (28 x 28 is such a size); the output
    then has the 10 scores, and every other input raises a [RuntimeError],
    whatever the values of the parameters. *)
Theorem Model_accepted_inputs (init : nat -> list Q) (x : Tensor) :
  (is_Ok (forward (Model init) x) <->
     exists h wd, shape x = [1; h; wd]%nat /\
       ((h - 4) / 2 * ((wd - 4) / 2) = 144)%nat) /\
  (forall y, forward (Model init) x = Ok y ->
     shape y = [10%nat] /\ (valid x -> length (data y) = 10%nat)) /\
  (forall e, forward (Model init) x = Error e -> e = RuntimeError).
Proof.
  split; [split|split].
  - intros [y Hy]. apply forward_Ok_infer in Hy. rewrite infer_Model in Hy.
    destruct (shape x) as [|c [|h [|wd [|z s]]]]; try discriminate Hy.
    destruct (Nat.eqb_spec c 1) as [->|]; [|discriminate Hy].
    destruct (Nat.eqb_spec ((h - 4) / 2 * ((wd - 4) / 2)) 144); [|discriminate Hy].
    by exists h, wd.
  - intros (h & wd & Hs & Hhw).
    destruct (forward_infer (Model init) x [10%nat]) as (y & Hy & _); [|by exists y].
    rewrite infer_Model, Hs, Hhw. reflexivity.
  - intros y Hy. pose proof (forward_Ok_infer _ _ _ Hy) as Hi.
    rewrite infer_Model in Hi.
    assert (Hsh : shape y = [10%nat]).
    { destruct (shape x) as [|c [|h [|wd [|z s]]]]; try discriminate Hi.
      destruct (_ && _); [|discriminate Hi]. by injection Hi. }
    split; [done|]. intros Hv. pose proof (forward_valid _ _ _ Hv Hy) as Hvy.
    unfold valid in Hvy. by rewrite Hvy, Hsh.
  - intros e He. apply forward_Error_infer in He. rewrite infer_Model in He.
    destruct (shape x) as [|c [|h [|wd [|z s]]]]; try (by injection He).
    destruct (_ && _); [discriminate He | by injection He].
Qed.

(** X2. The sizes the comment above [Model] gives: on a 28 x 28 image with
    one channel the first convolution with its activation gives
    32 x 26 x 26, the second 64 x 24 x 24, the pooling 64 x 12 x 12, the
    flattening 9216 values, the first linear layer 128 and the last one
    10, for every value of the parameters. *)
Theorem Model_layer_shapes (init : nat -> list Q) (x : Tensor) :
  shape x = [1; 28; 28]%nat ->
  Forall (fun '(k, s) => exists y,
            forward (take k (Model init)) x = Ok y /\ shape y = s /\
            (valid x -> length (data y) = numel s))
    [ (2, [32; 26; 26]); (4, [64; 24; 24]); (5, [64; 12; 12]); (6, [9216]);
      (8, [128]); (9, [10]) ]%nat.
Proof.
  intros Hx.
  assert (H : forall k s, infer (take k (Model init)) [1; 28; 28]%nat = Ok s ->
            exists y, forward (take k (Model init)) x = Ok y /\ shape y = s /\
              (valid x -> length (data y) = numel s)).
  { intros k s Hi. rewrite <- Hx in Hi.
    destruct (forward_infer _ _ _ Hi) as (y & Hy & Hs). exists y.
    split; [done|]. split; [done|]. intros Hv. rewrite <- Hs.
    exact (forward_valid _ _ _ Hv Hy). }
  repeat constructor; apply H; vm_compute; reflexivity.
Qed.

(** ** The predicted class *)

Lemma argmax_from_spec (pre row : list Q) (best : Q) (besti : nat) :
  (besti < length pre)%nat ->
  get pre besti = best ->
  (forall j, (j < length pre)%nat -> (get pre j <= best)%Q) ->
  (forall j, (j < besti)%nat -> (get pre j < best)%Q) ->
  let p := argmax_from best besti (length pre) row in
  (p < length (pre ++ row))%nat /\
  (forall j, (j < length (pre ++ row))%nat ->
     (get (pre ++ row) j <= get (pre ++ row) p)%Q) /\
  (forall j, (j < p)%nat -> (get (pre ++ row) j < get (pre ++ row) p)%Q).
Proof.
  revert pre best besti. induction row as [|x row IH]; intros pre best besti Hb Hbest Hle Hlt.
  - cbn [argmax_from]. rewrite app_nil_r, Hbest. done.
  - cbn [argmax_from].
    assert (Hlen : length (pre ++ [x]) = S (length pre)) by (rewrite length_app; simpl; lia).
    assert (Hpre : forall j, (j < length pre)%nat -> get (pre ++ [x]) j = get pre j).
    { intros j Hj. unfold get. by rewrite app_nth1. }
    assert (Hx : get (pre ++ [x]) (length pre) = x).
    { unfold get. rewrite app_nth2, Nat.sub_diag by lia. done. }
    replace (pre ++ x :: row) with ((pre ++ [x]) ++ row) by (by rewrite <- app_assoc).
    rewrite <- Hlen.
    destruct (Qle_bool x best) eqn:E.
    + apply Qle_bool_iff in E. apply IH.
      * lia.
      * by rewrite Hpre.
      * intros j Hj. rewrite Hlen in Hj.
        destruct (decide (j = length pre)) as [->|]; [by rewrite Hx|].
        rewrite Hpre by lia. apply Hle. lia.
      * intros j Hj. rewrite Hpre by lia. by apply Hlt.
    + assert (Hgt : (best < x)%Q).
      { apply Qnot_le_lt. intros H. apply Qle_bool_iff in H. congruence. }
      apply IH.
      * lia.
      * done.
      * intros j Hj. rewrite Hlen in Hj.
        destruct (decide (j = length pre)) as [->|]; [rewrite Hx; apply Qle_refl|].
        rewrite Hpre by lia. apply Qlt_le_weak. eapply Qle_lt_trans; [|exact Hgt].
        apply Hle. lia.
      * intros j Hj. rewrite Hpre by lia. eapply Qle_lt_trans; [|exact Hgt].
        by apply Hle.
Qed.

(** X3. The class [test] counts as predicted is a position of the row of
    scores, its score is the maximum of the row, and every position before
    it has a strictly smaller score: of several maximal scores the first
    is taken. *)
Theorem prediction_is_first_maximum (m : Sequential) (x : Tensor) (p : Z) :
  predicted m x = Ok p ->
  exists row,
    example_scores m x = Ok row /\
    (0 <= p < Z.of_nat (length row))%Z /\
    (forall j, (j < length row)%nat -> (get row j <= get row (Z.to_nat p))%Q) /\
    (forall j, (j < Z.to_nat p)%nat -> (get row j < get row (Z.to_nat p))%Q).
Proof.
  unfold predicted. intros H. inv_result. exists a. split; [done|].
  destruct a as [|x0 row]; [discriminate H|]. cbn [argmax] in H. injection H as <-.
  rewrite Nat2Z.id.
  destruct (argmax_from_spec [x0] row x0 0) as (Hp & Hmax & Hfirst).
  - simpl. lia.
  - done.
  - intros [|j] Hj; [apply Qle_refl | simpl in Hj; lia].
  - intros j Hj. lia.
  - cbn [length app] in *. split; [lia|]. split; assumption.
Qed.

(** ** The exceptions of the evaluation pass *)

Lemma mapM_Error {A B} (f : A -> result B) (l : list A) (e : error) :
  mapM f l = Error e -> exists a, In a l /\ f a = Error e.
Proof.
  induction l as [|a l IH]; simpl; [done|].
  destruct (f a) as [b|e'] eqn:Ha; simpl.
  - destruct (mapM f l) as [bs|e']; simpl; [done|].
    intros [= ->]. destruct IH as (a' & Hin & Ha'); [done|]. exists a'. auto.
  - intros [= ->]. exists a. auto.
Qed.

Lemma foldM_Error {A S} (f : S -> A -> result S) (l : list A) (s : S) (e : error) :
  foldM f l s = Error e -> exists s' a, In a l /\ f s' a = Error e.
Proof.
  revert s. induction l as [|a l IH]; intros s; simpl; [done|].
  destruct (f s a) as [s1|e'] eqn:Ha; simpl.
  - intros H. destruct (IH _ H) as (s' & a' & Hin & Ha'). exists s', a'. auto.
  - intros [= ->]. exists s, a. auto.
Qed.

Lemma layer_shape_Error (l : Module) (s : list nat) (e : error) :
  layer_shape l s = Error e -> e = RuntimeError.
Proof.
  destruct l; simpl; repeat case_match; congruence.
Qed.

Lemma forward_Error (m : Sequential) (x : Tensor) (e : error) :
  forward m x = Error e -> e = RuntimeError.
Proof.
  revert x. induction m as [|l m IH]; intros x; simpl; [done|].
  unfold layer_forward. destruct (layer_shape l (shape x)) as [s|e'] eqn:Hs; simpl.
  - apply IH.
  - intros [= <-]. by eapply layer_shape_Error.
Qed.

Lemma test_batch_Error (st : State) (acc : Q * Z) (items : list (Tensor * Z))
    (e : error) :
  test_batch st acc items = Error e -> e = RuntimeError \/ e = IndexError.
Proof.
  unfold test_batch. destruct acc as [a c].
  destruct (collate items) as [b|e1] eqn:Hc; simpl.
  2: { intros [= <-]. left. unfold collate in Hc. repeat case_match; congruence. }
  destruct (call (model st) (batch_data b)) as [output|e1] eqn:Hcall; simpl.
  2: { intros [= <-]. left. unfold call in Hcall. apply mapM_Error in Hcall as (x & _ & Hx).
       by eapply forward_Error. }
  destruct (scores output) as [out|e1] eqn:Hsc; simpl.
  2: { intros [= <-]. left. unfold scores in Hsc. apply mapM_Error in Hsc as (y & _ & Hy).
       repeat case_match; congruence. }
  destruct (nll_loss_sum out (batch_target b)) as [l|e1] eqn:Hn; simpl.
  2: { intros [= <-]. right. unfold nll_loss_sum in Hn.
       destruct (mapM _ _) as [ls|e2] eqn:Hm; [done|]. injection Hn as ->.
       apply mapM_Error in Hm as ([row t] & _ & Hr). unfold nll_row in Hr.
       repeat case_match; congruence. }
  destruct (mapM argmax out) as [pred|e1] eqn:Ha; simpl; [done|].
  intros [= <-]. right. apply mapM_Error in Ha as (row & _ & Hr).
  unfold argmax in Hr. repeat case_match; congruence.
Qed.

(** X4. The evaluation pass raises [ZeroDivisionError] exactly when the
    data set of its loader is empty (the division of the summed loss by
    [len(test_loader.dataset)]); for the network of the script (a model of
    the topology of [Model]) on a data set whose labels fit 64-bit
    integers, the only other exceptions it can raise are [RuntimeError]
    (shapes) and [IndexError] (a label that is no class). *)
Theorem test_exceptions (st : State) (loader : DataLoader) :
  (test st loader = Error ZeroDivisionError <-> dataset loader = []) /\
  ((exists init, same_topology (Model init) (model st)) ->
   Forall (fun ex => int64 ex.2) (dataset loader) ->
   forall e, test st loader = Error e ->
     e = ZeroDivisionError \/ e = RuntimeError \/ e = IndexError).
Proof.
  assert (Hcls : forall e, test st loader = Error e ->
            (e = ZeroDivisionError /\ dataset loader = [])
            \/ e = RuntimeError \/ e = IndexError).
  { intros e. unfold test.
    destruct (sample loader _) as [batches st1].
    destruct (foldM (test_batch st1) batches (0%Q, 0%Z)) as [[tl c]|e1] eqn:Hf; simpl.
    - destruct (Z.of_nat (length (dataset loader)) =? 0)%Z eqn:E; [|done].
      intros [= <-]. left. split; [done|]. apply Z.eqb_eq in E.
      destruct (dataset loader); [done | simpl in E; lia].
    - intros [= <-]. right. apply foldM_Error in Hf as (acc & items & _ & Hb).
      by eapply test_batch_Error. }
  split; [split|].
  - intros H. destruct (Hcls _ H) as [[_ Hd]|[|]]; done.
  - intros Hd. unfold test, sample. rewrite Hd. simpl.
    destruct (shuffle loader); reflexivity.
  - intros _ _ e H. destruct (Hcls _ H) as [[-> _]|[|]]; auto.
Qed.

(** ** The loss the evaluation pass reports *)

Lemma sumQ_opp (l : list Q) : (sumQ (Qopp <$> l) == - sumQ l)%Q.
Proof.
  induction l as [|x l IH]; simpl; [reflexivity|]. rewrite IH. ring.
Qed.

Lemma sumQ_Forall2 (l1 l2 : list Q) : Forall2 Qeq l1 l2 -> (sumQ l1 == sumQ l2)%Q.
Proof. induction 1 as [|x y l1 l2 Hxy _ IH]; simpl; [reflexivity|]. by rewrite Hxy, IH. Qed.

Lemma test_batch_examples (st : State) (acc acc' : Q * Z) (items : list (Tensor * Z)) :
  test_batch st acc items = Ok acc' ->
  Forall (fun ex => is_Ok (example_nll (model st) ex)) items.
Proof.
  unfold test_batch. destruct acc as [a c]. intros H.
  apply bind_Ok in H as (b & Hc & H). apply bind_Ok in H as (output & Hcall & H).
  apply bind_Ok in H as (out & Hsc & H). apply bind_Ok in H as (l & Hn & _).
  destruct (collate_Ok _ _ Hc) as (_ & Hd & Ht). rewrite Hd in Hcall. rewrite Ht in Hn.
  clear Hc Hd Ht. unfold nll_loss_sum in Hn. apply fmap_Ok in Hn as (ls & Hls & _).
  unfold call, scores in *. revert output out ls Hcall Hsc Hls.
  induction items as [|[x t] items IH]; intros output out ls H1 H2 H3; [constructor|].
  rewrite fmap_cons in H1. rewrite fmap_cons in H3. cbn [mapM fst snd] in H1.
  apply bind_Ok in H1 as (y & Hy & H1). apply bind_Ok in H1 as (ys & Hys & [= <-]).
  cbn [mapM] in H2.
  apply bind_Ok in H2 as (row & Hrow & H2). apply bind_Ok in H2 as (rows & Hrows & [= <-]).
  cbn [zip zip_with mapM] in H3.
  apply bind_Ok in H3 as (v & Hv & H3). apply bind_Ok in H3 as (vs & Hvs & _).
  constructor.
  - unfold example_nll, example_scores. cbn [fst snd]. rewrite Hy. cbn [mbind result_bind].
    rewrite Hrow. cbn [mbind result_bind]. by eexists.
  - eapply IH; eassumption.
Qed.

Lemma test_loop_examples (st : State) (batches : list (list (Tensor * Z)))
    (acc acc' : Q * Z) :
  foldM (test_batch st) batches acc = Ok acc' ->
  Forall (fun ex => is_Ok (example_nll (model st) ex)) (concat batches).
Proof.
  revert acc. induction batches as [|items batches IH]; intros acc; cbn [foldM concat].
  - constructor.
  - intros H. apply bind_Ok in H as (acc1 & Hb & H). apply Forall_app. split.
    + by eapply test_batch_examples.
    + by eapply IH.
Qed.

Lemma example_nll_label_score (m : Sequential) (ex : Tensor * Z) :
  (0 <= ex.2)%Z -> is_Ok (example_nll m ex) ->
  value_or_zero (example_nll m ex) = (- label_score m ex)%Q.
Proof.
  intros Hy [l Hl]. unfold label_score. unfold example_nll in *.
  destruct (example_scores m ex.1) as [row|e]; [|discriminate Hl].
  cbn [mbind result_bind] in *. unfold nll_row in *.
  destruct (ex.2 =? -100)%Z eqn:E; [lia|].
  destruct (_ && _); [|discriminate Hl]. done.
Qed.

(** X5. The average loss an evaluation pass reports is minus the mean of
    the scores the model gives to the labels of the test examples (labels
    that are not negative): [F.nll_loss] reads the output as it is.  It is
    negative whenever the scores of the labels add up to a positive
    number. *)
Theorem test_loss_is_negated_label_score (st st' : State) (test_loader : DataLoader) :
  test st test_loader = Ok st' ->
  Forall (fun ex => (0 <= ex.2)%Z) (dataset test_loader) ->
  let n := Z.of_nat (length (dataset test_loader)) in
  let total_score := sumQ (label_score (model st) <$> dataset test_loader) in
  exists mean_loss correct percent,
    trace st' = trace st ++ [TestPass; PrintTest mean_loss correct n percent] /\
    (mean_loss == - (total_score / inject_Z n))%Q /\
    ((0 < total_score)%Q -> (mean_loss < 0)%Q).
Proof.
  intros H Hlab n total_score.
  destruct (test_Ok _ _ _ H) as (tl & c & Hn & HB & Hloss & _ & Hst).
  assert (Hall : Forall (fun ex => is_Ok (example_nll (model st) ex))
                   (dataset test_loader)).
  { unfold test in H.
    set (st0 := set_grad_enabled false (set_training false (emit TestPass st))) in *.
    destruct (sample_batches test_loader st0) as (l & Hperm & Hb).
    pose proof (sample_state test_loader st0) as Hs.
    destruct (sample test_loader st0) as [batches st1]. simpl in Hb, Hs. subst batches.
    apply bind_Ok in H as (acc & Hf & _). apply test_loop_examples in Hf.
    rewrite concat_chunks in Hf by done. rewrite <- Hperm.
    replace (model st) with (model st1) by (by subst st1). done. }
  assert (Hsum : (summed_nll (model st) (dataset test_loader) == - total_score)%Q).
  { unfold summed_nll, total_score. rewrite <- sumQ_opp, <- list_fmap_compose.
    apply sumQ_Forall2. apply Forall2_fmap, Forall_Forall2_diag.
    rewrite Forall_forall in Hlab, Hall. apply Forall_forall. intros ex Hex. cbn.
    rewrite example_nll_label_score; [reflexivity | by apply Hlab | by apply Hall]. }
  assert (Hmean : (tl / inject_Z n == - (total_score / inject_Z n))%Q).
  { rewrite Hloss, Hsum. unfold Qdiv. ring. }
  eexists _, _, _. split; [|split; [exact Hmean|]].
  - rewrite Hst, sample_state. cbn. by rewrite <- app_assoc.
  - intros Hpos. rewrite Hmean.
    assert (HnQ : (0 < inject_Z n)%Q) by (change 0%Q with (inject_Z 0); by rewrite <- Zlt_Qlt).
    assert (Hq : (0 < total_score / inject_Z n)%Q).
    { apply Qlt_shift_div_l; [done|]. by rewrite Qmult_0_l. }
    apply Qopp_lt_compat in Hq. exact Hq.
Qed.

(** ** The batches of a pass *)

Lemma chunks_aux_lookup {A} (fuel n : nat) (l : list A) (i : nat) (b : list A) :
  (0 < n)%nat -> (length l <= fuel)%nat ->
  chunks_aux fuel n l !! i = Some b ->
  b = take n (drop (i * n) l) /\ (i * n < length l)%nat.
Proof.
  intros Hn. revert l i. induction fuel as [|fuel IH]; intros l i Hl; simpl; [done|].
  destruct l as [|a l]; [done|]. destruct i as [|i].
  - intros [= <-]. simpl. split; [done | lia].
  - cbn [lookup list_lookup]. intros H. apply IH in H as [-> Hi].
    + rewrite drop_drop. replace (S i * n)%nat with (n + i * n)%nat by lia.
      split; [done|].
      rewrite length_drop in Hi. cbn [length] in *. clear IH. lia.
    + rewrite length_drop. cbn [length] in *. lia.
Qed.

Lemma chunks_nonempty_list {A} (n : nat) (l : list A) : l <> [] -> chunks n l <> [].
Proof. destruct l; [done|]. intros _. unfold chunks. simpl. done. Qed.

(** X6. One pass over a loader with a positive batch size visits every
    example of the data set exactly once: the batches are consecutive
    groups of an order that is a rearrangement of the data set (the data
    set itself without shuffling), there are ceil(N / B) of them, none is
    empty, and all but the last hold exactly B examples. *)
Theorem batches_of_a_pass (loader : DataLoader) (st : State) :
  (0 < batch_size loader)%nat ->
  let B := batch_size loader in
  let batches := (sample loader st).1 in
  exists order,
    order ≡ₚ dataset loader /\
    (shuffle loader = false -> order = dataset loader) /\
    concat batches = order /\
    length batches = len_loader loader /\
    forall i b, batches !! i = Some b ->
      b = take B (drop (i * B) order) /\
      (0 < length b <= B)%nat /\
      (S i < len_loader loader -> length b = B)%nat.
Proof.
  intros HB B batches.
  assert (H : exists order, order ≡ₚ dataset loader /\
            (shuffle loader = false -> order = dataset loader) /\
            batches = chunks B order).
  { unfold batches, sample. destruct (shuffle loader); simpl.
    - eexists. split; [apply permute_Permutation|]. done.
    - by eexists. }
  destruct H as (order & Hperm & Hns & Hb). exists order.
  split; [done|]. split; [done|]. rewrite Hb.
  split; [by apply concat_chunks|].
  assert (Hlen : length (chunks B order) = len_loader loader).
  { rewrite length_chunks by done. unfold len_loader.
    by rewrite (Permutation_length Hperm). }
  split; [done|].
  intros i b Hi. pose proof (lookup_lt_Some _ _ _ Hi) as Hlt. rewrite Hlen in Hlt.
  apply chunks_aux_lookup in Hi as [-> Hi]; [|done|done].
  split; [done|]. rewrite length_take, length_drop.
  pose proof (ceiling_div (length order) B HB) as [Hc1 Hc2].
  unfold len_loader in *. rewrite <- (Permutation_length Hperm) in *.
  fold B in Hlt |- *. split; [lia|]. intros HS. nia.
Qed.

(** ** Gradients left over from before a pass *)

Section StaleGradients.

Context (cross_entropy : list (list Q) -> list Z -> Q).
Context (gradient : Criterion -> Sequential -> list Tensor -> list Tensor).
Context (FLAGS : Flags).

Local Abbreviation train_batch' := (train_batch cross_entropy gradient FLAGS).
Local Abbreviation train' := (train cross_entropy gradient FLAGS).

(** X7. A training pass over a data set that is not empty does not depend
    on the gradients the parameters hold when it starts: [zero_grad]
    clears them before the first backward pass. *)
Theorem train_ignores_stale_gradients (st : State) (g : list Tensor)
    (loader : DataLoader) (loss : string) (epoch : Z) :
  dataset loader <> [] ->
  train' (set_grad g st) loader loss epoch = train' st loader loss epoch.
Proof.
  intros Hne. unfold train.
  set (stg := set_training true (emit (TrainPass epoch) (set_grad g st))).
  set (st0 := set_training true (emit (TrainPass epoch) st)).
  destruct (sample_batches loader st0) as (l & Hperm & Hb).
  assert (Hbg : (sample loader stg).1 = (sample loader st0).1).
  { unfold sample. destruct (shuffle loader); reflexivity. }
  assert (Hsg : (sample loader stg).2 = set_grad g (sample loader st0).2).
  { unfold sample. destruct (shuffle loader); reflexivity. }
  destruct (sample loader stg) as [bg sg], (sample loader st0) as [b0 s0].
  simpl in Hb, Hbg, Hsg. subst bg sg b0.
  assert (Hl : l <> []).
  { intros ->. apply Permutation_nil_l in Hperm. by apply Hne. }
  pose proof (chunks_nonempty_list (batch_size loader) l Hl) as Hc.
  destruct (chunks (batch_size loader) l) as [|items bs]; [done|].
  unfold enumerate. cbn [length seq zip zip_with foldM].
  reflexivity.
Qed.

End StaleGradients.

(** ** The sign of the training losses *)

Section LossSign.

Context (cross_entropy : list (list Q) -> list Z -> Q).
Context (gradient : Criterion -> Sequential -> list Tensor -> list Tensor).
Context (FLAGS : Flags).

Local Abbreviation train_batch' := (train_batch cross_entropy gradient FLAGS).
Local Abbreviation train' := (train cross_entropy gradient FLAGS).

(** X8. With every loss name other than "CE" (the mean squared error) the
    loss of every optimizer step of a training pass, and so every loss the
    pass prints and returns, is at least 0. *)
Theorem mse_training_losses_nonnegative (st st' : State) (loader : DataLoader)
    (loss : string) (epoch : Z) (tmp_loss : list Q) :
  loss <> "CE" ->
  train' st loader loss epoch = Ok (st', tmp_loss) ->
  Forall (fun l => (0 <= l)%Q) tmp_loss /\
  exists new, trace st' = trace st ++ new /\
    Forall (fun l => (0 <= l)%Q) (step_losses new).
Proof.
  intros Hloss. unfold train.
  set (st0 := set_training true (emit (TrainPass epoch) st)).
  pose proof (sample_state loader st0) as Hs.
  destruct (sample loader st0) as [batches st1]. simpl in Hs. intros H.
  pose (P := fun acc : State * list Q =>
    Forall (fun l => (0 <= l)%Q) acc.2 /\
    exists new, trace acc.1 = trace st ++ new /\
      Forall (fun l => (0 <= l)%Q) (step_losses new)).
  apply (foldM_invariant P) in H; [exact H| |].
  - intros [s tmp] [i items] [s' tmp'] _ [Htmp (new & Htr & Hnew)] Hb.
    apply train_batch_Ok in Hb
      as (output & l & _ & _ & _ & Hcrit & Htr' & -> & _).
    assert (Hl : (0 <= l)%Q).
    { unfold criterion_value, select_loss in Hcrit.
      rewrite (proj2 (String.eqb_neq _ _)) in Hcrit by done.
      inv_result. by eapply mse_loss_nonneg. }
    split.
    + cbn [snd]. apply Forall_app. split; [done|]. by destruct (logged _ _); constructor.
    + cbn [fst] in *. eexists. rewrite Htr', Htr, <- app_assoc. split; [reflexivity|].
      unfold step_losses in *. rewrite bind_app. apply Forall_app. split; [done|].
      cbn [batch_events]. destruct (logged _ _); cbn; by constructor.
  - split; [constructor|]. exists [TrainPass epoch]. subst st1.
    split; [by destruct (shuffle loader)|]. constructor.
Qed.

End LossSign.

(** ** The update of one training step *)

Lemma parameters_set_parameters (m : Sequential) (ps : list Tensor) :
  length ps = length (parameters m) -> parameters (set_parameters m ps) = ps.
Proof.
  unfold parameters. revert ps. induction m as [|l m IH]; intros ps Hlen.
  - by destruct ps.
  - destruct l as [w b| |k| |w b]; cbn [set_parameters].
    + rewrite bind_cons in Hlen. cbn [module_parameters app length] in Hlen.
      destruct ps as [|w' [|b' ps]]; try discriminate Hlen.
      rewrite bind_cons. cbn [module_parameters app]. rewrite IH; [done|].
      simpl in Hlen. lia.
    + rewrite bind_cons in *. cbn [module_parameters app] in *. by apply IH.
    + rewrite bind_cons in *. cbn [module_parameters app] in *. by apply IH.
    + rewrite bind_cons in *. cbn [module_parameters app] in *. by apply IH.
    + rewrite bind_cons in Hlen. cbn [module_parameters app length] in Hlen.
      destruct ps as [|w' [|b' ps]]; try discriminate Hlen.
      rewrite bind_cons. cbn [module_parameters app]. rewrite IH; [done|].
      simpl in Hlen. lia.
Qed.

Lemma sgd_updates_lookup (rate : Q) (ps gs : list Tensor) (k : nat) (p g : Tensor) :
  ps !! k = Some p -> gs !! k = Some g ->
  sgd_updates rate ps gs !! k = Some (sgd_update rate p g).
Proof.
  revert gs k. induction ps as [|p0 ps IH]; intros [|g0 gs] [|k]; simpl; try done.
  - by intros [= ->] [= ->].
  - apply IH.
Qed.

Lemma length_sgd_updates (rate : Q) (ps gs : list Tensor) :
  length (sgd_updates rate ps gs) = length ps.
Proof.
  revert gs. induction ps as [|p ps IH]; intros [|g gs]; simpl; auto.
Qed.

Section Step.

Context (cross_entropy : list (list Q) -> list Z -> Q).
Context (gradient : Criterion -> Sequential -> list Tensor -> list Tensor).
Context (FLAGS : Flags).

Local Abbreviation train_batch' := (train_batch cross_entropy gradient FLAGS).
Local Abbreviation train' := (train cross_entropy gradient FLAGS).

(** X9. After a training step that completes, the gradients held are those
    of the loss selected for this batch alone, the model has as many
    parameter tensors as before, and every parameter that has a gradient
    keeps its shape and has moved, element by element, from x to
    x - lr * g, where g is the matching element of its gradient; with a
    learning rate of 0 the values stay as they were. *)
Theorem sgd_step_rule (loader : DataLoader) (loss : string) (epoch : Z)
    (st st' : State) (tmp tmp' : list Q) (i : nat) (items : list (Tensor * Z)) :
  train_batch' loader loss epoch (st, tmp) (i, items) = Ok (st', tmp') ->
  let gs := gradient (select_loss loss (items.*2)) (model st) (items.*1) in
  grad st' = gs /\
  length (parameters (model st')) = length (parameters (model st)) /\
  forall k p g, parameters (model st) !! k = Some p -> gs !! k = Some g ->
    exists p', parameters (model st') !! k = Some p' /\
      shape p' = shape p /\ length (data p') = length (data p) /\
      (forall j x, data p !! j = Some x ->
         data p' !! j = Some (x - optimizer_lr st * get (data g) j)%Q) /\
      ((optimizer_lr st == 0)%Q -> Forall2 Qeq (data p') (data p)).
Proof.
  intros H gs.
  assert (Hg : grad st' = gs).
  { unfold train_batch in H. inv_result.
    destruct (collate_Ok _ _ Ha) as (_ & Hd & Ht). rewrite Hd, Ht in *.
    destruct (log_interval FLAGS =? 0)%Z; [done|].
    by destruct (_ =? 0)%Z; injection H as <- <-. }
  apply train_batch_Ok in H as (_ & _ & _ & _ & _ & _ & _ & _ & Hm & _).
  unfold updated in Hm. fold gs in Hm. rewrite Hm.
  rewrite parameters_set_parameters by apply length_sgd_updates.
  split; [done|]. split; [apply length_sgd_updates|].
  intros k p g Hp Hgk. exists (sgd_update (optimizer_lr st) p g).
  split; [by apply sgd_updates_lookup|]. unfold sgd_update. cbn [shape data].
  split; [done|]. split; [by rewrite length_imap|]. split.
  - intros j x Hj. by rewrite list_lookup_imap, Hj.
  - intros Hz. apply Forall2_same_length_lookup. split; [by rewrite length_imap|].
    intros j y x Hy Hx. rewrite list_lookup_imap, Hx in Hy. injection Hy as <-.
    rewrite Hz. ring.
Qed.

(** X10. A training pass that completes changes the values of the
    parameters only: layers, hyper-parameters and parameter shapes, the
    learning rate, the counter of the scheduler and the gradient mode are
    as before, and the model is left in training mode. *)
Theorem train_keeps_shapes_and_rate (st st' : State) (loader : DataLoader)
    (loss : string) (epoch : Z) (tmp_loss : list Q) :
  train' st loader loss epoch = Ok (st', tmp_loss) ->
  same_topology (model st) (model st') /\
  training st' = true /\
  optimizer_lr st' = optimizer_lr st /\
  last_epoch st' = last_epoch st /\
  grad_enabled st' = grad_enabled st.
Proof.
  intros H. unfold train in H.
  set (st0 := set_training true (emit (TrainPass epoch) st)) in *.
  pose proof (sample_state loader st0) as Hs.
  destruct (sample loader st0) as [batches st1]. simpl in Hs.
  unfold enumerate in H.
  apply train_loop in H
    as (losses & _ & _ & _ & _ & _ & Hlr & Hle & Hr & Hp & Hg & Ht & Hm).
  subst st1. cbn in *. done.
Qed.

End Step.

(** ** The progress line of the training pass *)

Lemma percent_below_100 (i nb : nat) :
  (i < nb)%nat ->
  (0 <= 100 * inject_Z (Z.of_nat i) / inject_Z (Z.of_nat nb))%Q /\
  (100 * inject_Z (Z.of_nat i) / inject_Z (Z.of_nat nb) < 100)%Q.
Proof.
  intros Hi.
  assert (Hnb : (inject_Z 0 < inject_Z (Z.of_nat nb))%Q) by (rewrite <- Zlt_Qlt; lia).
  split.
  - apply Qle_shift_div_l; [done|]. rewrite Qmult_0_l.
    apply Qmult_le_0_compat; [done|]. change 0%Q with (inject_Z 0).
    rewrite <- Zle_Qle. lia.
  - apply Qlt_shift_div_r; [done|]. apply Qmult_lt_l; [done|].
    rewrite <- Zlt_Qlt. lia.
Qed.

Section Progress.

Context (cross_entropy : list (list Q) -> list Z -> Q).
Context (gradient : Criterion -> Sequential -> list Tensor -> list Tensor).
Context (FLAGS : Flags).

Local Abbreviation train_batch' := (train_batch cross_entropy gradient FLAGS).
Local Abbreviation train' := (train cross_entropy gradient FLAGS).

Lemma batch_events_progress (epoch : Z) (N nb B : nat) (k : nat)
    (sizes : list nat) (losses : list Q) :
  (0 < B)%nat -> (nb * B < N + B)%nat ->
  (forall j n, sizes !! j = Some n ->
     (k + j < nb)%nat /\ n = (B `min` (N - (k + j) * B))%nat /\ (0 < n)%nat) ->
  Forall (progress_ok epoch N nb B)
    (mbind (batch_events (log_interval FLAGS) epoch N nb)
       (zip (zip (seq k (length sizes)) sizes) losses)).
Proof.
  intros HB Hnb. revert k losses.
  induction sizes as [|n sizes IH]; intros k losses Hs; [constructor|].
  destruct losses as [|l losses]; [constructor|].
  cbn [length seq zip zip_with]. rewrite bind_cons. apply Forall_app. split.
  - destruct (Hs 0%nat n eq_refl) as (Hk & Hn & Hpos). rewrite Nat.add_0_r in *.
    cbn [batch_events]. constructor; [done|].
    destruct (logged _ _); constructor; [|done].
    cbn [progress_ok]. split; [done|]. split; [done|]. exists k.
    split; [done|]. split; [by rewrite Hn|]. split; [done|].
    destruct (percent_below_100 k nb Hk) as [Hp1 Hp2].
    split; [|done]. rewrite Hn. nia.
  - apply IH. intros j n' Hj. specialize (Hs (S j) n' Hj).
    by replace (S k + j)%nat with (k + S j)%nat by lia.
Qed.

(** X11. Every progress record of a training pass that completes names the
    epoch of the pass and the size N of the training set; for the batch
    with index i it shows as examples seen i times the size of this batch,
    min(B, N - i * B), and as percentage 100 * i / ceil(N / B): the count
    stays below N and the percentage below 100. *)
Theorem progress_line_bounds (st st' : State) (loader : DataLoader)
    (loss : string) (epoch : Z) (tmp_loss : list Q) :
  train' st loader loss epoch = Ok (st', tmp_loss) ->
  exists new,
    trace st' = trace st ++ new /\
    Forall (progress_ok epoch (length (dataset loader)) (len_loader loader)
              (batch_size loader)) new.
Proof.
  intros H. unfold train in H.
  set (st0 := set_training true (emit (TrainPass epoch) st)) in *.
  destruct (sample_batches loader st0) as (l & Hperm & Hb).
  pose proof (sample_state loader st0) as Hs.
  destruct (sample loader st0) as [batches st1]. simpl in Hb, Hs.
  unfold enumerate in H.
  apply train_loop in H
    as (losses & Hlen & Hall & _ & Htr & _).
  eexists. split.
  { rewrite Htr, Hs. cbn [trace set_rng_pos st0 set_training emit].
    rewrite <- app_assoc. reflexivity. }
  cbn [app]. constructor; [done|].
  destruct (decide (l = [])) as [->|Hl].
  { subst batches. constructor. }
  assert (HB : (0 < batch_size loader)%nat).
  { apply (nonempty_chunks _ l); [by rewrite <- Hb | done]. }
  assert (HN : length (dataset loader) = length l) by (by rewrite Hperm).
  assert (Hnb : length batches = len_loader loader).
  { subst batches. rewrite length_chunks by done. unfold len_loader. by rewrite HN. }
  rewrite <- (length_fmap length batches), <- Hnb.
  apply batch_events_progress; [done| |].
  - rewrite Hnb. unfold len_loader.
    pose proof (ceiling_div (length (dataset loader)) (batch_size loader) HB). lia.
  - intros j n Hj. rewrite list_lookup_fmap in Hj.
    destruct (batches !! j) as [b|] eqn:Hbj; [|done]. injection Hj as <-.
    pose proof (lookup_lt_Some _ _ _ Hbj) as Hlt.
    subst batches. apply chunks_aux_lookup in Hbj as [-> Hj]; [|done|done].
    cbn [Nat.add]. rewrite length_take, length_drop, HN. split; [done|].
    split; [done|]. lia.
Qed.

End Progress.

(** ** A logging interval of 0 *)

Section ZeroInterval.

Context (cross_entropy : list (list Q) -> list Z -> Q).
Context (gradient : Criterion -> Sequential -> list Tensor -> list Tensor).
Context (FLAGS : Flags).

Local Abbreviation train_batch' := (train_batch cross_entropy gradient FLAGS).
Local Abbreviation train' := (train cross_entropy gradient FLAGS).

(** X12. With [log_interval] 0 a training pass over well-formed data that
    is not empty raises [ZeroDivisionError]: the first batch is processed
    up to its optimizer step, then [batch_idx % FLAGS.log_interval]
    fails. *)
Theorem train_with_zero_log_interval (st : State) (loader : DataLoader)
    (loss : string) (epoch : Z) (s : list nat) :
  log_interval FLAGS = 0%Z ->
  (0 < batch_size loader)%nat ->
  dataset loader <> [] ->
  infer (model st) s = Ok [10%nat] ->
  Forall (fits s) (dataset loader) ->
  train' st loader loss epoch = Error ZeroDivisionError.
Proof.
  intros HL HB Hne Hm Hds. unfold train.
  set (st0 := set_training true (emit (TrainPass epoch) st)).
  destruct (sample_batches loader st0) as (l & Hperm & Hb).
  pose proof (sample_state loader st0) as Hs.
  destruct (sample loader st0) as [batches st1]. simpl in Hb, Hs.
  rewrite <- Hperm in Hds.
  pose proof (chunks_Forall _ _ _ HB Hds) as Hch. rewrite <- Hb in Hch.
  assert (Hl : l <> []).
  { intros ->. apply Permutation_nil_l in Hperm. by apply Hne. }
  pose proof (chunks_nonempty_list (batch_size loader) l Hl) as Hc.
  rewrite <- Hb in Hc. destruct batches as [|items bs]; [done|].
  apply Forall_cons in Hch as [[Hi Hfit] _].
  unfold enumerate. cbn [length seq zip zip_with foldM].
  assert (Hstep : train_batch' loader loss epoch (st1, []) (0%nat, items)
                  = Error ZeroDivisionError).
  { unfold train_batch. rewrite (collate_total s) by done.
    cbn [mbind result_bind batch_data batch_target].
    change (model (zero_grad st1)) with (model st1).
    assert (Hm1 : infer (model st1) s = Ok [10%nat]) by (by subst st1).
    destruct (call_total _ _ _ Hm1 Hfit) as (output & out & -> & Hsc & H2).
    cbn [mbind result_bind].
    destruct (criterion_total cross_entropy loss _ _ _ Hsc H2) as [lo ->].
    cbn [mbind result_bind]. by rewrite HL. }
  by rewrite Hstep.
Qed.

End ZeroInterval.

(** ** The losses a run prints and the losses it returns *)

Lemma printed_losses_app (t1 t2 : list event) :
  printed_losses (t1 ++ t2) = printed_losses t1 ++ printed_losses t2.
Proof. unfold printed_losses. apply bind_app. Qed.

Lemma printed_losses_batch_events (interval epoch : Z) (total nb k : nat)
    (sizes : list nat) (losses : list Q) :
  length sizes = length losses ->
  printed_losses (mbind (batch_events interval epoch total nb)
                    (zip (zip (seq k (length losses)) sizes) losses))
  = logged_from interval k losses.
Proof.
  revert k sizes. induction losses as [|l losses IH]; intros k [|n sizes] Hlen;
    try discriminate Hlen.
  - done.
  - cbn [length seq zip zip_with]. rewrite bind_cons, printed_losses_app, IH
      by (simpl in Hlen; lia).
    rewrite logged_from_cons. f_equal. cbn [batch_events].
    by destruct (logged interval k).
Qed.

Lemma test_trace (st st' : State) (test_loader : DataLoader) :
  test st test_loader = Ok st' ->
  exists test_loss correct total percent,
    trace st' = trace st ++ [TestPass; PrintTest test_loss correct total percent].
Proof.
  intros H. destruct (test_Ok _ _ _ H) as (tl & c & _ & _ & _ & _ & ->).
  rewrite sample_state. cbn. eexists _, _, _, _. by rewrite <- app_assoc.
Qed.

Section PrintedLosses.

Context (cross_entropy : list (list Q) -> list Z -> Q).
Context (gradient : Criterion -> Sequential -> list Tensor -> list Tensor).
Context (FLAGS : Flags).

Local Abbreviation train' := (train cross_entropy gradient FLAGS).
Local Abbreviation epoch_body' := (epoch_body cross_entropy gradient FLAGS).
Local Abbreviation main' := (main cross_entropy gradient FLAGS).

Lemma train_printed_losses (st st' : State) (loader : DataLoader) (loss : string)
    (epoch : Z) (tmp_loss : list Q) :
  train' st loader loss epoch = Ok (st', tmp_loss) ->
  printed_losses (trace st') = printed_losses (trace st) ++ tmp_loss.
Proof.
  intros H. destruct (train_Ok _ _ _ _ _ _ _ _ _ H)
    as (sizes & losses & Hs & Hl & -> & -> & _).
  rewrite printed_losses_app. f_equal.
  change (TrainPass epoch :: ?t) with ([TrainPass epoch] ++ t).
  rewrite printed_losses_app. change (printed_losses [TrainPass epoch]) with (@nil Q).
  cbn [app]. rewrite <- Hl in Hs |- *. by apply printed_losses_batch_events.
Qed.

Lemma epoch_body_printed_losses (train_loader test_loader : DataLoader)
    (loss : string) (st st' : State) (lv lv' : list Q) (epoch : Z) :
  epoch_body' train_loader test_loader loss (st, lv) epoch = Ok (st', lv') ->
  printed_losses (trace st) = lv -> printed_losses (trace st') = lv'.
Proof.
  unfold epoch_body. intros H Hlv. inv_result. destruct a as [st1 tmp].
  inv_result. subst st' lv'.
  apply train_printed_losses in Ha. apply test_trace in Ha0 as (tl & c & n & p & Ht).
  unfold scheduler_step. cbn [trace emit set_scheduler].
  rewrite Ht, !printed_losses_app, Ha, Hlv. cbn. by rewrite !app_nil_r.
Qed.

(** X13. The loss values a completed run collects in [loss_values], the
    ordinates of its loss curve, are exactly the losses of the progress
    lines it printed, in the order of printing. *)
Theorem printed_losses_are_loss_values (env : Env) (r : Run) :
  main' env = Ok r -> printed_losses (trace (final r)) = loss_values r.
Proof.
  intros H.
  destruct (main_Ok _ _ _ _ _ H) as (tl & tel & net & st & _ & _ & Hloop & -> & _).
  cbn [final trace emit]. rewrite printed_losses_app. cbn. rewrite app_nil_r.
  apply (foldM_invariant (fun acc => printed_losses (trace acc.1) = acc.2)) in Hloop;
    [exact Hloop| |done].
  intros [s lv] e [s' lv'] _ Hinv Hb. by eapply epoch_body_printed_losses.
Qed.

End PrintedLosses.

(** ** The number of logged losses *)

Lemma ceiling_step (L k : Z) :
  (0 < L)%Z -> (0 <= k)%Z ->
  ((k + 1 + L - 1) / L = (k + L - 1) / L + (if (k mod L =? 0)%Z then 1 else 0))%Z.
Proof.
  intros HL Hk. pose proof (Z.div_mod k L ltac:(lia)) as Hdm.
  pose proof (Z.mod_pos_bound k L HL) as Hb.
  destruct (Z.eqb_spec (k mod L) 0) as [E|E].
  - symmetry. apply (Z.div_unique _ _ _ 0); [lia|].
    assert (Hq : ((k + L - 1) / L = k / L)%Z).
    { symmetry. apply (Z.div_unique _ _ _ (L - 1)); lia. }
    rewrite Hq. lia.
  - symmetry. apply (Z.div_unique _ _ _ (k mod L)); [lia|].
    assert (Hq : ((k + L - 1) / L = k / L + 1)%Z).
    { symmetry. apply (Z.div_unique _ _ _ (k mod L - 1)); lia. }
    rewrite Hq. lia.
Qed.

Lemma length_logged_from {A} (L : Z) (k : nat) (l : list A) :
  (0 < L)%Z ->
  Z.of_nat (length (logged_from L k l))
  = ((Z.of_nat (k + length l) + L - 1) / L - (Z.of_nat k + L - 1) / L)%Z.
Proof.
  intros HL. revert k. induction l as [|x l IH]; intros k.
  - unfold logged_from. simpl. rewrite Nat.add_0_r. lia.
  - rewrite logged_from_cons, length_app, Nat2Z.inj_add, IH. cbn [length].
    replace (Z.of_nat (S k + length l)) with (Z.of_nat (k + S (length l))) by lia.
    replace (Z.of_nat (S k) + L - 1)%Z with (Z.of_nat k + 1 + L - 1)%Z by lia.
    rewrite ceiling_step by lia. unfold logged.
    destruct (Z.of_nat k mod L =? 0)%Z; simpl length; lia.
Qed.

Lemma length_logged_from_0 {A} (L : Z) (l : list A) :
  (0 < L)%Z ->
  Z.of_nat (length (logged_from L 0 l)) = ((Z.of_nat (length l) + L - 1) / L)%Z.
Proof.
  intros HL. rewrite length_logged_from by done. cbn [Nat.add Z.of_nat].
  rewrite (Z.div_small (0 + L - 1)) by lia. lia.
Qed.

Section LoggedLosses.

Context (cross_entropy : list (list Q) -> list Z -> Q).
Context (gradient : Criterion -> Sequential -> list Tensor -> list Tensor).
Context (FLAGS : Flags).

Local Abbreviation train' := (train cross_entropy gradient FLAGS).
Local Abbreviation epoch_body' := (epoch_body cross_entropy gradient FLAGS).
Local Abbreviation main' := (main cross_entropy gradient FLAGS).

Lemma epoch_loop_losses (train_loader test_loader : DataLoader) (loss : string)
    (es : list Z) (st st' : State) (lv lv' : list Q) :
  (0 < log_interval FLAGS)%Z ->
  foldM (epoch_body' train_loader test_loader loss) es (st, lv) = Ok (st', lv') ->
  exists per_epoch : list (list Q),
    lv' = lv ++ concat per_epoch /\
    length per_epoch = length es /\
    Forall (fun l => Z.of_nat (length l)
                     = ((Z.of_nat (len_loader train_loader) + log_interval FLAGS - 1)
                        / log_interval FLAGS)%Z) per_epoch.
Proof.
  intros HL. revert st lv. induction es as [|e es IH]; intros st lv; cbn [foldM].
  - intros [= <- <-]. exists []. by rewrite app_nil_r.
  - intros H. inv_result. destruct a as [st1 lv1].
    apply IH in H as (per & -> & Hlen & Hall).
    unfold epoch_body in Ha. apply bind_Ok in Ha as ([st2 tmp] & Htrain & Ha).
    apply bind_Ok in Ha as (st3 & _ & [= _ <-]).
    destruct (train_Ok _ _ _ _ _ _ _ _ _ Htrain) as (sizes & losses & _ & Hl & _ & -> & _).
    exists (logged_from (log_interval FLAGS) 0 losses :: per).
    cbn [concat length]. rewrite <- app_assoc. split; [done|]. split; [lia|].
    constructor; [|done]. rewrite length_logged_from_0 by done. by rewrite Hl.
Qed.

(** X14. With a positive [log_interval] L a completed run of E epochs on N
    training examples with batch size B collects E * ceil(ceil(N / B) / L)
    loss values: [loss_values] is the concatenation of one list per epoch,
    each with one value per logged batch. *)
Theorem number_of_loss_values (env : Env) (r : Run) :
  (0 < log_interval FLAGS)%Z -> (0 <= epochs FLAGS)%Z ->
  main' env = Ok r ->
  let N := length (mnist_train env) in
  let B := Z.to_nat (train_batch_size FLAGS) in
  let nb := ((N + B - 1) / B)%nat in
  let m := ((Z.of_nat nb + log_interval FLAGS - 1) / log_interval FLAGS)%Z in
  exists per_epoch : list (list Q),
    loss_values r = concat per_epoch /\
    Z.of_nat (length per_epoch) = epochs FLAGS /\
    Forall (fun l => Z.of_nat (length l) = m) per_epoch /\
    Z.of_nat (length (loss_values r)) = (epochs FLAGS * m)%Z.
Proof.
  intros HL HE H N B nb m.
  destruct (main_Ok _ _ _ _ _ H) as (tl & tel & net & st & Htl & _ & Hloop & _).
  apply epoch_loop_losses in Hloop as (per & Hlv & Hlen & Hall); [|done].
  assert (Hnb : len_loader tl = nb).
  { by apply new_DataLoader_Ok in Htl as (_ & _ & ->). }
  rewrite Hnb in Hall. fold m in Hall. exists per. cbn [app] in Hlv.
  split; [done|]. rewrite Hlen, length_range1. split; [lia|]. split; [done|].
  rewrite Hlv. clear Hlv. rewrite <- (Z2Nat.id (epochs FLAGS)) by done.
  rewrite <- length_range1, <- Hlen. clear Hlen.
  induction Hall as [|l per Hl _ IH]; [simpl; lia|].
  cbn [concat length]. rewrite length_app. lia.
Qed.

End LoggedLosses.

(** ** The abscissae of the loss curve *)

Lemma length_concat_uniform {A} (m : Z) (per : list (list A)) :
  Forall (fun l => Z.of_nat (length l) = m) per ->
  Z.of_nat (length (concat per)) = (Z.of_nat (length per) * m)%Z.
Proof.
  induction 1 as [|l per Hl _ IH]; [simpl; lia|].
  cbn [concat length]. rewrite length_app. lia.
Qed.

Lemma epoch_values_lookup (FLAGS : Flags) (loader : DataLoader) (lv : list Q) (j : nat) :
  (j < length lv)%nat ->
  epoch_values FLAGS loader lv !! j =
    Some (inject_Z (Z.of_nat (1 + j))
          * inject_Z (train_batch_size FLAGS * log_interval FLAGS)
          / inject_Z (Z.of_nat (length (dataset loader))))%Q.
Proof.
  intros Hj. unfold epoch_values. cbn zeta.
  rewrite !list_lookup_fmap, lookup_seq_lt by done. done.
Qed.

Section LossCurve.

Context (cross_entropy : list (list Q) -> list Z -> Q).
Context (gradient : Criterion -> Sequential -> list Tensor -> list Tensor).
Context (FLAGS : Flags).

Local Abbreviation main' := (main cross_entropy gradient FLAGS).

(** X15. The loss curve of a completed run has one point per collected
    loss; the point with index j lies at x = (j + 1) * B * L / N, and the
    last point of epoch e lies at or to the right of e, exactly at e when
    B * L * m = N for the number m of logged batches of an epoch (B divides
    N and L divides N / B). *)
Theorem loss_curve_abscissae (env : Env) (r : Run) (train_loader : DataLoader) :
  (0 < log_interval FLAGS)%Z -> (0 <= epochs FLAGS)%Z ->
  mnist_train env <> [] ->
  new_DataLoader (mnist_train env) (train_batch_size FLAGS) true = Ok train_loader ->
  main' env = Ok r ->
  let N := Z.of_nat (length (dataset train_loader)) in
  let B := train_batch_size FLAGS in
  let L := log_interval FLAGS in
  let m := ((Z.of_nat (len_loader train_loader) + L - 1) / L)%Z in
  let curve := loss_curve FLAGS train_loader (loss_values r) in
  curve.*2 = loss_values r /\
  Z.of_nat (length curve) = (epochs FLAGS * m)%Z /\
  (forall j p, curve !! j = Some p ->
     (p.1 == inject_Z (Z.of_nat j + 1) * inject_Z (B * L) / inject_Z N)%Q) /\
  (forall e, (1 <= e <= epochs FLAGS)%Z ->
     exists p, curve !! (Z.to_nat (e * m) - 1)%nat = Some p /\
       (inject_Z e <= p.1)%Q /\
       ((B * L * m = N)%Z -> (p.1 == inject_Z e)%Q)).
Proof.
  intros HL HE Hne Htl H N B L m curve.
  destruct (main_Ok _ _ _ _ _ H) as (tl & tel & net & st & Htl' & _ & Hloop & _).
  rewrite Htl in Htl'. injection Htl' as <-.
  apply epoch_loop_losses in Hloop as (per & Hlv & Hlen & Hall); [|done].
  cbn [app] in Hlv. fold L m in Hall.
  assert (Hlength : Z.of_nat (length (loss_values r)) = (epochs FLAGS * m)%Z).
  { rewrite Hlv, (length_concat_uniform m) by done.
    by rewrite Hlen, length_range1, Z2Nat.id. }
  assert (Hxs : length (epoch_values FLAGS train_loader (loss_values r))
                = length (loss_values r)).
  { unfold epoch_values. cbn zeta. by rewrite !length_fmap, length_seq. }
  assert (HB : (0 < B)%Z /\ dataset train_loader = mnist_train env
               /\ batch_size train_loader = Z.to_nat B).
  { by apply new_DataLoader_Ok in Htl as (HB & _ & ->). }
  destruct HB as (HB & Hds & Hbs).
  assert (HN : (0 < N)%Z).
  { unfold N. rewrite Hds. destruct (mnist_train env); [done | simpl; lia]. }
  assert (Hnb : (N <= Z.of_nat (len_loader train_loader) * B)%Z).
  { pose proof (ceiling_div (length (dataset train_loader)) (Z.to_nat B)
                  ltac:(lia)) as [Hc _].
    unfold len_loader. rewrite Hbs. unfold N. nia. }
  assert (Hm : (Z.of_nat (len_loader train_loader) <= m * L)%Z).
  { unfold m. pose proof (Z.div_mod (Z.of_nat (len_loader train_loader) + L - 1) L
                            ltac:(lia)) as Hdm.
    pose proof (Z.mod_pos_bound (Z.of_nat (len_loader train_loader) + L - 1) L HL).
    nia. }
  assert (Hm1 : (1 <= m)%Z) by nia.
  split; [|split; [|split]].
  - unfold curve, loss_curve. apply snd_zip. by rewrite Hxs.
  - unfold curve, loss_curve. rewrite length_zip_with, Hxs. lia.
  - intros j [x y] Hj. unfold curve, loss_curve in Hj.
    apply lookup_zip_with_Some in Hj as (x' & y' & [= <- <-] & Hx & Hy).
    rewrite epoch_values_lookup in Hx by (by eapply lookup_lt_Some).
    injection Hx as <-. cbn [fst]. fold B L N.
    replace (Z.of_nat j + 1)%Z with (Z.of_nat (1 + j)) by lia. reflexivity.
  - intros e He.
    assert (Hidx : (Z.to_nat (e * m) - 1 < length (loss_values r))%nat) by nia.
    destruct (lookup_lt_is_Some_2 _ _ Hidx) as [y Hy].
    exists ((inject_Z (Z.of_nat (1 + (Z.to_nat (e * m) - 1)))
             * inject_Z (B * L) / inject_Z N)%Q, y).
    split.
    { unfold curve, loss_curve. apply lookup_zip_with_Some. eexists _, _.
      split; [done|]. split; [|done]. by rewrite epoch_values_lookup. }
    cbn [fst].
    replace (Z.of_nat (1 + (Z.to_nat (e * m) - 1))) with (e * m)%Z by nia.
    rewrite <- inject_Z_mult.
    assert (HNQ : (inject_Z 0 < inject_Z N)%Q) by (by rewrite <- Zlt_Qlt).
    split.
    + apply Qle_shift_div_l; [done|]. rewrite <- inject_Z_mult, <- Zle_Qle. nia.
    + intros Heq.
      replace (e * m * (B * L))%Z with (e * N)%Z by (rewrite <- Heq; ring).
      rewrite inject_Z_mult. apply Qdiv_mult_l.
      intros H0. rewrite H0 in HNQ. by apply Qlt_irrefl in HNQ.
Qed.

End LossCurve.

(** ** The default configuration on the full data set *)

Section Defaults.

Context (cross_entropy : list (list Q) -> list Z -> Q).
Context (gradient : Criterion -> Sequential -> list Tensor -> list Tensor).

Local Abbreviation main' := (main cross_entropy gradient default_flags).

(** X16. With the default flags on a training set of 60000 examples (the
    size the script names) an epoch has 469 batches, 5 of them logged, a
    completed run collects 50 loss values, and the last point of epoch e
    of its loss curve lies at x = e * 16 / 15, to the right of e: the curve
    ends at 10.67, not at 10. *)
Theorem default_run_loss_curve (env : Env) (r : Run) (train_loader : DataLoader) :
  length (mnist_train env) = 60000%nat ->
  new_DataLoader (mnist_train env) (train_batch_size default_flags) true
    = Ok train_loader ->
  main' env = Ok r ->
  len_loader train_loader = 469%nat /\
  length (loss_values r) = 50%nat /\
  exists per_epoch : list (list Q),
    loss_values r = concat per_epoch /\ length per_epoch = 10%nat /\
    Forall (fun l => length l = 5%nat) per_epoch /\
    forall e y, (1 <= e <= 10)%nat ->
      loss_values r !! (5 * e - 1)%nat = Some y ->
      exists x, loss_curve default_flags train_loader (loss_values r)
                  !! (5 * e - 1)%nat = Some (x, y) /\
        (x == inject_Z (Z.of_nat e) * (16 # 15))%Q /\ (inject_Z (Z.of_nat e) < x)%Q.
Proof.
  intros HN Htl H.
  destruct (main_Ok _ _ _ _ _ H) as (tl & tel & net & st & Htl' & _ & Hloop & _).
  rewrite Htl in Htl'. injection Htl' as <-.
  apply epoch_loop_losses in Hloop as (per & Hlv & Hlen & Hall); [|done].
  cbn [app] in Hlv.
  assert (Hds : dataset train_loader = mnist_train env /\ batch_size train_loader = 128%nat).
  { by apply new_DataLoader_Ok in Htl as (_ & _ & ->). }
  destruct Hds as [Hds Hbs].
  assert (Hnb : len_loader train_loader = 469%nat).
  { unfold len_loader. rewrite Hds, Hbs, HN. vm_compute. reflexivity. }
  rewrite Hnb in Hall.
  assert (Hall' : Forall (fun l : list Q => length l = 5%nat) per).
  { eapply Forall_impl; [exact Hall|]. intros l Hl. cbn in Hl.
    change ((Z.of_nat 469 + 100 - 1) / 100)%Z with 5%Z in Hl. lia. }
  assert (Hlen' : length per = 10%nat) by (by rewrite Hlen).
  assert (Hlength : length (loss_values r) = 50%nat).
  { assert (Hc : length (concat per) = (length per * 5)%nat).
    { clear -Hall'. induction Hall' as [|l per Hl _ IH]; [done|].
      cbn [concat length]. rewrite length_app, Hl, IH. lia. }
    by rewrite Hlv, Hc, Hlen'. }
  split; [done|]. split; [done|]. exists per. split; [done|]. split; [done|].
  split; [done|].
  intros e y He Hy. eexists. split.
  - unfold loss_curve. apply lookup_zip_with_Some. eexists _, _.
    split; [reflexivity|]. split; [|exact Hy].
    apply epoch_values_lookup. by eapply lookup_lt_Some.
  - rewrite Hds, HN.
    replace (Z.of_nat (1 + (5 * e - 1))) with (5 * Z.of_nat e)%Z by lia.
    change (train_batch_size default_flags * log_interval default_flags)%Z with 12800%Z.
    change (Z.of_nat 60000) with 60000%Z.
    assert (Hx : (inject_Z (5 * Z.of_nat e) * inject_Z 12800 / inject_Z 60000
                  == inject_Z (Z.of_nat e) * (16 # 15))%Q).
    { rewrite inject_Z_mult. field. }
    split; [exact Hx|]. rewrite Hx.
    assert (He0 : (0 < inject_Z (Z.of_nat e))%Q).
    { change 0%Q with (inject_Z 0). rewrite <- Zlt_Qlt. lia. }
    rewrite <- (Qmult_1_r (inject_Z (Z.of_nat e))) at 1.
    by apply Qmult_lt_l.
Qed.

End Defaults.

(** ** The last report of a run *)


Section LastReport.

Context (cross_entropy : list (list Q) -> list Z -> Q).
Context (gradient : Criterion -> Sequential -> list Tensor -> list Tensor).
Context (FLAGS : Flags).

Local Abbreviation main' := (main cross_entropy gradient FLAGS).


End LastReport.

(** ** Restoring a checkpoint *)

Lemma restored_Some (ckpt : gmap string Tensor) (name : string) (p t : Tensor) :
  restored ckpt name p = Some t <-> ckpt !! name = Some t /\ shape t = shape p.
Proof.
  unfold restored. destruct (ckpt !! name) as [t'|]; [|by split; [|intros []]].
  case_bool_decide; split; try done.
  - by intros [= ->].
  - by intros [[= ->] _].
  - intros [[= ->] ?]. done.
Qed.

Lemma load_module_Some (ckpt : gmap string Tensor) (i : nat) (l l' : Module) :
  load_module ckpt i l = Some l' -> same_kind l l' /\ held ckpt i l'.
Proof.
  destruct l as [w b| |k| |w b]; simpl; try (intros [= <-]; done).
  - destruct (restored ckpt (weight_name i) w) as [w'|] eqn:Hw; [|done].
    destruct (restored ckpt (bias_name i) b) as [b'|] eqn:Hb; [|done].
    intros [= <-]. apply restored_Some in Hw as [Hw Hws], Hb as [Hb Hbs]. done.
  - destruct (restored ckpt (weight_name i) w) as [w'|] eqn:Hw; [|done].
    destruct (restored ckpt (bias_name i) b) as [b'|] eqn:Hb; [|done].
    intros [= <-]. apply restored_Some in Hw as [Hw Hws], Hb as [Hb Hbs]. done.
Qed.

Lemma load_modules_Some (ckpt : gmap string Tensor) (k : nat) (m m' : Sequential) :
  load_modules ckpt k m = Some m' ->
  same_topology m m' /\
  forall j l', m' !! j = Some l' -> held ckpt (k + j) l'.
Proof.
  revert k m'. induction m as [|l m IH]; intros k m'; cbn [load_modules].
  - intros [= <-]. split; [constructor | done].
  - destruct (load_module ckpt k l) as [l1|] eqn:Hl; [|done]. cbn.
    destruct (load_modules ckpt (S k) m) as [m1|] eqn:Hm; [|done]. cbn.
    intros [= <-]. apply load_module_Some in Hl as [Hk Hh].
    apply IH in Hm as [Ht Hheld]. split; [by constructor|].
    intros [|j] l' Hj.
    + injection Hj as <-. by rewrite Nat.add_0_r.
    + replace (k + S j)%nat with (S k + j)%nat by lia. by apply Hheld.
Qed.

Lemma elem_of_named_parameters_from (k : nat) (m : Sequential) (n : string) (t : Tensor) :
  (n, t) ∈ named_parameters_from k m ->
  exists j l, m !! j = Some l /\ (n, t) ∈ named_module_parameters (k + j) l.
Proof.
  revert k. induction m as [|l m IH]; intros k; cbn [named_parameters_from].
  - by intros ?%elem_of_nil.
  - intros [H|H]%elem_of_app.
    + exists 0%nat, l. by rewrite Nat.add_0_r.
    + apply IH in H as (j & l' & Hj & H). exists (S j), l'.
      by replace (k + S j)%nat with (S k + j)%nat by lia.
Qed.

Lemma held_lookup (sd : gmap string Tensor) (i : nat) (l : Module) (n : string)
    (t : Tensor) :
  held sd i l -> (n, t) ∈ named_module_parameters i l -> sd !! n = Some t.
Proof.
  destruct l as [w b| |k| |w b]; simpl; try (by intros _ ?%elem_of_nil).
  all: intros [Hw Hb] H; apply elem_of_cons in H as [[= -> ->]|H]; [done|];
    apply list_elem_of_singleton in H as [= -> ->]; done.
Qed.

Lemma load_modules_total (ckpt : gmap string Tensor) (k : nat) (m : Sequential) :
  (forall j l n p, m !! j = Some l -> (n, p) ∈ named_module_parameters (k + j) l ->
     exists t, ckpt !! n = Some t /\ shape t = shape p) ->
  is_Some (load_modules ckpt k m).
Proof.
  revert k. induction m as [|l m IH]; intros k H; cbn [load_modules]; [done|].
  assert (Hl : is_Some (load_module ckpt k l)).
  { specialize (H 0%nat l). rewrite Nat.add_0_r in H.
    destruct l as [w b| |k'| |w b]; simpl; try done.
    - destruct (H (weight_name k) w eq_refl) as (tw & Hw & Hws); [set_solver|].
      destruct (H (bias_name k) b eq_refl) as (tb & Hb & Hbs); [set_solver|].
      rewrite (proj2 (restored_Some ckpt (weight_name k) w tw) (conj Hw Hws)).
      rewrite (proj2 (restored_Some ckpt (bias_name k) b tb) (conj Hb Hbs)). done.
    - destruct (H (weight_name k) w eq_refl) as (tw & Hw & Hws); [set_solver|].
      destruct (H (bias_name k) b eq_refl) as (tb & Hb & Hbs); [set_solver|].
      rewrite (proj2 (restored_Some ckpt (weight_name k) w tw) (conj Hw Hws)).
      rewrite (proj2 (restored_Some ckpt (bias_name k) b tb) (conj Hb Hbs)). done. }
  destruct Hl as [l' ->]. cbn.
  destruct (IH (S k)) as [m' ->]; [|done].
  intros j l0 n p Hj Hn. apply (H (S j) l0); [done|].
  by replace (k + S j)%nat with (S k + j)%nat by lia.
Qed.

Lemma state_dict_lookup (m : Sequential) (n : string) (t : Tensor) :
  state_dict m !! n = Some t ->
  exists j l, m !! j = Some l /\ (n, t) ∈ named_module_parameters j l.
Proof.
  unfold state_dict, named_parameters. intros H%elem_of_list_to_map_2.
  by apply (elem_of_named_parameters_from 0) in H.
Qed.

Lemma lookup_state_dict (m : Sequential) (j : nat) (l : Module) (n : string)
    (t : Tensor) :
  m !! j = Some l -> (n, t) ∈ named_module_parameters j l ->
  state_dict m !! n = Some t.
Proof.
  intros Hj Hn. eapply held_lookup; [|exact Hn].
  by apply (named_parameters_from_held 0 m j l).
Qed.

Lemma load_state_dict_Ok (m m' : Sequential) (ckpt : gmap string Tensor) :
  load_state_dict m ckpt = Ok m' ->
  dom ckpt ⊆ dom (state_dict m) /\ same_topology m m' /\
  forall j l', m' !! j = Some l' -> held ckpt j l'.
Proof.
  unfold load_state_dict. case_bool_decide as Hdom; [|done].
  destruct (load_modules ckpt 0 m) as [m1|] eqn:Hm; [|done].
  intros [= <-]. by apply load_modules_Some in Hm as [Ht Hh].
Qed.

Lemma dom_state_dict_same_topology (m m' : Sequential) :
  same_topology m m' -> dom (state_dict m) = dom (state_dict m').
Proof.
  intros Ht. unfold state_dict, named_parameters. rewrite !dom_list_to_map_L.
  by rewrite (same_topology_names 0 m m' Ht).
Qed.

Lemma load_state_dict_restores (m m' : Sequential) (ckpt : gmap string Tensor) :
  load_state_dict m ckpt = Ok m' -> state_dict m' = ckpt.
Proof.
  intros (Hdom & Ht & Hh)%load_state_dict_Ok. apply map_eq. intros n.
  destruct (state_dict m' !! n) as [t|] eqn:Hn.
  - apply state_dict_lookup in Hn as (j & l & Hj & Hn). symmetry.
    eapply held_lookup; [|exact Hn]. by apply Hh.
  - symmetry. apply not_elem_of_dom. intros Hin. apply Hdom in Hin.
    apply not_elem_of_dom in Hn. apply Hn.
    by rewrite <- (dom_state_dict_same_topology m m' Ht).
Qed.

(** X18. [load_state_dict] succeeds exactly when the checkpoint has the
    names of the parameters of the model, no more and no fewer, each with
    a tensor of the shape of the parameter; the model it returns has the
    topology of the old one and its state dictionary is the checkpoint
    (loading, then saving, gives the checkpoint back); a checkpoint that
    does not fit raises [RuntimeError]. *)
Theorem load_state_dict_strict (m : Sequential) (ckpt : gmap string Tensor) :
  (is_Ok (load_state_dict m ckpt) <->
     dom ckpt = dom (state_dict m) /\
     forall n p t, state_dict m !! n = Some p -> ckpt !! n = Some t ->
       shape t = shape p) /\
  (forall m', load_state_dict m ckpt = Ok m' ->
     state_dict m' = ckpt /\ same_topology m m') /\
  (forall e, load_state_dict m ckpt = Error e -> e = RuntimeError).
Proof.
  split; [split|split].
  - intros [m' Hm']. pose proof (load_state_dict_restores _ _ _ Hm') as Hsd'.
    destruct (load_state_dict_Ok _ _ _ Hm') as (Hdom & Ht & Hh). split.
    + rewrite <- Hsd' at 1. symmetry. by apply dom_state_dict_same_topology.
    + intros n p t Hp Hc. apply state_dict_lookup in Hp as (j & l & Hj & Hn).
      destruct (Forall2_lookup_l _ _ _ _ _ Ht Hj) as (l' & Hj' & Hk).
      specialize (Hh _ _ Hj').
      destruct l as [w b| |k| |w b], l' as [w' b'| |k'| |w' b']; simpl in *;
        try done; try (by apply elem_of_nil in Hn).
      all: destruct Hk as [Hws Hbs], Hh as [Hw Hb];
        apply elem_of_cons in Hn as [[= -> ->]|Hn];
        [|apply list_elem_of_singleton in Hn as [= -> ->]]; congruence.
  - intros [Hdom Hshape]. unfold load_state_dict.
    rewrite bool_decide_true by (by rewrite Hdom).
    destruct (load_modules_total ckpt 0 m) as [m' ->]; [|by eexists].
    intros j l n p Hj Hn. pose proof (lookup_state_dict _ _ _ _ _ Hj Hn) as Hp.
    assert (Hin : n ∈ dom ckpt) by (rewrite Hdom; by apply elem_of_dom_2 in Hp).
    apply elem_of_dom in Hin as [t Ht]. exists t. split; [done|]. by eapply Hshape.
  - intros m' Hm'. split; [by eapply load_state_dict_restores|].
    by apply load_state_dict_Ok in Hm' as (_ & ? & _).
  - intros e. unfold load_state_dict. repeat case_match; congruence.
Qed.

(** ** What a run writes *)


Section Written.

Context (cross_entropy : list (list Q) -> list Z -> Q).
Context (gradient : Criterion -> Sequential -> list Tensor -> list Tensor).
Context (FLAGS : Flags).

Local Abbreviation main' := (main cross_entropy gradient FLAGS).




End Written.

(** ** How a run starts *)

Section Startup.

Context (cross_entropy : list (list Q) -> list Z -> Q).
Context (gradient : Criterion -> Sequential -> list Tensor -> list Tensor).
Context (FLAGS : Flags).

Local Abbreviation main' := (main cross_entropy gradient FLAGS).

(** X20. A run fails before its first epoch with [ValueError] when a batch
    size is not positive, a data set is empty or the learning rate is
    negative; with valid values of these and a start checkpoint whose path
    is not empty it fails with [FileNotFoundError] when there is no such
    file and with [RuntimeError] when the file does not fit [Model]. *)
Theorem main_startup_errors (env : Env) :
  ((train_batch_size FLAGS <= 0)%Z \/ (test_batch_size FLAGS <= 0)%Z
   \/ mnist_train env = [] \/ mnist_test env = []
   \/ Qle_bool 0 (lr FLAGS) = false ->
   main' env = Error ValueError) /\
  ((0 < train_batch_size FLAGS)%Z -> (0 < test_batch_size FLAGS)%Z ->
   mnist_train env <> [] -> mnist_test env <> [] ->
   Qle_bool 0 (lr FLAGS) = true ->
   forall path, start_checkpoint FLAGS = Some path -> path <> "" ->
     match files env !! path with
     | None => main' env = Error FileNotFoundError
     | Some ckpt =>
         ~ is_Ok (load_state_dict (Model (init_values env)) ckpt) ->
         main' env = Error RuntimeError
     end).
Proof.
  split.
  - intros H. unfold main.
    destruct (new_DataLoader (mnist_train env) _ _) as [tl|e] eqn:Htl.
    2: { by apply new_DataLoader_Error in Htl as ->. }
    destruct (new_DataLoader (mnist_test env) _ _) as [tel|e] eqn:Htel.
    2: { by apply new_DataLoader_Error in Htel as ->. }
    apply new_DataLoader_Ok in Htl as (H1 & Htr & _).
    apply new_DataLoader_Ok in Htel as (H2 & Hte & _).
    cbn [mbind result_bind].
    destruct H as [H|[H|[H|[H|H]]]]; [lia|lia|by destruct Htr|by destruct Hte|].
    by rewrite H.
  - intros H1 H2 Htr Hte H3 path Hp Hne. unfold main.
    rewrite !new_DataLoader_nonempty by done. cbn [mbind result_bind].
    rewrite H3. cbn [mbind result_bind]. rewrite Hp.
    rewrite (proj2 (String.eqb_neq _ _)) by done. unfold torch_load.
    destruct (files env !! path) as [ckpt|]; [|done]. cbn [mbind result_bind].
    intros Hload.
    destruct (load_state_dict (Model (init_values env)) ckpt) as [net|e] eqn:E.
    + exfalso. apply Hload. by exists net.
    + cbn [mbind result_bind]. f_equal. revert E. unfold load_state_dict.
      repeat case_match; congruence.
Qed.


End Startup.

(** ** The transform of the data set and the completion of a run *)

Lemma transform_pixel_lt (p q : Z) :
  (p < q)%Z ->
  ((inject_Z p / 255 - 0.1307) / 0.3081 < (inject_Z q / 255 - 0.1307) / 0.3081)%Q.
Proof.
  intros H. unfold Qlt, Qdiv, Qminus, Qplus, Qmult, Qinv, Qopp, inject_Z. simpl. lia.
Qed.

Lemma transform_pixel_le (p q : Z) :
  (p <= q)%Z ->
  ((inject_Z p / 255 - 0.1307) / 0.3081 <= (inject_Z q / 255 - 0.1307) / 0.3081)%Q.
Proof.
  intros H. unfold Qle, Qdiv, Qminus, Qplus, Qmult, Qinv, Qopp, inject_Z. simpl. lia.
Qed.

(** X22. The transform of the data set turns an H x W image into a
    1 x H x W tensor with one value per pixel; the value of a pixel from 0
    to 255 lies between -0.4243 and 2.8215, it is negative for the pixels
    up to 33 and positive from 34 on (the mean 0.1307 is the pixel 33.3),
    and a darker pixel becomes a smaller value.  The bounds leave room for
    the rounding of [float32] arithmetic. *)
Theorem transform_normalizes (img : Image) :
  shape (transform img) = [1; height img; width img]%nat /\
  length (data (transform img)) = length (pixels img) /\
  (forall i p, pixels img !! i = Some p -> (0 <= p <= 255)%Z ->
     exists x, data (transform img) !! i = Some x /\
       (- 0.4243 <= x <= 2.8215)%Q /\
       ((p <= 33)%Z -> (x < 0)%Q) /\
       ((34 <= p)%Z -> (0 < x)%Q)) /\
  (forall i j p q x y,
     pixels img !! i = Some p -> pixels img !! j = Some q ->
     data (transform img) !! i = Some x -> data (transform img) !! j = Some y ->
     (p < q)%Z -> (x < y)%Q).
Proof.
  unfold transform, Normalize, ToTensor. cbn [shape data].
  split; [done|]. split; [by rewrite !length_fmap|]. split.
  - intros i p Hp Hr. rewrite !list_lookup_fmap, Hp. cbn. eexists. split; [done|].
    split; [split|split].
    + eapply Qle_trans; [|apply (transform_pixel_le 0 p); lia]. by vm_compute.
    + eapply Qle_trans; [apply (transform_pixel_le p 255); lia|]. by vm_compute.
    + intros H. eapply Qle_lt_trans; [apply (transform_pixel_le p 33); lia|].
      by vm_compute.
    + intros H. eapply Qlt_le_trans; [|apply (transform_pixel_le 34 p); lia].
      by vm_compute.
  - intros i j p q x y Hp Hq. rewrite !list_lookup_fmap, Hp, Hq. cbn.
    intros [= <-] [= <-]. apply transform_pixel_lt.
Qed.

Lemma mnist_raw_fits (ex : Image * Z) :
  mnist_raw ex -> fits [1; 28; 28]%nat (transform ex.1, ex.2).
Proof.
  intros (Hh & Hw & Hp & Hy). unfold fits, valid, transform, Normalize, ToTensor.
  cbn [fst snd shape data]. rewrite Hh, Hw, !length_fmap, Hp. done.
Qed.

Section Completion.

Context (cross_entropy : list (list Q) -> list Z -> Q).
Context (gradient : Criterion -> Sequential -> list Tensor -> list Tensor).
Context (FLAGS : Flags).

Local Abbreviation epoch_body' := (epoch_body cross_entropy gradient FLAGS).
Local Abbreviation main' := (main cross_entropy gradient FLAGS).

Lemma epoch_loop_total (train_loader test_loader : DataLoader) (loss : string)
    (es : list Z) (st : State) (lv : list Q) (s : list nat) :
  log_interval FLAGS <> 0%Z ->
  (0 < batch_size train_loader)%nat -> (0 < batch_size test_loader)%nat ->
  dataset test_loader <> [] ->
  Forall (fits s) (dataset train_loader) ->
  Forall (fits s) (dataset test_loader) ->
  infer (model st) s = Ok [10%nat] ->
  is_Ok (foldM (epoch_body' train_loader test_loader loss) es (st, lv)).
Proof.
  intros HL HB1 HB2 Hne H1 H2 Hm.
  destruct (foldM_total
    (fun acc : State * list Q => infer (model acc.1) s = Ok [10%nat])
    (fun _ : Z => True)
    (epoch_body' train_loader test_loader loss) es (st, lv))
    as (acc & Hacc & _).
  - by apply Forall_true.
  - done.
  - intros [st1 lv1] e _ Hinv.
    destruct (epoch_body_total cross_entropy gradient FLAGS train_loader test_loader
                loss st1 lv1 e s) as (st' & lv' & Hb & Hinv'); try done.
    by exists (st', lv').
  - by exists acc.
Qed.

(** X23. On data of the MNIST format (28 x 28 images of 784 pixels, labels
    0 to 9, neither split empty) a run without [--save_model] raises no
    exception before the plot, and completes when the plot does, for every
    loss name, every number of epochs and every seed, when the batch sizes
    are positive, the learning rate is not negative, [log_interval] is not
    0 and the start checkpoint, if one is given, is a file that fits
    [Model].  (The tensors are host tensors, which the conversion
    [target.numpy()] of the MSE branch needs.) *)
Theorem main_completes_on_mnist (env : Env) (raw_train raw_test : list (Image * Z)) :
  mnist_train env = MNIST raw_train -> mnist_test env = MNIST raw_test ->
  Forall mnist_raw raw_train -> Forall mnist_raw raw_test ->
  raw_train <> [] -> raw_test <> [] ->
  (0 < train_batch_size FLAGS)%Z -> (0 < test_batch_size FLAGS)%Z ->
  Qle_bool 0 (lr FLAGS) = true ->
  log_interval FLAGS <> 0%Z ->
  save_model FLAGS = false ->
  (forall path, start_checkpoint FLAGS = Some path -> path <> "" ->
     exists ckpt, files env !! path = Some ckpt /\
       is_Ok (load_state_dict (Model (init_values env)) ckpt)) ->
  is_Ok (main' env).
Proof.
  intros Htr Hte Hrtr Hrte Hne0 Hne H1 H2 H3 HL Hsave Hck. unfold main.
  assert (Htr0 : mnist_train env <> []) by (rewrite Htr; by destruct raw_train).
  assert (Hte0 : mnist_test env <> []) by (rewrite Hte; by destruct raw_test).
  rewrite !new_DataLoader_nonempty by done.
  cbn [mbind result_bind].
  rewrite H3. cbn [mbind result_bind].
  assert (Hnet : exists net,
    match start_checkpoint FLAGS with
    | Some path =>
        if String.eqb path "" then Ok (Model (init_values env))
        else ckpt ← torch_load (files env) path;
             load_state_dict (Model (init_values env)) ckpt
    | None => Ok (Model (init_values env))
    end = Ok net /\ same_topology (Model (init_values env)) net).
  { destruct (start_checkpoint FLAGS) as [path|]; [|by eexists].
    destruct (String.eqb_spec path ""); [by eexists|].
    destruct (Hck path eq_refl) as (ckpt & Hf & [net Hnet]); [done|].
    exists net. unfold torch_load. rewrite Hf. cbn [mbind result_bind].
    split; [done|]. by apply load_state_dict_Ok in Hnet as (_ & ? & _). }
  destruct Hnet as (net & -> & Htop). cbn [mbind result_bind].
  assert (Hfit : forall raw, Forall mnist_raw raw -> Forall (fits [1; 28; 28]%nat) (MNIST raw)).
  { intros raw Hraw. unfold MNIST. apply Forall_fmap.
    eapply Forall_impl; [exact Hraw|]. intros ex. apply mnist_raw_fits. }
  destruct (epoch_loop_total
    {| dataset := mnist_train env;
       batch_size := Z.to_nat (train_batch_size FLAGS); shuffle := true |}
    {| dataset := mnist_test env;
       batch_size := Z.to_nat (test_batch_size FLAGS); shuffle := true |}
    (loss_fn FLAGS) (range1 (epochs FLAGS))
    (initial_state net (lr FLAGS) (seed env)) [] [1; 28; 28]%nat)
    as [[st lv] ->]; cbn [dataset batch_size]; try lia; try done.
  - rewrite Htr. by apply Hfit.
  - rewrite Hte. by apply Hfit.
  - cbn [model initial_state]. rewrite <- (infer_same_topology _ _ _ Htop).
    apply model_infer.
  - by eexists.
Qed.

End Completion.

(** * The properties on concrete runs *)

Lemma small_env_runnable (FLAGS : Flags) :
  FLAGS = default_flags \/ FLAGS = two_epochs \/ FLAGS = unknown_loss ->
  runnable FLAGS small_env = true.
Proof. intros [-> | [-> | ->]]; vm_compute; reflexivity. Qed.

(** C1 (as stated, refuted): with the loss name "NLL", neither "CE" nor
    "MSE", the run on the small environment does not fail, it completes its
    two epochs. *)
Lemma unknown_loss_name_runs :
  loss_fn unknown_loss <> "CE" /\ loss_fn unknown_loss <> "MSE" /\
  exists r, main hard_cross_entropy unit_gradient unknown_loss small_env = Ok r.
Proof.
  split; [done|]. split; [done|].
  apply main_total, small_env_runnable. right. by right.
Qed.

Lemma loss_selection_witness :
  exists st' tmp',
    train_batch hard_cross_entropy unit_gradient two_epochs tiny_loader "NLL" 1
      (tiny_state, []) (0%nat, [tiny_example 1 2 1]) = Ok (st', tmp') /\
    exists (output : list Tensor) (out : list (list Q)) (l : Q),
      call (model tiny_state) ([tiny_example 1 2 1].*1) = Ok output /\
      scores output = Ok out /\
      In (OptimizerStep 1 0 l) (trace st') /\
      model st' = updated unit_gradient "NLL" tiny_state [tiny_example 1 2 1] /\
      select_loss "NLL" [1%Z] = MSELoss (one_hot [1%Z]) /\
      select_loss "NLL" [1%Z] = select_loss "MSE" [1%Z] /\
      mse_loss out (one_hot [1%Z]) = Ok l.
Proof.
  destruct (train_batch hard_cross_entropy unit_gradient two_epochs tiny_loader
              "NLL" 1 (tiny_state, []) (0%nat, [tiny_example 1 2 1]))
    as [[st' tmp']|e] eqn:H.
  - exists st', tmp'. split; [reflexivity|].
    destruct (loss_selection _ _ _ _ _ _ _ _ _ _ _ _ H)
      as (output & out & l & Hcall & Hsc & Hin & Hm & _ & Hmse).
    exists output, out, l. repeat (split; [assumption|]).
    apply Hmse. discriminate.
  - vm_compute in H. discriminate H.
Defined.

Lemma test_reports_accuracy_and_mean_loss_witness :
  exists st', test tiny_state tiny_loader = Ok st' /\
    let total := Z.of_nat (length (dataset tiny_loader)) in
    let correct := correct_count (model tiny_state) (dataset tiny_loader) in
    exists mean_loss percent,
      trace st' = trace tiny_state
                  ++ [TestPass; PrintTest mean_loss correct total percent] /\
      (0 < total)%Z /\ (0 <= correct <= total)%Z /\
      (percent == 100 * (inject_Z correct / inject_Z total))%Q /\
      (mean_loss == summed_nll (model tiny_state) (dataset tiny_loader)
                    / inject_Z total)%Q.
Proof.
  destruct (test tiny_state tiny_loader) as [st'|e] eqn:H.
  - exists st'. split; [reflexivity|].
    exact (test_reports_accuracy_and_mean_loss _ _ _ H).
  - vm_compute in H. discriminate H.
Defined.

Lemma test_preserves_parameters_witness :
  exists st', test tiny_state tiny_loader = Ok st' /\
    model st' = model tiny_state /\
    parameters (model st') = parameters (model tiny_state) /\
    grad st' = grad tiny_state /\
    grad_enabled st' = grad_enabled tiny_state /\
    optimizer_lr st' = optimizer_lr tiny_state /\
    last_epoch st' = last_epoch tiny_state /\
    training st' = false /\
    exists test_loss correct total percent,
      trace st' = trace tiny_state
                  ++ [TestPass; PrintTest test_loss correct total percent].
Proof.
  destruct (test tiny_state tiny_loader) as [st'|e] eqn:H.
  - exists st'. split; [reflexivity|].
    exact (test_preserves_parameters _ _ _ H).
  - vm_compute in H. discriminate H.
Defined.

Lemma train_logs_every_log_interval_witness :
  exists st' tmp_loss,
    train hard_cross_entropy unit_gradient two_epochs tiny_state tiny_loader "CE" 1
      = Ok (st', tmp_loss) /\
    exists (sizes : list nat) (losses : list Q),
      length sizes = 2%nat /\ length losses = 2%nat /\
      trace st' = trace tiny_state ++ TrainPass 1 ::
        mbind (batch_events 100 1 3 2) (zip (zip [0; 1]%nat sizes) losses) /\
      tmp_loss = logged_from 100 0 losses /\
      tmp_loss = take 1 losses /\
      forall i, (0 < i < 2)%nat -> logged 100 i = false.
Proof.
  destruct (train hard_cross_entropy unit_gradient two_epochs tiny_state
              tiny_loader "CE" 1) as [[st' tmp_loss]|e] eqn:H.
  - exists st', tmp_loss. split; [reflexivity|].
    destruct (train_logs_every_log_interval _ _ _ _ _ _ _ _ _ H)
      as (sizes & losses & Hs & Hl & Htr & Hlog & Hfirst).
    exists sizes, losses. repeat (split; [assumption|]).
    apply Hfirst. reflexivity.
  - vm_compute in H. discriminate H.
Defined.

Lemma learning_rate_after_epochs_witness :
  (0 <= epochs default_flags)%Z /\
  exists r, main hard_cross_entropy unit_gradient default_flags small_env = Ok r /\
    optimizer_lr (final r)
      = Nat.iter (Z.to_nat (epochs default_flags)) (fun rate => rate * 0.7)%Q
          (lr default_flags) /\
    (optimizer_lr (final r) == lr default_flags * 0.7 ^ epochs default_flags)%Q /\
    last_epoch (final r) = epochs default_flags.
Proof.
  split; [done|].
  destruct (main_total hard_cross_entropy unit_gradient default_flags small_env)
    as [r Hr].
  - apply small_env_runnable. by left.
  - exists r. split; [exact Hr|].
    apply (learning_rate_after_epochs hard_cross_entropy unit_gradient default_flags
             small_env r); [done | exact Hr].
Defined.


Lemma checkpoint_round_trip_witness :
  same_topology (Model biased_init) (Model fresh_init) /\
  exists loaded,
    (ckpt ← torch_load
               (torch_save (state_dict (Model biased_init)) "downloads/mnist_cnn.pth" ∅)
               "downloads/mnist_cnn.pth";
     load_state_dict (Model fresh_init) ckpt) = Ok loaded /\
    parameters loaded = parameters (Model biased_init) /\
    call loaded [zero_image] = call (Model biased_init) [zero_image] /\
    mapM (predicted loaded) [zero_image]
      = mapM (predicted (Model biased_init)) [zero_image].
Proof.
  assert (H : same_topology (Model biased_init) (Model fresh_init))
    by apply Model_same_topology.
  split; [exact H|].
  exact (checkpoint_round_trip _ _ _ _ _ H).
Defined.

Lemma one_hot_ten_classes_witness :
  "MSE" <> "CE" /\ [3; 12]%Z !! 0%nat = Some 3%Z /\ [3; 12]%Z !! 1%nat = Some 12%Z /\
  (exists (rows : list (list Q)) (row : list Q),
     select_loss "MSE" [3; 12]%Z = MSELoss rows /\
     length rows = 2%nat /\
     rows !! 0%nat = Some row /\
     length row = 10%nat /\
     row !! 3%nat = Some 1%Q) /\
  (exists (rows : list (list Q)) (row : list Q),
     select_loss "MSE" [3; 12]%Z = MSELoss rows /\
     length rows = 2%nat /\
     rows !! 1%nat = Some row /\
     length row = 10%nat /\
     row = repeat 0%Q 10).
Proof.
  assert (H1 : "MSE" <> "CE") by discriminate.
  split; [exact H1|]. split; [reflexivity|]. split; [reflexivity|]. split.
  - destruct (one_hot_ten_classes "MSE" [3; 12]%Z 0 3 H1 eq_refl)
      as (rows & row & Hsel & Hlen & Hrow & Hten & _ & Hin & _).
    exists rows, row. repeat (split; [assumption|]). apply Hin. lia.
  - destruct (one_hot_ten_classes "MSE" [3; 12]%Z 1 12 H1 eq_refl)
      as (rows & row & Hsel & Hlen & Hrow & Hten & _ & _ & Hout).
    exists rows, row. repeat (split; [assumption|]). apply Hout. lia.
Defined.

(** The logged losses depend on the state of the random generator, which
    the script never sets: from another state the sampler draws another
    order, and the logged loss differs. *)
Example seed_changes_logged_losses :
  snd <$> train hard_cross_entropy unit_gradient two_epochs tiny_state
            tiny_loader "MSE" 1
  <> snd <$> train hard_cross_entropy unit_gradient two_epochs tiny_state_reseeded
               tiny_loader "MSE" 1.
Proof. intros H. vm_compute in H. discriminate H. Qed.

(** Training, unlike evaluation, moves the parameters. *)
Example train_moves_parameters :
  (fun r => parameters (model r.1))
    <$> train hard_cross_entropy unit_gradient two_epochs tiny_state
          tiny_loader "CE" 1
  <> Ok (parameters (model tiny_state)).
Proof. intros H. vm_compute in H. discriminate H. Qed.

(** In the MSE branch a label outside 0..9 raises no error: the step
    completes with the loss against the all-zero row. *)
Example out_of_range_label_trains :
  snd <$> train_batch hard_cross_entropy unit_gradient two_epochs tiny_loader
            "MSE" 1 (tiny_state, []) (0%nat, [tiny_example 1 2 12])
  = Ok [0.1%Q].
Proof. vm_compute. reflexivity. Qed.

(** With the cross-entropy the same label is rejected. *)
Example out_of_range_label_cross_entropy :
  train_batch hard_cross_entropy unit_gradient two_epochs tiny_loader
    "CE" 1 (tiny_state, []) (0%nat, [tiny_example 1 2 12])
  = Error IndexError.
Proof. vm_compute. reflexivity. Qed.

(** A logging interval of 0 stops the pass at its first batch. *)
Example zero_log_interval_raises :
  train hard_cross_entropy unit_gradient
    {| data_dir := "downloads"; train_batch_size := 2; test_batch_size := 10000;
       loss_fn := "CE"; epochs := 2; lr := 0.10; log_interval := 0;
       start_checkpoint := None; save_model := false;
       save_checkpoint := "downloads/mnist_cnn.pth";
       loss_fig := "downloads/loss_curve.png" |}
    tiny_state tiny_loader "CE" 1
  = Error ZeroDivisionError.
Proof. vm_compute. reflexivity. Qed.

(** * The further properties on concrete runs *)

Lemma Model_layer_shapes_witness :
  shape zero_image = [1; 28; 28]%nat /\
  Forall (fun '(k, s) => exists y,
            forward (take k (Model biased_init)) zero_image = Ok y /\ shape y = s /\
            (valid zero_image -> length (data y) = numel s))
    [ (2, [32; 26; 26]); (4, [64; 24; 24]); (5, [64; 12; 12]); (6, [9216]);
      (8, [128]); (9, [10]) ]%nat.
Proof.
  split; [reflexivity|]. apply (Model_layer_shapes biased_init zero_image). reflexivity.
Defined.

Lemma prediction_is_first_maximum_witness :
  exists p, predicted tiny_model (tiny_example 1 2 1).1 = Ok p /\
    exists row,
      example_scores tiny_model (tiny_example 1 2 1).1 = Ok row /\
      (0 <= p < Z.of_nat (length row))%Z /\
      (forall j, (j < length row)%nat -> (get row j <= get row (Z.to_nat p))%Q) /\
      (forall j, (j < Z.to_nat p)%nat -> (get row j < get row (Z.to_nat p))%Q).
Proof.
  destruct (predicted tiny_model (tiny_example 1 2 1).1) as [p|e] eqn:H.
  - exists p. split; [reflexivity|]. exact (prediction_is_first_maximum _ _ _ H).
  - vm_compute in H. discriminate H.
Defined.

Lemma batches_of_a_pass_witness :
  (0 < batch_size tiny_loader)%nat /\
  exists order,
    order ≡ₚ dataset tiny_loader /\
    (shuffle tiny_loader = false -> order = dataset tiny_loader) /\
    concat (sample tiny_loader tiny_state).1 = order /\
    length (sample tiny_loader tiny_state).1 = len_loader tiny_loader /\
    forall i b, (sample tiny_loader tiny_state).1 !! i = Some b ->
      b = take (batch_size tiny_loader) (drop (i * batch_size tiny_loader) order) /\
      (0 < length b <= batch_size tiny_loader)%nat /\
      (S i < len_loader tiny_loader -> length b = batch_size tiny_loader)%nat.
Proof.
  assert (H : (0 < batch_size tiny_loader)%nat) by (cbn; lia).
  split; [exact H|]. exact (batches_of_a_pass tiny_loader tiny_state H).
Defined.

Lemma train_ignores_stale_gradients_witness :
  dataset tiny_loader <> [] /\
  train hard_cross_entropy unit_gradient two_epochs
    (set_grad stale_gradients tiny_state) tiny_loader "CE" 1
  = train hard_cross_entropy unit_gradient two_epochs tiny_state tiny_loader "CE" 1.
Proof.
  assert (H : dataset tiny_loader <> []) by discriminate.
  split; [exact H|].
  exact (train_ignores_stale_gradients hard_cross_entropy unit_gradient two_epochs
           tiny_state stale_gradients tiny_loader "CE" 1 H).
Defined.

Lemma mse_training_losses_nonnegative_witness :
  "MSE" <> "CE" /\
  exists st' tmp_loss,
    train hard_cross_entropy unit_gradient two_epochs tiny_state tiny_loader "MSE" 1
      = Ok (st', tmp_loss) /\
    Forall (fun l => (0 <= l)%Q) tmp_loss /\
    exists new, trace st' = trace tiny_state ++ new /\
      Forall (fun l => (0 <= l)%Q) (step_losses new).
Proof.
  assert (Hne : "MSE" <> "CE") by discriminate.
  split; [exact Hne|].
  destruct (train hard_cross_entropy unit_gradient two_epochs tiny_state
              tiny_loader "MSE" 1) as [[st' tmp_loss]|e] eqn:H.
  - exists st', tmp_loss. split; [reflexivity|].
    exact (mse_training_losses_nonnegative _ _ _ _ _ _ _ _ _ Hne H).
  - vm_compute in H. discriminate H.
Defined.

Lemma sgd_step_rule_witness :
  exists st' tmp',
    train_batch hard_cross_entropy unit_gradient two_epochs tiny_loader "CE" 1
      (tiny_state, []) (0%nat, [tiny_example 1 2 1]) = Ok (st', tmp') /\
    let gs := unit_gradient (select_loss "CE" ([tiny_example 1 2 1].*2))
                (model tiny_state) ([tiny_example 1 2 1].*1) in
    grad st' = gs /\
    length (parameters (model st')) = length (parameters (model tiny_state)) /\
    forall k p g, parameters (model tiny_state) !! k = Some p -> gs !! k = Some g ->
      exists p', parameters (model st') !! k = Some p' /\
        shape p' = shape p /\ length (data p') = length (data p) /\
        (forall j x, data p !! j = Some x ->
           data p' !! j = Some (x - optimizer_lr tiny_state * get (data g) j)%Q) /\
        ((optimizer_lr tiny_state == 0)%Q -> Forall2 Qeq (data p') (data p)).
Proof.
  destruct (train_batch hard_cross_entropy unit_gradient two_epochs tiny_loader
              "CE" 1 (tiny_state, []) (0%nat, [tiny_example 1 2 1]))
    as [[st' tmp']|e] eqn:H.
  - exists st', tmp'. split; [reflexivity|].
    exact (sgd_step_rule _ _ _ _ _ _ _ _ _ _ _ _ H).
  - vm_compute in H. discriminate H.
Defined.

Lemma train_keeps_shapes_and_rate_witness :
  exists st' tmp_loss,
    train hard_cross_entropy unit_gradient two_epochs tiny_state tiny_loader "CE" 1
      = Ok (st', tmp_loss) /\
    same_topology (model tiny_state) (model st') /\
    training st' = true /\
    optimizer_lr st' = optimizer_lr tiny_state /\
    last_epoch st' = last_epoch tiny_state /\
    grad_enabled st' = grad_enabled tiny_state.
Proof.
  destruct (train hard_cross_entropy unit_gradient two_epochs tiny_state
              tiny_loader "CE" 1) as [[st' tmp_loss]|e] eqn:H.
  - exists st', tmp_loss. split; [reflexivity|].
    exact (train_keeps_shapes_and_rate _ _ _ _ _ _ _ _ _ H).
  - vm_compute in H. discriminate H.
Defined.

Lemma progress_line_bounds_witness :
  exists st' tmp_loss,
    train hard_cross_entropy unit_gradient two_epochs tiny_state tiny_loader "CE" 1
      = Ok (st', tmp_loss) /\
    exists new,
      trace st' = trace tiny_state ++ new /\
      Forall (progress_ok 1 3 2 2) new.
Proof.
  destruct (train hard_cross_entropy unit_gradient two_epochs tiny_state
              tiny_loader "CE" 1) as [[st' tmp_loss]|e] eqn:H.
  - exists st', tmp_loss. split; [reflexivity|].
    exact (progress_line_bounds _ _ _ _ _ _ _ _ _ H).
  - vm_compute in H. discriminate H.
Defined.

Lemma train_with_zero_log_interval_witness :
  log_interval zero_interval = 0%Z /\
  (0 < batch_size tiny_loader)%nat /\
  dataset tiny_loader <> [] /\
  infer (model tiny_state) [1; 1; 2]%nat = Ok [10%nat] /\
  Forall (fits [1; 1; 2]%nat) (dataset tiny_loader) /\
  train hard_cross_entropy unit_gradient zero_interval tiny_state tiny_loader "CE" 1
  = Error ZeroDivisionError.
Proof.
  assert (H1 : log_interval zero_interval = 0%Z) by reflexivity.
  assert (H2 : (0 < batch_size tiny_loader)%nat) by (cbn; lia).
  assert (H3 : dataset tiny_loader <> []) by discriminate.
  assert (H4 : infer (model tiny_state) [1; 1; 2]%nat = Ok [10%nat]) by reflexivity.
  assert (H5 : Forall (fits [1; 1; 2]%nat) (dataset tiny_loader)).
  { repeat constructor; cbn; lia. }
  do 5 (split; [assumption|]).
  exact (train_with_zero_log_interval hard_cross_entropy unit_gradient zero_interval
           tiny_state tiny_loader "CE" 1 [1; 1; 2]%nat H1 H2 H3 H4 H5).
Defined.

Lemma printed_losses_are_loss_values_witness :
  exists r, main hard_cross_entropy unit_gradient two_epochs small_env = Ok r /\
    printed_losses (trace (final r)) = loss_values r.
Proof.
  destruct (main_total hard_cross_entropy unit_gradient two_epochs small_env)
    as [r Hr].
  - apply small_env_runnable. right. by left.
  - exists r. split; [exact Hr|].
    exact (printed_losses_are_loss_values hard_cross_entropy unit_gradient two_epochs
             small_env r Hr).
Defined.

Lemma number_of_loss_values_witness :
  (0 < log_interval two_epochs)%Z /\ (0 <= epochs two_epochs)%Z /\
  exists r, main hard_cross_entropy unit_gradient two_epochs small_env = Ok r /\
    exists per_epoch : list (list Q),
      loss_values r = concat per_epoch /\
      Z.of_nat (length per_epoch) = 2%Z /\
      Forall (fun l => Z.of_nat (length l) = 1%Z) per_epoch /\
      Z.of_nat (length (loss_values r)) = 2%Z.
Proof.
  assert (H1 : (0 < log_interval two_epochs)%Z) by done.
  assert (H2 : (0 <= epochs two_epochs)%Z) by done.
  split; [exact H1|]. split; [exact H2|].
  destruct (main_total hard_cross_entropy unit_gradient two_epochs small_env)
    as [r Hr].
  - apply small_env_runnable. right. by left.
  - exists r. split; [exact Hr|].
    exact (number_of_loss_values hard_cross_entropy unit_gradient two_epochs
             small_env r H1 H2 Hr).
Defined.

Lemma loss_curve_abscissae_witness :
  (0 < log_interval two_epochs)%Z /\ (0 <= epochs two_epochs)%Z /\
  mnist_train small_env <> [] /\
  new_DataLoader (mnist_train small_env) (train_batch_size two_epochs) true
    = Ok small_train_loader /\
  exists r, main hard_cross_entropy unit_gradient two_epochs small_env = Ok r /\
    let curve := loss_curve two_epochs small_train_loader (loss_values r) in
    curve.*2 = loss_values r /\
    Z.of_nat (length curve) = 2%Z /\
    (forall j p, curve !! j = Some p ->
       (p.1 == inject_Z (Z.of_nat j + 1) * inject_Z (2 * 100) / inject_Z 3)%Q) /\
    (forall e, (1 <= e <= 2)%Z ->
       exists p, curve !! (Z.to_nat (e * 1) - 1)%nat = Some p /\
         (inject_Z e <= p.1)%Q /\
         ((2 * 100 * 1 = 3)%Z -> (p.1 == inject_Z e)%Q)).
Proof.
  assert (H1 : (0 < log_interval two_epochs)%Z) by done.
  assert (H2 : (0 <= epochs two_epochs)%Z) by done.
  assert (H3 : mnist_train small_env <> []) by discriminate.
  assert (H4 : new_DataLoader (mnist_train small_env) (train_batch_size two_epochs)
                 true = Ok small_train_loader) by reflexivity.
  do 4 (split; [assumption|]).
  destruct (main_total hard_cross_entropy unit_gradient two_epochs small_env)
    as [r Hr].
  - apply small_env_runnable. right. by left.
  - exists r. split; [exact Hr|].
    exact (loss_curve_abscissae hard_cross_entropy unit_gradient two_epochs
             small_env r small_train_loader H1 H2 H3 H4 Hr).
Defined.




Lemma main_completes_on_mnist_witness :
  mnist_train raw_env = MNIST [(black_image, 3%Z); (black_image, 7%Z)] /\
  mnist_test raw_env = MNIST [(black_image, 0%Z)] /\
  Forall mnist_raw [(black_image, 3%Z); (black_image, 7%Z)] /\
  Forall mnist_raw [(black_image, 0%Z)] /\
  (0 < train_batch_size two_epochs)%Z /\ (0 < test_batch_size two_epochs)%Z /\
  Qle_bool 0 (lr two_epochs) = true /\
  log_interval two_epochs <> 0%Z /\
  save_model two_epochs = false /\
  start_checkpoint two_epochs = None /\
  is_Ok (main hard_cross_entropy unit_gradient two_epochs raw_env).
Proof.
  assert (H1 : Forall mnist_raw [(black_image, 3%Z); (black_image, 7%Z)]).
  { repeat constructor; cbn; lia. }
  assert (H2 : Forall mnist_raw [(black_image, 0%Z)]).
  { repeat constructor; cbn; lia. }
  split; [reflexivity|]. split; [reflexivity|].
  split; [exact H1|]. split; [exact H2|].
  split; [done|]. split; [done|]. split; [reflexivity|]. split; [done|].
  split; [reflexivity|]. split; [reflexivity|].
  apply (main_completes_on_mnist hard_cross_entropy unit_gradient two_epochs raw_env
           [(black_image, 3%Z); (black_image, 7%Z)] [(black_image, 0%Z)]);
    try done.
Defined.

Lemma Model_accepted_inputs_witness :
  is_Ok (forward (Model biased_init) zero_image) /\
  ~ is_Ok (forward (Model biased_init) (zeros [1; 32; 32]%nat)) /\
  ~ is_Ok (forward (Model biased_init) (zeros [3; 28; 28]%nat)).
Proof.
  split; [|split].
  - apply (Model_accepted_inputs biased_init zero_image). by exists 28%nat, 28%nat.
  - intros H. apply (Model_accepted_inputs biased_init (zeros [1; 32; 32]%nat)) in H
      as (h & wd & [= <- <-] & H). discriminate H.
  - intros H. apply (Model_accepted_inputs biased_init (zeros [3; 28; 28]%nat)) in H
      as (h & wd & [=] & _).
Defined.

Lemma test_exceptions_witness :
  test tiny_state empty_loader = Error ZeroDivisionError /\
  test biased_state one_image_loader <> Error ZeroDivisionError /\
  same_topology (Model biased_init) (model biased_state) /\
  Forall (fun ex => int64 ex.2) (dataset one_image_loader) /\
  (forall e, test biased_state one_image_loader = Error e ->
     e = ZeroDivisionError \/ e = RuntimeError \/ e = IndexError).
Proof.
  assert (Htop : same_topology (Model biased_init) (model biased_state))
    by apply Model_same_topology.
  assert (H64 : Forall (fun ex : Tensor * Z => int64 ex.2) (dataset one_image_loader)).
  { repeat constructor; unfold int64; simpl; lia. }
  split; [|split; [|split; [|split]]].
  - exact (proj2 (proj1 (test_exceptions tiny_state empty_loader)) eq_refl).
  - intros H.
    apply (proj1 (proj1 (test_exceptions biased_state one_image_loader))) in H.
    discriminate H.
  - exact Htop.
  - exact H64.
  - exact (proj2 (test_exceptions biased_state one_image_loader)
             (ex_intro _ biased_init Htop) H64).
Defined.

Lemma load_state_dict_strict_witness :
  is_Ok (load_state_dict tiny_model (state_dict tiny_model)) /\
  ~ is_Ok (load_state_dict tiny_model ∅) /\
  ~ is_Ok (load_state_dict tiny_model (state_dict (Model biased_init))).
Proof.
  split; [|split].
  - apply (load_state_dict_strict tiny_model (state_dict tiny_model)).
    split; [done|]. intros n p t Hp Ht. congruence.
  - intros H. apply (load_state_dict_strict tiny_model ∅) in H as [Hdom _].
    assert (Hin : "1.weight" ∈ dom (state_dict tiny_model)).
    { apply elem_of_dom. eexists. apply (lookup_state_dict tiny_model 1 _ _ _ eq_refl).
      left. }
    rewrite <- Hdom in Hin. set_solver.
  - intros H.
    apply (load_state_dict_strict tiny_model (state_dict (Model biased_init))) in H
      as [Hdom _].
    assert (Hin : "0.weight" ∈ dom (state_dict (Model biased_init))).
    { apply elem_of_dom. eexists.
      apply (lookup_state_dict (Model biased_init) 0 _ _ _ eq_refl). left. }
    rewrite Hdom in Hin. apply elem_of_dom in Hin as [t Ht].
    apply state_dict_lookup in Ht as (j & l & Hj & Hn).
    destruct j as [|[|[|j]]]; try discriminate Hj; injection Hj as <-.
    + by apply elem_of_nil in Hn.
    + apply elem_of_cons in Hn as [Hn|Hn]; [discriminate Hn|].
      apply list_elem_of_singleton in Hn. discriminate Hn.
Defined.

Lemma main_startup_errors_witness :
  main hard_cross_entropy unit_gradient zero_batch_size small_env = Error ValueError /\
  main hard_cross_entropy unit_gradient two_epochs empty_env = Error ValueError /\
  main hard_cross_entropy unit_gradient missing_checkpoint small_env
  = Error FileNotFoundError.
Proof.
  split; [|split].
  - apply (main_startup_errors hard_cross_entropy unit_gradient zero_batch_size
             small_env). left. done.
  - apply (main_startup_errors hard_cross_entropy unit_gradient two_epochs
             empty_env). right. right. left. reflexivity.
  - apply (proj2 (main_startup_errors hard_cross_entropy unit_gradient
                    missing_checkpoint small_env) eq_refl eq_refl
             ltac:(discriminate) ltac:(discriminate) eq_refl
             "mnist_cnn.pth" eq_refl).
    discriminate.
Defined.

Lemma transform_normalizes_witness :
  exists x, data (transform black_image) !! 0%nat = Some x /\
    (- 0.4243 <= x <= 2.8215)%Q /\ (x < 0)%Q.
Proof.
  destruct (proj1 (proj2 (proj2 (transform_normalizes black_image))) 0%nat 0%Z)
    as (x & Hx & Hr & Hneg & _); [reflexivity | lia |].
  exists x. split; [exact Hx|]. split; [exact Hr|]. apply Hneg. lia.
Defined.

Lemma forallb_repeat {A} (f : A -> bool) (x : A) (n : nat) :
  f x = true -> forallb f (repeat x n) = true.
Proof. intros H. induction n as [|n IH]; [done|]. simpl. by rewrite H, IH. Qed.

Lemma full_size_env_runnable : runnable default_flags full_size_env = true.
Proof.
  unfold runnable. apply andb_true_intro. split; [|reflexivity].
  apply andb_true_intro. split; [reflexivity|].
  apply forallb_repeat. vm_compute. reflexivity.
Qed.

Lemma test_loss_is_negated_label_score_witness :
  Forall (fun ex : Tensor * Z => (0 <= ex.2)%Z) (dataset tiny_loader) /\
  exists st', test tiny_state tiny_loader = Ok st' /\
    let n := Z.of_nat (length (dataset tiny_loader)) in
    let total_score := sumQ (label_score (model tiny_state) <$> dataset tiny_loader) in
    exists mean_loss correct percent,
      trace st' = trace tiny_state ++ [TestPass; PrintTest mean_loss correct n percent] /\
      (mean_loss == - (total_score / inject_Z n))%Q /\
      (mean_loss < 0)%Q.
Proof.
  assert (Hlab : Forall (fun ex : Tensor * Z => (0 <= ex.2)%Z) (dataset tiny_loader)).
  { repeat constructor; cbn; lia. }
  split; [exact Hlab|].
  destruct (test tiny_state tiny_loader) as [st'|e] eqn:H.
  - exists st'. split; [reflexivity|].
    destruct (test_loss_is_negated_label_score _ _ _ H Hlab)
      as (mean_loss & correct & percent & Htr & Hmean & Hneg).
    exists mean_loss, correct, percent. split; [exact Htr|]. split; [exact Hmean|].
    apply Hneg. vm_compute. reflexivity.
  - vm_compute in H. discriminate H.
Defined.

Lemma default_run_loss_curve_witness :
  length (mnist_train full_size_env) = 60000%nat /\
  new_DataLoader (mnist_train full_size_env) (train_batch_size default_flags) true
    = Ok full_size_loader /\
  exists r, main hard_cross_entropy unit_gradient default_flags full_size_env = Ok r /\
    len_loader full_size_loader = 469%nat /\
    length (loss_values r) = 50%nat /\
    exists per_epoch : list (list Q),
      loss_values r = concat per_epoch /\ length per_epoch = 10%nat /\
      Forall (fun l => length l = 5%nat) per_epoch /\
      forall e y, (1 <= e <= 10)%nat ->
        loss_values r !! (5 * e - 1)%nat = Some y ->
        exists x, loss_curve default_flags full_size_loader (loss_values r)
                    !! (5 * e - 1)%nat = Some (x, y) /\
          (x == inject_Z (Z.of_nat e) * (16 # 15))%Q /\ (inject_Z (Z.of_nat e) < x)%Q.
Proof.
  assert (H1 : length (mnist_train full_size_env) = 60000%nat)
    by exact (repeat_length (zero_image, 0%Z) 60000).
  assert (H2 : new_DataLoader (mnist_train full_size_env)
                 (train_batch_size default_flags) true = Ok full_size_loader)
    by reflexivity.
  split; [exact H1|]. split; [exact H2|].
  destruct (main_total hard_cross_entropy unit_gradient default_flags full_size_env
              full_size_env_runnable) as [r Hr].
  exists r. split; [exact Hr|].
  exact (default_run_loss_curve hard_cross_entropy unit_gradient full_size_env r
           full_size_loader H1 H2 Hr).
Defined.

